(** * sensors-monitor: the sensor-classification pipeline

    A shallow embedding of the two editions of the program kept in the
    repository,

      - [Package]: pylmsensonrs/sm.py
      - [Script]:  src/sensors-monitor.py

    covering the configuration resolver, the chip ordering policy, the
    classifier with its final sort, the presentation rules for
    temperatures and voltages, and the tables and the layout of the
    dashboard.  The two editions share most of their text;
    every definition that differs between them takes the edition as an
    argument and branches on it exactly where the sources differ. *)

From Stdlib Require Import ZArith String Ascii List Floats Lia.
From Stdlib Require Import Sorting.Sorted Permutation.
From stdpp Require Import base option list gmap strings.

Set Warnings "-inexact-float,-register-all".
Set Default Proof Using "Type".
Local Open Scope string_scope.
Local Open Scope Z_scope.

(** ** Editions *)

Inductive edition := Package | Script.

(** ** Exceptions and the result of a computation that may raise *)

Inductive exn :=
| ValueError
| TypeError
| AttributeError
| InterpolationSyntaxError
| InterpolationMissingOptionError
| InterpolationDepthError.

Inductive result (A : Type) : Type :=
| Ok (a : A)
| Raise (e : exn).
Arguments Ok {A} a.
Arguments Raise {A} e.

#[global] Instance result_ret : MRet result := fun _ a => Ok a.
#[global] Instance result_bind : MBind result := fun _ _ f m =>
  match m with Ok a => f a | Raise e => Raise e end.
#[global] Instance result_fmap : FMap result := fun _ _ f m =>
  match m with Ok a => Ok (f a) | Raise e => Raise e end.

Definition is_ok {A} (r : result A) : bool :=
  match r with Ok _ => true | Raise _ => false end.

(** A [for] loop whose body may raise: the loop stops at the first
    exception. *)
Fixpoint for_each {S X} (body : S -> X -> result S) (s : S) (xs : list X)
  : result S :=
  match xs with
  | [] => Ok s
  | x :: xs' => s' ← body s x; for_each body s' xs'
  end.

(** ** Strings: the methods of [str] the program uses *)

Definition startswith (s p : string) : bool := String.prefix p s.

Definition endswith (s suffix : string) : bool :=
  let n := String.length s in
  let m := String.length suffix in
  (m <=? n)%nat && String.eqb (substring (n - m) m s) suffix.

(** [s.split(sep)] for a one-character separator: never the empty list;
    [split "," ""] is [[""]]. *)
Fixpoint split (sep : ascii) (s : string) : list string :=
  match s with
  | EmptyString => [EmptyString]
  | String c s' =>
      if Ascii.eqb c sep then EmptyString :: split sep s'
      else match split sep s' with
           | h :: t => String c h :: t
           | [] => [String c EmptyString]
           end
  end.

(** [x in xs] on a list of strings. *)
Definition str_in (x : string) (xs : list string) : bool :=
  existsb (String.eqb x) xs.

(** [sub in s] on strings: substring test. *)
Fixpoint contains (sub s : string) : bool :=
  String.prefix sub s ||
  match s with
  | EmptyString => false
  | String _ s' => contains sub s'
  end.

(** [s.lower()] on a string of ASCII characters: the letters from [A]
    to [Z] are the only ones to change. *)
Definition lower_ascii (c : ascii) : ascii :=
  let n := nat_of_ascii c in
  if ((65 <=? n) && (n <=? 90))%nat then ascii_of_nat (n + 32) else c.

Fixpoint ascii_lower (s : string) : string :=
  match s with
  | EmptyString => EmptyString
  | String c s' => String (lower_ascii c) (ascii_lower s')
  end.

(** A string of ASCII characters only: no byte of it is 128 or more. *)
Fixpoint is_ascii (s : string) : bool :=
  match s with
  | EmptyString => true
  | String c s' => (nat_of_ascii c <? 128)%nat && is_ascii s'
  end.

(** Truth value of a string: the empty string is false. *)
Definition nonempty (s : string) : bool :=
  match s with EmptyString => false | _ => true end.

(** ** JSON values, as [json.loads] returns them

    A JSON object becomes a [dict], which keeps its items in insertion
    order: an association list.  [JNull] is Python's [None]. *)

Inductive json :=
| JNull
| JBool (b : bool)
| JInt (z : Z)
| JFloat (f : float)
| JString (s : string)
| JArray (l : list json)
| JObject (items : list (string * json)).

Definition dict (A : Type) := list (string * A).
Bind Scope list_scope with dict.

(** [isinstance(v, dict)] *)
Definition is_dict (v : json) : bool :=
  match v with JObject _ => true | _ => false end.

(** [d[k]] when [k in d], on an insertion-ordered dict. *)
Fixpoint dict_get {A} (d : dict A) (k : string) : option A :=
  match d with
  | [] => None
  | (k', v) :: d' => if String.eqb k k' then Some v else dict_get d' k
  end.

(** The built-ins of the interpreter that the program calls and that are
    not modelled here: [int(s)] and [float(s)] as the configuration parser
    applies them ([None] when they raise [ValueError]), [str(v)] as an
    f-string applies it to a JSON value, and [s.lower()] on a string that
    holds characters beyond ASCII, where the case tables of Unicode
    decide. *)
Class Builtins := {
  py_int : string -> option Z;
  py_float : string -> option float;
  py_str : json -> string;
  py_lower : string -> string;
}.

(** [s.lower()] *)
Definition lower `{Builtins} (s : string) : string :=
  if is_ascii s then ascii_lower s else py_lower s.

(** ** The configuration store

    [configparser.ConfigParser] as [load_config] leaves it: for every
    section the parser knows, the options it answers for, those that the
    default section lends to it included, and the values as the file gives
    them, before any interpolation.  Option names are stored
    lower-cased, and a look-up lower-cases the key ([optionxform]).  While a
    file is read every value is a list of lines; the lines are joined into
    strings when the file has been read through.  A read that stops early
    leaves them as lists: [joined] says which. *)

Record ConfigParser := {
  store : gmap string (gmap string string);
  joined : bool;
}.

#[global] Instance config_lookup : Lookup string (gmap string string) ConfigParser :=
  fun section config => store config !! section.
#[global] Instance config_empty : Empty ConfigParser :=
  {| store := ∅; joined := true |}.
#[global] Instance config_singleton
  : SingletonM string (gmap string string) ConfigParser :=
  fun section options => {| store := {[ section := options ]}; joined := true |}.
#[global] Instance config_insert : Insert string (gmap string string) ConfigParser :=
  fun section options config =>
    {| store := <[ section := options ]> (store config);
       joined := joined config |}.

Definition optionxform `{Builtins} (key : string) : string := lower key.

(** [section in config] *)
Definition has_section (config : ConfigParser) (section : string) : bool :=
  bool_decide (is_Some (config !! section)).

(** [key in config[section]] *)
Definition has_option `{Builtins} (config : ConfigParser) (section key : string)
  : bool :=
  match config !! section with
  | Some options => bool_decide (is_Some (options !! optionxform key))
  | None => false
  end.

(** *** Interpolation

    [BasicInterpolation], which a [ConfigParser] applies to every value
    it returns: [%%] stands for a percent sign, [%(name)s] for the value of
    the option [name] of the same section, itself interpolated when it holds
    a percent sign, and any other use of a percent sign is an error. *)

Definition MAX_INTERPOLATION_DEPTH : nat := 10.

(** Where the scan of a value stands: in plain text, after a percent
    sign, inside the name of a reference (what follows [%(]), or after the
    parenthesis that closes the name. *)
Inductive scan_state := Plain | Percent | Name (name : string) | Closed (name : string).

(** The [while rest] loop of [_interpolate_some], a character at a
    time; [expand] gives what a reference stands for.  The pattern of a
    reference is [%\(([^)]+)\)s]: a name of one character at least, none of
    them a closing parenthesis. *)
Fixpoint scan (expand : string -> result string) (state : scan_state)
    (rest : string) : result string :=
  match rest, state with
  | EmptyString, Plain => Ok EmptyString
  | EmptyString, _ => Raise InterpolationSyntaxError
  | String c rest', Plain =>
      if Ascii.eqb c "%" then scan expand Percent rest'
      else String c <$> scan expand Plain rest'
  | String c rest', Percent =>
      if Ascii.eqb c "%" then String "%" <$> scan expand Plain rest'
      else if Ascii.eqb c "(" then scan expand (Name EmptyString) rest'
      else Raise InterpolationSyntaxError
  | String c rest', Name name =>
      if Ascii.eqb c ")"
      then if nonempty name then scan expand (Closed name) rest'
           else Raise InterpolationSyntaxError
      else scan expand (Name (name +:+ String c EmptyString)) rest'
  | String c rest', Closed name =>
      if Ascii.eqb c "s"
      then v ← expand name; tail ← scan expand Plain rest'; Ok (v +:+ tail)
      else Raise InterpolationSyntaxError
  end.

(** [_interpolate_some] with [depth_left] calls still allowed, itself
    included: the call of depth [MAX_INTERPOLATION_DEPTH + 1] raises. *)
Fixpoint interpolate_some `{Builtins} (depth_left : nat) (map : gmap string string)
    (rest : string) : result string :=
  match depth_left with
  | O => Raise InterpolationDepthError
  | S depth_left' =>
      scan (fun name =>
              match map !! optionxform name with
              | None => Raise InterpolationMissingOptionError
              | Some v =>
                  if contains "%" v then interpolate_some depth_left' map v
                  else Ok v
              end) Plain rest
  end.

Definition before_get `{Builtins} (map : gmap string string) (value : string)
  : result string :=
  interpolate_some MAX_INTERPOLATION_DEPTH map value.

(** The value that the parser returns for a stored one: a value left as
    a list of lines has no [find], and the look-up raises. *)
Definition value_of `{Builtins} (config : ConfigParser) (section value : string)
  : result string :=
  if joined config then before_get (default ∅ (config !! section)) value
  else Raise AttributeError.

(** What the parser stores for a key of a section. *)
Definition stored_value `{Builtins} (config : ConfigParser) (section key : string)
  : option string :=
  config !! section ≫= fun options => options !! optionxform key.

(** [config[section][key]], the empty string standing for the stored
    value in the look-up that the guards of every caller exclude. *)
Definition config_get `{Builtins} (config : ConfigParser) (section key : string)
  : result string :=
  value_of config section (default "" (stored_value config section key)).

(** [RawConfigParser._convert_to_boolean] *)
Definition BOOLEAN_STATES : dict bool :=
  [("1", true); ("yes", true); ("true", true); ("on", true);
   ("0", false); ("no", false); ("false", false); ("off", false)].

Definition convert_to_boolean `{Builtins} (value : string) : result bool :=
  match dict_get BOOLEAN_STATES (lower value) with
  | Some b => Ok b
  | None => Raise ValueError
  end.

Definition getboolean `{Builtins} (config : ConfigParser) (section key : string)
  : result bool :=
  value ← config_get config section key;
  convert_to_boolean value.

Definition getint `{Builtins} (config : ConfigParser) (section key : string)
  : result Z :=
  value ← config_get config section key;
  match py_int value with
  | Some z => Ok z
  | None => Raise ValueError
  end.

Definition getfloat `{Builtins} (config : ConfigParser) (section key : string)
  : result float :=
  value ← config_get config section key;
  match py_float value with
  | Some f => Ok f
  | None => Raise ValueError
  end.

(** *** [load_config]

    What the module does once, when it is loaded.  The file system and
    the parser of the library are not modelled: whether the path exists, and
    what [config_parser.read] does to the fresh parser, are given.  [read]
    skips a file that cannot be opened and returns; it raises when the text
    does not parse, and the parser keeps what it has taken in by then, joined
    or not as the library has it. *)





(** *** [get_config_value] (pylmsensonrs/sm.py) *)

Inductive value_type := t_int | t_float | t_bool | t_str | t_none.

Definition ConfigValueType (t : value_type) : Type :=
  match t with
  | t_int => Z
  | t_float => float
  | t_bool => bool
  | t_str => string
  | t_none => unit
  end.

Definition get_config_value `{Builtins} (config : ConfigParser)
    (section key : string) (value_type : value_type)
    (default_value : option (ConfigValueType value_type))
  : result (option (ConfigValueType value_type)) :=
  if nonempty section && nonempty key
     && has_section config section && has_option config section key
  then
    match value_type
      return option (ConfigValueType value_type)
             -> result (option (ConfigValueType value_type))
    with
    | t_str => fun _ => Some <$> config_get config section key
    | t_int => fun _ => Some <$> getint config section key
    | t_float => fun _ => Some <$> getfloat config section key
    | t_bool => fun _ => Some <$> getboolean config section key
    | t_none => fun d => Ok d
    end default_value
  else Ok default_value.

(** ** Chip ordering policy *)

(** [sys.maxsize] of a 64-bit CPython. *)
Definition sys_maxsize : Z := 2 ^ 63 - 1.

(** A compiled pattern of the shape [^p.*]: [match] succeeds on exactly
    the strings that start with [p]. *)
Definition re_match (p chip_id : string) : bool := startswith chip_id p.

(** [chip_sort_order], as the literal prefixes of its patterns, in the
    order of the dict display. *)
Definition chip_sort_order (e : edition) : dict Z :=
  match e with
  | Package => [("coretemp-", 1); ("drivetemp-", 2); ("acpitz-", 3)]
  | Script => [("coretemp-", 1); ("drivetemp-", 2); ("nvme-", 3); ("acpitz-", 4)]
  end.

Fixpoint first_match (rules : dict Z) (chip_id : string) : Z :=
  match rules with
  | [] => sys_maxsize - 1
  | (key, value) :: rules' =>
      if re_match key chip_id then value else first_match rules' chip_id
  end.

Definition get_chip_order (e : edition) (chip_id : string) : Z :=
  first_match (chip_sort_order e) chip_id.

(** ** Display preferences *)

Section Preferences.
Context `{Builtins} (e : edition) (config : ConfigParser).

Definition get_custom_sensor_label (chip_id sensor_id : string)
  : result (option string) :=
  match e with
  | Package => get_config_value config chip_id sensor_id t_str (Some sensor_id)
  | Script =>
      if has_section config chip_id && has_option config chip_id sensor_id
      then Some <$> config_get config chip_id sensor_id
      else Ok (Some sensor_id)
  end.

Definition get_custom_chip_label (chip_id : string) : result (option string) :=
  match e with
  | Package => get_config_value config chip_id "label" t_str (Some chip_id)
  | Script =>
      if has_section config chip_id && has_option config chip_id "label"
      then Some <$> config_get config chip_id "label"
      else Ok (Some chip_id)
  end.

(** The caller tests the answer for truth: [None] would count as false. *)
Definition is_chip_visible (chip_id : string) : result bool :=
  match e with
  | Package =>
      default false <$> get_config_value config chip_id "visible" t_bool (Some true)
  | Script =>
      if has_section config chip_id && has_option config chip_id "visible"
      then getboolean config chip_id "visible"
      else Ok true
  end.

Definition is_sensoer_visible (chip_id sensor_id : string) : result bool :=
  match e with
  | Package =>
      v ← get_config_value config chip_id "hidden_sensoers" t_str (Some "");
      match v with
      | Some s =>
          let hidden_sensoers := split "," s in
          if str_in sensor_id hidden_sensoers then Ok false else Ok true
      | None => Raise AttributeError
      end
  | Script =>
      if has_section config chip_id && has_option config chip_id "hidden_sensoers"
      then
        value ← config_get config chip_id "hidden_sensoers";
        let hidden_sensoers := split "," value in
        if str_in sensor_id hidden_sensoers then Ok false else Ok true
      else Ok true
  end.
End Preferences.

(** ** Sensor records *)

Record Sensoer := {
  chip_id : string;
  sensor_id : string;
  default_chip_label : option string;
  chip_label : option string;
  sensor_label : option string;
  chip_order : Z;
}.

Definition Sensoer_init `{Builtins} (e : edition) (config : ConfigParser)
    (chip sensoer : string) (adapter : option string) : result Sensoer :=
  cl ← get_custom_chip_label e config chip;
  sl ← get_custom_sensor_label e config chip sensoer;
  Ok {| chip_id := chip; sensor_id := sensoer; default_chip_label := adapter;
        chip_label := cl; sensor_label := sl;
        chip_order := get_chip_order e chip |}.

(** The value fields hold whatever the raw tree holds; [JNull] is the
    [None] they start with. *)
Module FanSpeed.
Record t := { base : Sensoer; value : json; min : json }.
Definition init (b : Sensoer) : t := {| base := b; value := JNull; min := JNull |}.
Definition set_value (v : json) (r : t) : t :=
  {| base := base r; value := v; min := min r |}.
Definition set_min (v : json) (r : t) : t :=
  {| base := base r; value := value r; min := v |}.
Definition map_base (f : Sensoer -> Sensoer) (r : t) : t :=
  {| base := f (base r); value := value r; min := min r |}.
End FanSpeed.

Module Voltage.
Record t := { base : Sensoer; value : json; min : json; max : json }.
Definition init (b : Sensoer) : t :=
  {| base := b; value := JNull; min := JNull; max := JNull |}.
Definition set_value (v : json) (r : t) : t :=
  {| base := base r; value := v; min := min r; max := max r |}.
Definition set_min (v : json) (r : t) : t :=
  {| base := base r; value := value r; min := v; max := max r |}.
Definition set_max (v : json) (r : t) : t :=
  {| base := base r; value := value r; min := min r; max := v |}.
Definition map_base (f : Sensoer -> Sensoer) (r : t) : t :=
  {| base := f (base r); value := value r; min := min r; max := max r |}.
End Voltage.

Module Temp.
Record t := { base : Sensoer; value : json; high : json; critical : json }.
Definition init (b : Sensoer) : t :=
  {| base := b; value := JNull; high := JNull; critical := JNull |}.
Definition set_value (v : json) (r : t) : t :=
  {| base := base r; value := v; high := high r; critical := critical r |}.
Definition set_high (v : json) (r : t) : t :=
  {| base := base r; value := value r; high := v; critical := critical r |}.
Definition set_critical (v : json) (r : t) : t :=
  {| base := base r; value := value r; high := high r; critical := v |}.
Definition map_base (f : Sensoer -> Sensoer) (r : t) : t :=
  {| base := f (base r); value := value r; high := high r; critical := critical r |}.
End Temp.

Module HddTemp.
Record t := { temp : Temp.t; lowest : json; highest : json }.
Definition init (b : Sensoer) : t :=
  {| temp := Temp.init b; lowest := JNull; highest := JNull |}.
Definition base (r : t) : Sensoer := Temp.base (temp r).
Definition on_temp (f : Temp.t -> Temp.t) (r : t) : t :=
  {| temp := f (temp r); lowest := lowest r; highest := highest r |}.
Definition set_value (v : json) : t -> t := on_temp (Temp.set_value v).
Definition set_high (v : json) : t -> t := on_temp (Temp.set_high v).
Definition set_critical (v : json) : t -> t := on_temp (Temp.set_critical v).
Definition set_lowest (v : json) (r : t) : t :=
  {| temp := temp r; lowest := v; highest := highest r |}.
Definition set_highest (v : json) (r : t) : t :=
  {| temp := temp r; lowest := lowest r; highest := v |}.
Definition map_base (f : Sensoer -> Sensoer) : t -> t := on_temp (Temp.map_base f).
End HddTemp.

Record SensorsData := {
  volts : list Voltage.t;
  temps : list Temp.t;
  hdd_temps : list HddTemp.t;
  fans : list FanSpeed.t;
  raw_data : dict json;
}.

Definition SensorsData_init (raw : dict json) : SensorsData :=
  {| volts := []; temps := []; hdd_temps := []; fans := []; raw_data := raw |}.

(** ** The classifier *)

Definition ADAPTER_PROP : string := "Adapter".

(** [d.setdefault(k, fresh).field = v]: the record stored under [k], or
    [fresh] when there is none, is updated in place and stays in the
    dict. *)
Definition setdefault_set {A} (d : gmap string A) (k : string) (fresh : A)
    (set : A -> A) : gmap string A :=
  <[k := set (default fresh (d !! k))]> d.

(** A dict that holds at most the key [k]. *)
Definition dict_of {A} (k : string) (o : option A) : gmap string A :=
  match o with Some r => {[k := r]} | None => ∅ end.

(** [[*d.values()]] *)
Definition values {A} (d : gmap string A) : list A := (map_to_list d).*2.

(** [sorted(l, key=...)]: the stable sort of the run-time, as a stable
    insertion sort. *)
Fixpoint insert_by {A} (key : A -> Z) (x : A) (l : list A) : list A :=
  match l with
  | [] => [x]
  | y :: l' => if key x <=? key y then x :: l else y :: insert_by key x l'
  end.

Definition sorted {A} (key : A -> Z) (l : list A) : list A :=
  foldr (insert_by key) [] l.

(** The four dicts local to the scan of one field group. *)
Record locals := {
  l_temps : gmap string Temp.t;
  l_hdd_temps : gmap string HddTemp.t;
  l_volts : gmap string Voltage.t;
  l_fans : gmap string FanSpeed.t;
}.

Definition locals_init : locals :=
  {| l_temps := ∅; l_hdd_temps := ∅; l_volts := ∅; l_fans := ∅ |}.

Definition put_temp (st : locals) (k : string) (b : Sensoer)
    (set : Temp.t -> Temp.t) : locals :=
  {| l_temps := setdefault_set (l_temps st) k (Temp.init b) set;
     l_hdd_temps := l_hdd_temps st; l_volts := l_volts st; l_fans := l_fans st |}.

Definition put_hdd_temp (st : locals) (k : string) (b : Sensoer)
    (set : HddTemp.t -> HddTemp.t) : locals :=
  {| l_temps := l_temps st;
     l_hdd_temps := setdefault_set (l_hdd_temps st) k (HddTemp.init b) set;
     l_volts := l_volts st; l_fans := l_fans st |}.

Definition put_volt (st : locals) (k : string) (b : Sensoer)
    (set : Voltage.t -> Voltage.t) : locals :=
  {| l_temps := l_temps st; l_hdd_temps := l_hdd_temps st;
     l_volts := setdefault_set (l_volts st) k (Voltage.init b) set;
     l_fans := l_fans st |}.

Definition put_fan (st : locals) (k : string) (b : Sensoer)
    (set : FanSpeed.t -> FanSpeed.t) : locals :=
  {| l_temps := l_temps st; l_hdd_temps := l_hdd_temps st; l_volts := l_volts st;
     l_fans := setdefault_set (l_fans st) k (FanSpeed.init b) set |}.

Definition is_drive_chip (e : edition) (chip : string) : bool :=
  match e with
  | Package => startswith chip "drivetemp" || startswith chip "nvme"
  | Script => startswith chip "drivetemp"
  end.

Definition extend (output : SensorsData) (st : locals) : SensorsData :=
  {| volts := volts output ++ values (l_volts st);
     temps := temps output ++ values (l_temps st);
     hdd_temps := hdd_temps output ++ values (l_hdd_temps st);
     fans := fans output ++ values (l_fans st);
     raw_data := raw_data output |}.

Section Classifier.
Context `{Builtins} (e : edition) (config : ConfigParser).

(** The body of [for name, value in sensoer_values.items()].  The
    constructor call that is the second argument of [setdefault] runs
    before the look-up, whether the key is there or not. *)
Definition classify_field (chip sensor : string) (adapter : option string)
    (st : locals) (item : string * json) : result locals :=
  let '(name, value) := item in
  if startswith name "temp" then
    if is_drive_chip e chip then
      if endswith name "_input" then
        b ← Sensoer_init e config chip sensor adapter;
        Ok (put_hdd_temp st sensor b (HddTemp.set_value value))
      else if endswith name "_max" then
        b ← Sensoer_init e config chip sensor adapter;
        Ok (put_hdd_temp st sensor b (HddTemp.set_high value))
      else if endswith name "_crit" then
        b ← Sensoer_init e config chip sensor adapter;
        Ok (put_hdd_temp st sensor b (HddTemp.set_critical value))
      else if endswith name "_lowest" then
        b ← Sensoer_init e config chip sensor adapter;
        Ok (put_hdd_temp st sensor b (HddTemp.set_lowest value))
      else if endswith name "_highest" then
        b ← Sensoer_init e config chip sensor adapter;
        Ok (put_hdd_temp st sensor b (HddTemp.set_highest value))
      else Ok st
    else
      if endswith name "_input" then
        b ← Sensoer_init e config chip sensor adapter;
        Ok (put_temp st sensor b (Temp.set_value value))
      else if endswith name "_max" then
        b ← Sensoer_init e config chip sensor adapter;
        Ok (put_temp st sensor b (Temp.set_high value))
      else if endswith name "_crit" then
        b ← Sensoer_init e config chip sensor adapter;
        Ok (put_temp st sensor b (Temp.set_critical value))
      else Ok st
  else if startswith name "fan" then
    if endswith name "_input" then
      b ← Sensoer_init e config chip sensor adapter;
      Ok (put_fan st sensor b (FanSpeed.set_value value))
    else if endswith name "_min" then
      b ← Sensoer_init e config chip sensor adapter;
      Ok (put_fan st sensor b (FanSpeed.set_min value))
    else Ok st
  else if startswith name "in" then
    if endswith name "_input" then
      b ← Sensoer_init e config chip sensor adapter;
      Ok (put_volt st sensor b (Voltage.set_value value))
    else if endswith name "_min" then
      b ← Sensoer_init e config chip sensor adapter;
      Ok (put_volt st sensor b (Voltage.set_min value))
    else if endswith name "_max" then
      b ← Sensoer_init e config chip sensor adapter;
      Ok (put_volt st sensor b (Voltage.set_max value))
    else Ok st
  else Ok st.

(** The body of [for sensor_id, sensoer_values in chip_data.items()].
    [or] is short-circuit: the visibility of an entry that is not a dict
    is never asked for. *)
Definition scan_sensor (chip : string) (adapter : option string)
    (output : SensorsData) (item : string * json) : result SensorsData :=
  let '(sensor, sensoer_values) := item in
  match sensoer_values with
  | JObject fields =>
      visible ← is_sensoer_visible e config chip sensor;
      if negb visible then Ok output
      else
        st ← for_each (classify_field chip sensor adapter) locals_init fields;
        Ok (extend output st)
  | _ => Ok output
  end.

(** What [ADAPTER_PROP in chip_data], [chip_data[ADAPTER_PROP]] and
    [chip_data.items()] do on a value that is not a dict: a string or a
    list passes the membership test and then fails on the subscript or on
    [items]; anything else fails on the membership test. *)
Definition not_a_dict (chip_data : json) : exn :=
  match chip_data with
  | JString s => if contains ADAPTER_PROP s then TypeError else AttributeError
  | JArray l =>
      if existsb (fun j => match j with
                           | JString s => String.eqb s ADAPTER_PROP
                           | _ => false
                           end) l
      then TypeError else AttributeError
  | _ => TypeError
  end.

(** The body of [for chip_id, chip_data in sensors_json.items()]. *)
Definition scan_chip (output : SensorsData) (item : string * json)
  : result SensorsData :=
  let '(chip, chip_data) := item in
  visible ← is_chip_visible e config chip;
  if negb visible then Ok output
  else
    match chip_data with
    | JObject entries =>
        let adapter := py_str <$> dict_get entries ADAPTER_PROP in
        for_each (scan_sensor chip adapter) output entries
    | _ => Raise (not_a_dict chip_data)
    end.

(** The loop of [parse_sensors_json]: the four sequences in discovery
    order. *)
Definition classify (sensors_json : dict json) : result SensorsData :=
  for_each scan_chip (SensorsData_init sensors_json) sensors_json.

Definition sort_output (output : SensorsData) : SensorsData :=
  {| temps := sorted (fun item => chip_order (Temp.base item)) (temps output);
     hdd_temps :=
       sorted (fun item => chip_order (HddTemp.base item)) (hdd_temps output);
     volts := sorted (fun item => chip_order (Voltage.base item)) (volts output);
     fans := sorted (fun item => chip_order (FanSpeed.base item)) (fans output);
     raw_data := raw_data output |}.

Definition parse_sensors_json (sensors_json : dict json) : result SensorsData :=
  sort_output <$> classify sensors_json.
End Classifier.

(** ** Presentation rules

    Readings are binary64 floats, as the field annotations of the record
    classes say ([Optional[float]]); the stand-ins for a missing bound are
    the integers [sys.maxsize] and [-sys.maxsize - 1]. *)

Inductive number := PyInt (z : Z) | PyFloat (f : float).

(** [float(z)]: the nearest binary64, ties to even. *)
Definition float_of_int (z : Z) : float :=
  SF2Prim (binary_normalize prec emax z 0 false).

(** [n * f] with [f] a float: an integer operand is converted first. *)
Definition number_mul (n : number) (f : float) : float :=
  match n with
  | PyInt z => float_of_int z * f
  | PyFloat x => x * f
  end%float.

(** Comparison of a float with an integer: Python compares the two
    mathematical values exactly, without converting the integer.  A finite
    float is [m * 2 ^ e], signed. *)
Definition spec_compare_int (x : spec_float) (z : Z) : option comparison :=
  match x with
  | S754_nan => None
  | S754_infinity s => Some (if s then Lt else Gt)
  | S754_zero _ => Some (0 ?= z)
  | S754_finite s m e =>
      let n := if s then Z.neg m else Z.pos m in
      Some (if 0 <=? e then n * 2 ^ e ?= z else n ?= z * 2 ^ (- e))
  end.

Definition float_compare_int (f : float) (z : Z) : option comparison :=
  spec_compare_int (Prim2SF f) z.

(** [f < n] and [f > n] *)
Definition float_lt (f : float) (n : number) : bool :=
  match n with
  | PyFloat x => (f <? x)%float
  | PyInt z => match float_compare_int f z with Some Lt => true | _ => false end
  end.

Definition float_gt (f : float) (n : number) : bool :=
  match n with
  | PyFloat x => (x <? f)%float
  | PyInt z => match float_compare_int f z with Some Gt => true | _ => false end
  end.

(** The text of a cell, with the formatted reading kept as data:
    [Celsius t] is [f"{t}°C"] and [Volts v] is [f"{v:.2f}V"]. *)
Inductive content := Blank | Celsius (temp : float) | Volts (voltage : float).

(** [rich.text.Text]; [Text("")] carries the empty style. *)
Record Text := { plain : content; style : string }.

Definition get_colored_temp (temp high : option float) : Text :=
  match temp with
  | None => {| plain := Blank; style := "" |}
  | Some temp =>
      let high := match high with
                  | None => PyInt sys_maxsize
                  | Some h => PyFloat h
                  end in
      if (number_mul high 0.8 <=? temp)%float
      then {| plain := Celsius temp; style := "bold red" |}
      else if (number_mul high 0.6 <=? temp)%float
      then {| plain := Celsius temp; style := "yellow" |}
      else {| plain := Celsius temp; style := "green" |}
  end.

Definition get_colored_voltage (voltage min_voltage max_voltage : option float)
  : Text :=
  match voltage with
  | None => {| plain := Blank; style := "" |}
  | Some voltage =>
      let min_voltage := match min_voltage with
                         | None => PyInt (- sys_maxsize - 1)
                         | Some m => PyFloat m
                         end in
      let max_voltage := match max_voltage with
                         | None => PyInt sys_maxsize
                         | Some m => PyFloat m
                         end in
      if float_lt voltage min_voltage
      then {| plain := Volts voltage; style := "yellow" |}
      else if float_gt voltage max_voltage
      then {| plain := Volts voltage; style := "red" |}
      else {| plain := Volts voltage; style := "green" |}
  end.

(** The severity tier a cell shows, read off its style; a blank cell
    shows none. *)
Inductive tier := normal | warning | critical.

Definition tier_of (t : Text) : option tier :=
  match plain t with
  | Blank => None
  | _ =>
      if String.eqb (style t) "green" then Some normal
      else if String.eqb (style t) "yellow" then Some warning
      else if String.eqb (style t) "bold red" || String.eqb (style t) "red"
      then Some critical
      else None
  end.

(** ** The classifier, described

    What follows restates what a scan produces, without the dicts: which
    field feeds which record, which field groups are scanned, and the one
    record a group yields per category.  The classifier is proved equal
    to this description further down. *)

(** The field of a record that a raw field sets, by suffix. *)
Definition temp_setter (name : string) (value : json) : option (Temp.t -> Temp.t) :=
  if endswith name "_input" then Some (Temp.set_value value)
  else if endswith name "_max" then Some (Temp.set_high value)
  else if endswith name "_crit" then Some (Temp.set_critical value)
  else None.

Definition hdd_temp_setter (name : string) (value : json)
  : option (HddTemp.t -> HddTemp.t) :=
  if endswith name "_input" then Some (HddTemp.set_value value)
  else if endswith name "_max" then Some (HddTemp.set_high value)
  else if endswith name "_crit" then Some (HddTemp.set_critical value)
  else if endswith name "_lowest" then Some (HddTemp.set_lowest value)
  else if endswith name "_highest" then Some (HddTemp.set_highest value)
  else None.

Definition fan_setter (name : string) (value : json)
  : option (FanSpeed.t -> FanSpeed.t) :=
  if endswith name "_input" then Some (FanSpeed.set_value value)
  else if endswith name "_min" then Some (FanSpeed.set_min value)
  else None.

Definition volt_setter (name : string) (value : json)
  : option (Voltage.t -> Voltage.t) :=
  if endswith name "_input" then Some (Voltage.set_value value)
  else if endswith name "_min" then Some (Voltage.set_min value)
  else if endswith name "_max" then Some (Voltage.set_max value)
  else None.

(** The category a raw field is routed to, by prefix and owning chip. *)
Definition temp_route (e : edition) (chip name : string) (value : json)
  : option (Temp.t -> Temp.t) :=
  if startswith name "temp" && negb (is_drive_chip e chip)
  then temp_setter name value else None.

Definition hdd_temp_route (e : edition) (chip name : string) (value : json)
  : option (HddTemp.t -> HddTemp.t) :=
  if startswith name "temp" && is_drive_chip e chip
  then hdd_temp_setter name value else None.

Definition fan_route (name : string) (value : json)
  : option (FanSpeed.t -> FanSpeed.t) :=
  if negb (startswith name "temp") && startswith name "fan"
  then fan_setter name value else None.

Definition volt_route (name : string) (value : json)
  : option (Voltage.t -> Voltage.t) :=
  if negb (startswith name "temp") && negb (startswith name "fan")
     && startswith name "in"
  then volt_setter name value else None.

(** The effect of one raw field on the four dicts, read off the routes. *)
Definition route_field (e : edition) (b : Sensoer) (chip sensor : string)
    (st : locals) (name : string) (value : json) : locals :=
  {| l_temps :=
       match temp_route e chip name value with
       | Some set => setdefault_set (l_temps st) sensor (Temp.init b) set
       | None => l_temps st
       end;
     l_hdd_temps :=
       match hdd_temp_route e chip name value with
       | Some set => setdefault_set (l_hdd_temps st) sensor (HddTemp.init b) set
       | None => l_hdd_temps st
       end;
     l_volts :=
       match volt_route name value with
       | Some set => setdefault_set (l_volts st) sensor (Voltage.init b) set
       | None => l_volts st
       end;
     l_fans :=
       match fan_route name value with
       | Some set => setdefault_set (l_fans st) sensor (FanSpeed.init b) set
       | None => l_fans st
       end |}.

(** The four dicts when each holds at most the key [sensor]. *)
Definition locals_of (sensor : string) (t : option Temp.t) (h : option HddTemp.t)
    (v : option Voltage.t) (f : option FanSpeed.t) : locals :=
  {| l_temps := dict_of sensor t; l_hdd_temps := dict_of sensor h;
     l_volts := dict_of sensor v; l_fans := dict_of sensor f |}.

(** One step of merging the fields of a group into at most one record:
    the record appears with the first routed field and takes every later
    one. *)
Definition merge_step {A} (fresh : A) (route : string -> json -> option (A -> A))
    (acc : option A) (item : string * json) : option A :=
  match route item.1 item.2 with
  | Some set => Some (set (default fresh acc))
  | None => acc
  end.

Definition merge {A} (fresh : A) (route : string -> json -> option (A -> A))
    (fields : dict json) : option A :=
  foldl (merge_step fresh route) None fields.

(** A raw field that some category takes: the name starts with one of
    the three prefixes and ends with a suffix known for that prefix. *)
Definition temp_suffix (name : string) : bool :=
  endswith name "_input" || endswith name "_max" || endswith name "_crit".

Definition drive_suffix (name : string) : bool :=
  temp_suffix name || endswith name "_lowest" || endswith name "_highest".

Definition fan_suffix (name : string) : bool :=
  endswith name "_input" || endswith name "_min".

Definition volt_suffix (name : string) : bool :=
  endswith name "_input" || endswith name "_min" || endswith name "_max".

Definition recognised (e : edition) (chip name : string) : bool :=
  (startswith name "temp"
   && (if is_drive_chip e chip then drive_suffix name else temp_suffix name))
  || (startswith name "fan" && fan_suffix name)
  || (startswith name "in" && volt_suffix name).

(** A visibility answer, an exception counting as not visible. *)
Definition shown (r : result bool) : bool :=
  match r with Ok b => b | Raise _ => false end.

(** A field group that the classifier scans. *)
Record group := {
  g_chip : string;
  g_adapter : option string;
  g_sensor : string;
  g_fields : dict json;
}.

Section Description.
Context `{Builtins} (e : edition) (config : ConfigParser).

Definition label_of (r : result (option string)) : option string :=
  match r with Ok l => l | Raise _ => None end.

(** The identity part of every record of a group. *)
Definition base_of (chip sensor : string) (adapter : option string) : Sensoer :=
  {| chip_id := chip; sensor_id := sensor; default_chip_label := adapter;
     chip_label := label_of (get_custom_chip_label e config chip);
     sensor_label := label_of (get_custom_sensor_label e config chip sensor);
     chip_order := get_chip_order e chip |}.

(** The group an entry of a chip gives rise to, if any. *)
Definition entry_groups (chip : string) (adapter : option string)
    (item : string * json) : list group :=
  match item.2 with
  | JObject fields =>
      if shown (is_sensoer_visible e config chip item.1)
      then [{| g_chip := chip; g_adapter := adapter;
               g_sensor := item.1; g_fields := fields |}]
      else []
  | _ => []
  end.

Definition chip_groups (chip : string) (entries : dict json) : list group :=
  flat_map (entry_groups chip (py_str <$> dict_get entries ADAPTER_PROP)) entries.

(** The groups of one chip of the raw tree, in the order of the tree. *)
Definition groups_of_chip (item : string * json) : list group :=
  if shown (is_chip_visible e config item.1)
  then match item.2 with
       | JObject entries => chip_groups item.1 entries
       | _ => []
       end
  else [].

Definition visible_groups (sensors_json : dict json) : list group :=
  flat_map groups_of_chip sensors_json.

Definition g_base (g : group) : Sensoer :=
  base_of (g_chip g) (g_sensor g) (g_adapter g).

Definition temp_of (g : group) : option Temp.t :=
  merge (Temp.init (g_base g)) (temp_route e (g_chip g)) (g_fields g).

Definition hdd_temp_of (g : group) : option HddTemp.t :=
  merge (HddTemp.init (g_base g)) (hdd_temp_route e (g_chip g)) (g_fields g).

Definition volt_of (g : group) : option Voltage.t :=
  merge (Voltage.init (g_base g)) volt_route (g_fields g).

Definition fan_of (g : group) : option FanSpeed.t :=
  merge (FanSpeed.init (g_base g)) fan_route (g_fields g).

(** The records of some groups, appended to the four sequences. *)
Definition extend_groups (output : SensorsData) (gs : list group) : SensorsData :=
  {| volts := volts output ++ omap volt_of gs;
     temps := temps output ++ omap temp_of gs;
     hdd_temps := hdd_temps output ++ omap hdd_temp_of gs;
     fans := fans output ++ omap fan_of gs;
     raw_data := raw_data output |}.

(** The four sequences in discovery order. *)
Definition discovered (sensors_json : dict json) : SensorsData :=
  extend_groups (SensorsData_init sensors_json) (visible_groups sensors_json).

(** The exception that the constructor of a record raises for a chip
    and a sensor, if any: a label that the parser cannot return.  The
    adapter has no part in it. *)
Definition init_failure (chip sensor : string) : option exn :=
  match Sensoer_init e config chip sensor None with
  | Raise ex => Some ex
  | Ok _ => None
  end.

(** The exception an entry of a chip makes the classifier raise, if any:
    the entry is a dict and the list of hidden sensors cannot be read, or
    the entry is a visible dict with a field that some category takes, and
    the constructor raises at the first such field. *)
Definition entry_failure (chip : string) (item : string * json) : option exn :=
  match item.2 with
  | JObject fields =>
      match is_sensoer_visible e config chip item.1 with
      | Raise ex => Some ex
      | Ok false => None
      | Ok true =>
          if existsb (fun field : string * json => recognised e chip field.1) fields
          then init_failure chip item.1
          else None
      end
  | _ => None
  end.

(** The exception a chip of the raw tree makes the classifier raise, if
    any: its [visible] option cannot be read, or the chip is visible and
    does not hold a dict, or it is the first that an entry of the chip gives,
    in the order of the entries. *)
Definition chip_failure (item : string * json) : option exn :=
  match is_chip_visible e config item.1 with
  | Raise ex => Some ex
  | Ok false => None
  | Ok true =>
      match item.2 with
      | JObject entries => head (omap (entry_failure item.1) entries)
      | _ => Some (not_a_dict item.2)
      end
  end.

(** The first such exception in the order of the tree. *)
Definition first_failure (sensors_json : dict json) : option exn :=
  head (omap chip_failure sensors_json).
End Description.

(** The pair that identifies a record within its category. *)
Definition identity (b : Sensoer) : string * string := (chip_id b, sensor_id b).

Definition group_identity (g : group) : string * string := (g_chip g, g_sensor g).

(** Keys of a Python dict are pairwise distinct; on association lists
    this is said, for the raw tree and for every chip in it. *)
Definition keys_unique {A} (d : dict A) : bool := bool_decide (NoDup d.*1).

Definition tree_keys_unique (sensors_json : dict json) : bool :=
  keys_unique sensors_json
  && forallb (fun item : string * json =>
       match item.2 with
       | JObject entries => keys_unique entries
       | _ => true
       end) sensors_json.

(** ** Order of the sequences *)

(** The sort key of a record, and the records of one rank. *)
Definition by_rank {A} (base : A -> Sensoer) (item : A) : Z :=
  chip_order (base item).

Definition sorted_by_rank {A} (base : A -> Sensoer) (l : list A) : Prop :=
  StronglySorted (fun x y => by_rank base x <= by_rank base y) l.

Definition of_rank {A} (base : A -> Sensoer) (r : Z) (l : list A) : list A :=
  filter (fun x => by_rank base x = r) l.

(** The records that one chip of the raw tree contributes to a category,
    in the order of its field groups. *)
Definition chip_records `{Builtins} (e : edition) (config : ConfigParser) {A}
    (record_of : group -> option A) (item : string * json) : list A :=
  omap record_of (groups_of_chip e config item).

(** A sequence of the snapshot is in rank order, and the records of any
    one rank are the records of that rank chip by chip in the order of the
    raw tree. *)
Definition stably_ranked `{Builtins} (e : edition) (config : ConfigParser) {A}
    (base : A -> Sensoer) (record_of : group -> option A)
    (sensors_json : dict json) (l : list A) : Prop :=
  sorted_by_rank base l
  /\ forall r, of_rank base r l
       = flat_map (fun item => of_rank base r (chip_records e config record_of item))
           sensors_json.

(** ** Counting records *)

(** The raw fields that feed each category. *)
Definition feeds_temp (e : edition) (chip name : string) : bool :=
  startswith name "temp" && negb (is_drive_chip e chip) && temp_suffix name.

Definition feeds_hdd_temp (e : edition) (chip name : string) : bool :=
  startswith name "temp" && is_drive_chip e chip && drive_suffix name.

Definition feeds_fan (name : string) : bool :=
  startswith name "fan" && fan_suffix name.

Definition feeds_volt (name : string) : bool :=
  startswith name "in" && volt_suffix name.

(** A group contributes to a category when one of its fields feeds it. *)
Definition contributes (feeds : string -> string -> bool) (g : group) : bool :=
  existsb (fun item : string * json => feeds (g_chip g) item.1) (g_fields g).

(** A sequence of the snapshot against the scanned groups: no two records
    share a (chip, sensor) pair, there are as many records as contributing
    groups, and the records are the merged records of the groups. *)
Definition one_per_pair {A} (base : A -> Sensoer) (record_of : group -> option A)
    (feeds : string -> string -> bool) (gs : list group) (l : list A) : Prop :=
  NoDup ((fun r => identity (base r)) <$> l)
  /\ length l = length (List.filter (contributes feeds) gs)
  /\ l ≡ₚ omap record_of gs.

(** ** Snapshots compared *)

(** The four sequences of a snapshot, the raw tree left aside. *)
Definition sequences (output : SensorsData)
  : list Voltage.t * list Temp.t * list HddTemp.t * list FanSpeed.t :=
  (volts output, temps output, hdd_temps output, fans output).

(** A record, a group and a snapshot with the adapter left out. *)
Definition without_adapter (b : Sensoer) : Sensoer :=
  {| chip_id := chip_id b; sensor_id := sensor_id b; default_chip_label := None;
     chip_label := chip_label b; sensor_label := sensor_label b;
     chip_order := chip_order b |}.

Definition group_without_adapter (g : group) : group :=
  {| g_chip := g_chip g; g_adapter := None; g_sensor := g_sensor g;
     g_fields := g_fields g |}.

Definition forget_adapter (output : SensorsData) : SensorsData :=
  {| volts := Voltage.map_base without_adapter <$> volts output;
     temps := Temp.map_base without_adapter <$> temps output;
     hdd_temps := HddTemp.map_base without_adapter <$> hdd_temps output;
     fans := FanSpeed.map_base without_adapter <$> fans output;
     raw_data := raw_data output |}.

(** ** The ordering policy, described *)




(** ** Routing of temperature fields, described *)

(** The chips whose temperature fields go to the drive temperatures, by
    the prefixes of the chip id that each edition tests. *)
Definition drive_prefixes (e : edition) : list string :=
  match e with
  | Package => ["drivetemp"; "nvme"]
  | Script => ["drivetemp"]
  end.

Definition drive_like (e : edition) (chip : string) : bool :=
  existsb (startswith chip) (drive_prefixes e).

(** A tree with the one chip ["drivetemp-scsi-0-0"], and the record it
    yields. *)
Definition drivetemp_tree : dict json :=
  [("drivetemp-scsi-0-0", JObject [("temp1", JObject [("temp1_input", JFloat 38)])])].

Definition drivetemp_record (e : edition) : HddTemp.t :=
  HddTemp.set_value (JFloat 38)
    (HddTemp.init
       {| chip_id := "drivetemp-scsi-0-0"; sensor_id := "temp1";
          default_chip_label := None;
          chip_label := Some "drivetemp-scsi-0-0"; sensor_label := Some "temp1";
          chip_order := 2 |}).

(** A tree with one NVMe chip, and the record it yields. *)
Definition nvme_tree : dict json :=
  [("nvme-pci-0100", JObject [("Composite", JObject [("temp1_input", JFloat 38)])])].

Definition nvme_base (e : edition) : Sensoer :=
  {| chip_id := "nvme-pci-0100"; sensor_id := "Composite";
     default_chip_label := None;
     chip_label := Some "nvme-pci-0100"; sensor_label := Some "Composite";
     chip_order := get_chip_order e "nvme-pci-0100" |}.

(** ** The configuration resolver, described *)

(** The value stored for a section and a key, when both are non-empty
    and the store holds them. *)
Definition stored `{Builtins} (config : ConfigParser) (section key : string)
  : option string :=
  if nonempty section && nonempty key then stored_value config section key
  else None.



(** The comma-separated list that hides sensors of a chip: the stored
    option as the parser returns it, or what each edition takes when there
    is none. *)
Definition hidden_list `{Builtins} (e : edition) (config : ConfigParser)
    (chip : string) : result (list string) :=
  if has_section config chip && has_option config chip "hidden_sensoers"
  then split "," <$> config_get config chip "hidden_sensoers"
  else Ok match e with
          | Package => split "," ""
          | Script => []
          end.

(** A configuration with an empty list of hidden sensors, one with an
    unreadable [visible] and [refresh], and a chip with a field group whose
    id is the empty string. *)
Definition empty_hidden_config : ConfigParser :=
  {[ "nct6775-isa-0290" := {[ "hidden_sensoers" := "" ]} ]}.


(** A configuration with a lone percent sign in a label; a read that
    raises at the end of a file that does not parse, having taken in the
    lines that do; and a read that raises in the middle of a file, on an
    option given twice, which leaves every value as a list of lines. *)
Definition percent_config : ConfigParser :=
  {[ "coretemp-isa-0000" := {[ "label" := "CPU 100%" ]} ]}.




Definition empty_id_tree : dict json :=
  [("nct6775-isa-0290", JObject [("", JObject [("fan1_input", JFloat 900)])])].

(** ** An interpreter to run examples on

    [int] on plain decimal numerals with an optional sign, [float] on
    nothing, [str] exact on strings, [None] and booleans, [lower] on the
    ASCII letters alone.  No theorem below depends on it: each is stated
    for every [Builtins]. *)

Fixpoint digits_value (acc : Z) (s : string) : option Z :=
  match s with
  | EmptyString => Some acc
  | String c s' =>
      let n := nat_of_ascii c in
      if ((48 <=? n) && (n <=? 57))%nat
      then digits_value (10 * acc + Z.of_nat (n - 48)) s'
      else None
  end.

Definition plain_int (s : string) : option Z :=
  match s with
  | EmptyString => None
  | String "-" s' => if nonempty s' then Z.opp <$> digits_value 0 s' else None
  | String "+" s' => if nonempty s' then digits_value 0 s' else None
  | _ => digits_value 0 s
  end.

Definition plain_str (v : json) : string :=
  match v with
  | JString s => s
  | JNull => "None"
  | JBool true => "True"
  | JBool false => "False"
  | _ => ""
  end.

Definition plain_builtins : Builtins :=
  {| py_int := plain_int; py_float := fun _ => None; py_str := plain_str;
     py_lower := ascii_lower |}.

(** A raw tree and a configuration to run examples on, and the snapshot
    that pylmsensonrs/sm.py makes of them. *)
Definition sample_board_entries : dict json :=
  [("fan1", JObject [("fan1_input", JFloat 900); ("fan1_min", JFloat 0)]);
   ("fan2", JObject [("fan2_input", JFloat 1200)]);
   ("fan3", JObject [("fan3_input", JFloat 700)]);
   ("in0", JObject [("in0_input", JFloat 3.3)]);
   ("SYSTIN", JObject [("temp1_input", JFloat 31); ("temp1_max", JFloat 80);
                       ("temp1_alarm", JFloat 0)]);
   ("intrusion0", JObject [("intrusion0_alarm", JFloat 1)])].

Definition sample_other_chips : dict json :=
  [("acpitz-acpi-0",
    JObject [("Adapter", JString "ACPI interface");
             ("temp1", JObject [("temp1_input", JFloat 27); ("temp1_crit", JFloat 105)])]);
   ("nvme-pci-0100",
    JObject [("Adapter", JString "PCI adapter");
             ("Composite", JObject [("temp1_input", JFloat 38)])]);
   ("drivetemp-scsi-0-0",
    JObject [("Adapter", JString "SCSI adapter");
             ("temp1", JObject [("temp1_input", JFloat 38); ("temp1_max", JFloat 60);
                                ("temp1_crit", JFloat 70); ("temp1_lowest", JFloat 20);
                                ("temp1_highest", JFloat 45)])]);
   ("coretemp-isa-0000",
    JObject [("Adapter", JString "ISA adapter");
             ("Core 0", JObject [("temp2_input", JFloat 45); ("temp2_max", JFloat 90)]);
             ("Core 1", JObject [("temp3_input", JFloat 80); ("temp3_max", JFloat 90)])])].

Definition sample_tree : dict json :=
  ("nct6775-isa-0290",
   JObject (("Adapter", JString "ISA adapter") :: sample_board_entries))
  :: sample_other_chips.

Definition sample_config : ConfigParser :=
  {[ "nct6775-isa-0290" := {[ "hidden_sensoers" := "fan1,fan2"; "label" := "Board" ]};
     "acpitz-acpi-0" := {[ "visible" := "no" ]} ]}.

Definition sample_snapshot : SensorsData :=
  Eval vm_compute in
    sort_output (discovered (H:=plain_builtins) Package sample_config sample_tree).

(** * Further descriptions

    Vocabulary for the properties of the classifier beyond the ones
    above, and the rest of the program: the tables and the layout of the
    dashboard. *)

(** The identity parts of all the records of a snapshot. *)
Definition bases (output : SensorsData) : list Sensoer :=
  (Voltage.base <$> volts output) ++ (Temp.base <$> temps output)
  ++ (HddTemp.base <$> hdd_temps output) ++ (FanSpeed.base <$> fans output).

(** The exceptions of a look-up in the parser: those of the
    interpolation, and [AttributeError] on a value left as a list of
    lines. *)
Definition raised_by_parser (ex : exn) : bool :=
  match ex with
  | AttributeError | InterpolationSyntaxError | InterpolationMissingOptionError
  | InterpolationDepthError => true
  | ValueError | TypeError => false
  end.

(** An entry of a chip that lets the classifier go on: it holds no dict;
    or the parser answers for [hidden_sensoers] and the entry is hidden, or
    is visible and, should one of its fields be recognised, so that a record
    is built, the parser answers for the two labels of the record. *)
Definition entry_passes `{Builtins} (e : edition) (config : ConfigParser)
    (chip : string) (item : string * json) : Prop :=
  match item.2 with
  | JObject fields =>
      match is_sensoer_visible e config chip item.1 with
      | Ok true =>
          Exists (fun field : string * json => recognised e chip field.1 = true) fields ->
          is_ok (get_custom_chip_label e config chip) = true
          /\ is_ok (get_custom_sensor_label e config chip item.1) = true
      | Ok false => True
      | Raise _ => False
      end
  | _ => True
  end.

(** A chip of the raw tree that lets the classifier go on: its [visible]
    option is readable, and the chip is hidden, or holds a dict each of
    whose entries lets the classifier go on. *)
Definition chip_passes `{Builtins} (e : edition) (config : ConfigParser)
    (item : string * json) : Prop :=
  match is_chip_visible e config item.1 with
  | Ok true =>
      match item.2 with
      | JObject entries => Forall (entry_passes e config item.1) entries
      | _ => False
      end
  | Ok false => True
  | Raise _ => False
  end.

(** An entry of a chip on which the classifier raises: a dict for which
    the look-up of [hidden_sensoers] raises, or that is visible, has a
    recognised field and a label whose look-up raises. *)
Definition entry_stops `{Builtins} (e : edition) (config : ConfigParser)
    (chip : string) (item : string * json) (ex : exn) : Prop :=
  exists fields : dict json,
    item.2 = JObject fields
    /\ (is_sensoer_visible e config chip item.1 = Raise ex
        \/ (is_sensoer_visible e config chip item.1 = Ok true
            /\ Exists (fun field : string * json => recognised e chip field.1 = true) fields
            /\ forall adapter, Sensoer_init e config chip item.1 adapter = Raise ex)).

(** A chip on which the classifier raises, and what it raises: its
    [visible] option does not read as a boolean or its look-up raises; or
    the chip is visible and holds no dict; or it is visible and holds a dict
    with a first entry on which the classifier raises. *)
Definition chip_stops `{Builtins} (e : edition) (config : ConfigParser)
    (item : string * json) (ex : exn) : Prop :=
  (is_chip_visible e config item.1 = Raise ex
   /\ (ex = ValueError \/ raised_by_parser ex = true))
  \/ (is_chip_visible e config item.1 = Ok true /\ is_dict item.2 = false
      /\ ex = not_a_dict item.2 /\ ex <> ValueError)
  \/ (is_chip_visible e config item.1 = Ok true /\ raised_by_parser ex = true
      /\ exists (d1 : dict json) entry (d2 : dict json),
           item.2 = JObject (d1 ++ entry :: d2)
           /\ Forall (entry_passes e config item.1) d1
           /\ entry_stops e config item.1 entry ex).

(** The value of the last raw field of a group whose name starts with a
    prefix and ends with a suffix; [JNull], which is [None], when the group
    has no such field. *)
Definition named (prefix suffix : string) (item : string * json) : bool :=
  startswith item.1 prefix && endswith item.1 suffix.

Definition last_value (prefix suffix : string) (fields : dict json) : json :=
  default JNull (snd <$> last (List.filter (named prefix suffix) fields)).

(** A getter of a record reads back the raw fields of a name: a routed
    field of that name sets what the getter reads, any other routed field
    leaves it as it is, and no field of that name is left unrouted. *)
Definition reads_back {A} (route : string -> json -> option (A -> A))
    (get : A -> json) (prefix suffix : string) : Prop :=
  forall name value,
    match route name value with
    | Some set =>
        forall a, get (set a)
                  = if named prefix suffix (name, value) then value else get a
    | None => named prefix suffix (name, value) = false
    end.

(** What a record of each category holds of the raw fields of its
    group. *)
Definition temp_holds (fields : dict json) (r : Temp.t) : Prop :=
  Temp.value r = last_value "temp" "_input" fields
  /\ Temp.high r = last_value "temp" "_max" fields
  /\ Temp.critical r = last_value "temp" "_crit" fields.

Definition hdd_temp_holds (fields : dict json) (r : HddTemp.t) : Prop :=
  temp_holds fields (HddTemp.temp r)
  /\ HddTemp.lowest r = last_value "temp" "_lowest" fields
  /\ HddTemp.highest r = last_value "temp" "_highest" fields.

Definition fan_holds (fields : dict json) (r : FanSpeed.t) : Prop :=
  FanSpeed.value r = last_value "fan" "_input" fields
  /\ FanSpeed.min r = last_value "fan" "_min" fields.

Definition volt_holds (fields : dict json) (r : Voltage.t) : Prop :=
  Voltage.value r = last_value "in" "_input" fields
  /\ Voltage.min r = last_value "in" "_min" fields
  /\ Voltage.max r = last_value "in" "_max" fields.

(** Every record of a sequence comes from a scanned group of its own
    chip id and sensor id, and holds the raw fields of that group. *)
Definition records_hold {A} (base : A -> Sensoer) (holds : dict json -> A -> Prop)
    (gs : list group) (l : list A) : Prop :=
  Forall (fun r => exists g, g ∈ gs /\ identity (base r) = group_identity g
                             /\ holds (g_fields g) r) l.

(** ** Visibility as the specification words it

    A sensor is hidden when its id is an item of the comma-separated list
    that the configuration gives for its chip, and visible otherwise; a list
    that is empty, or that is not given, hides nothing. *)
Definition listed (value sensor : string) : bool :=
  nonempty value && str_in sensor (split "," value).

Definition sensor_visible `{Builtins} (config : ConfigParser) (chip sensor : string)
  : result bool :=
  if has_section config chip && has_option config chip "hidden_sensoers"
  then value ← config_get config chip "hidden_sensoers";
       Ok (negb (listed value sensor))
  else Ok true.

(** The field groups of the visible chips that are visible in that
    sense, in the order of the tree: the visible (chip id, sensor id) pairs
    of the specification, each with its fields. *)
Section Specified.
Context `{Builtins} (e : edition) (config : ConfigParser).

Definition entry_pairs (chip : string) (adapter : option string)
    (item : string * json) : list group :=
  match item.2 with
  | JObject fields =>
      if shown (sensor_visible config chip item.1)
      then [{| g_chip := chip; g_adapter := adapter;
               g_sensor := item.1; g_fields := fields |}]
      else []
  | _ => []
  end.

Definition pairs_of_chip (item : string * json) : list group :=
  if shown (is_chip_visible e config item.1)
  then match item.2 with
       | JObject entries =>
           flat_map (entry_pairs item.1 (py_str <$> dict_get entries ADAPTER_PROP))
             entries
       | _ => []
       end
  else [].

Definition visible_pairs (sensors_json : dict json) : list group :=
  flat_map pairs_of_chip sensors_json.
End Specified.

(** No chip id and no sensor id of the raw tree is the empty string. *)
Definition no_empty_id (sensors_json : dict json) : bool :=
  forallb (fun item : string * json =>
             nonempty item.1
             && match item.2 with
                | JObject entries =>
                    forallb (fun entry : string * json => nonempty entry.1) entries
                | _ => true
                end) sensors_json.

Definition sample_board_base (sensor : string) : Sensoer :=
  {| chip_id := "nct6775-isa-0290"; sensor_id := sensor;
     default_chip_label := Some "ISA adapter";
     chip_label := Some "Board"; sensor_label := Some sensor;
     chip_order := sys_maxsize - 1 |}.

(** * The dashboard

    What the program hands to the [rich] library is kept as data: a text
    with its style, a table as its columns and the calls [add_row] and
    [add_section] in the order the builder makes them, a panel as its tables
    and its title, a layout as the tree of its regions. *)

Module Rich.
Record Text := { plain : string; style : string }.

(** A cell of a row: a [str] or a [Text]. *)
Inductive renderable := Str (s : string) | Styled (t : Text).

Record Column := { header : string; column_style : string; justify : string }.

Inductive call := add_row (cells : list renderable) | add_section.

Record Table := { box : string; columns : list Column; calls : list call }.

(** A panel: the group of tables it centres, and its title. *)
Record Panel := { group : list Table; title : string }.

Inductive splitter := RowSplitter | ColumnSplitter.

Inductive Layout :=
  Region (name : option string) (visible : bool) (content : option Panel)
    (split : splitter) (children : list Layout).

(** [Layout(name=...)]: visible, nothing in it, no children. *)
Definition Layout_init (name : option string) : Layout :=
  Region name true None ColumnSplitter [].

Definition split_row (layouts : list Layout) (l : Layout) : Layout :=
  match l with Region n v c _ _ => Region n v c RowSplitter layouts end.

Definition split_column (layouts : list Layout) (l : Layout) : Layout :=
  match l with Region n v c _ _ => Region n v c ColumnSplitter layouts end.

Definition update (p : Panel) (l : Layout) : Layout :=
  match l with Region n v _ s cs => Region n v (Some p) s cs end.

Definition set_visible (v : bool) (l : Layout) : Layout :=
  match l with Region n _ c s cs => Region n v c s cs end.

Definition is_visible (l : Layout) : bool :=
  match l with Region _ v _ _ _ => v end.

Definition content_of (l : Layout) : option Panel :=
  match l with Region _ _ c _ _ => c end.

Definition named (name : string) (l : Layout) : bool :=
  match l with
  | Region (Some n) _ _ _ _ => String.eqb n name
  | Region None _ _ _ _ => false
  end.

(** [layout.get(name)]: the region of that name, the layout itself first,
    then its children from the first to the last, each with its own. *)
Fixpoint get (name : string) (l : Layout) : option Layout :=
  if named name l then Some l
  else match l with
       | Region _ _ _ _ cs =>
           (fix get_first (cs : list Layout) : option Layout :=
              match cs with
              | [] => None
              | c :: cs' =>
                  match get name c with
                  | Some found => Some found
                  | None => get_first cs'
                  end
              end) cs
       end.

(** [layout[name].method(...)]: the region that [get] finds, changed in
    place; [None] when there is no region of that name. *)
Fixpoint on (name : string) (f : Layout -> Layout) (l : Layout) : option Layout :=
  if named name l then Some (f l)
  else match l with
       | Region n v c s cs =>
           cs' ← (fix on_first (cs : list Layout) : option (list Layout) :=
                    match cs with
                    | [] => None
                    | c0 :: cs' =>
                        match on name f c0 with
                        | Some c0' => Some (c0' :: cs')
                        | None => cons c0 <$> on_first cs'
                        end
                    end) cs;
           Some (Region n v c s cs')
       end.
End Rich.

(** ** Operators on the values of a record

    The values of a record are whatever the raw tree holds.  The
    presentation rules multiply them by a float, compare them and format
    them; what the interpreter does there on a value of any kind is not
    modelled: the operators are parameters, [None] standing for an
    exception. *)
Class Operators := {
  py_mul : json -> float -> option float;
  py_ge : json -> float -> option bool;
  py_lt : json -> json -> option bool;
  py_gt : json -> json -> option bool;
  py_format : json -> string -> option string;
}.

(** A loop whose body may raise, the exception left unnamed. *)
Fixpoint loop {S X} (body : S -> X -> option S) (s : S) (xs : list X) : option S :=
  match xs with
  | [] => Some s
  | x :: xs' => s' ← body s x; loop body s' xs'
  end.

(** ** Cells *)

(** The presentation rules on the values as the tables pass them. *)
Module Raw.
Definition get_colored_temp `{Builtins} `{Operators} (temp high : json)
  : option Rich.Text :=
  match temp with
  | JNull => Some {| Rich.plain := ""; Rich.style := "" |}
  | _ =>
      let high := match high with JNull => JInt sys_maxsize | _ => high end in
      bound ← py_mul high 0.8;
      above ← py_ge temp bound;
      if above : bool
      then Some {| Rich.plain := py_str temp +:+ "°C"; Rich.style := "bold red" |}
      else
        bound ← py_mul high 0.6;
        above ← py_ge temp bound;
        if above : bool
        then Some {| Rich.plain := py_str temp +:+ "°C"; Rich.style := "yellow" |}
        else Some {| Rich.plain := py_str temp +:+ "°C"; Rich.style := "green" |}
  end.

Definition get_colored_voltage `{Operators} (voltage min_voltage max_voltage : json)
  : option Rich.Text :=
  match voltage with
  | JNull => Some {| Rich.plain := ""; Rich.style := "" |}
  | _ =>
      let min_voltage :=
        match min_voltage with JNull => JInt (- sys_maxsize - 1) | _ => min_voltage end in
      let max_voltage :=
        match max_voltage with JNull => JInt sys_maxsize | _ => max_voltage end in
      below ← py_lt voltage min_voltage;
      if below : bool
      then text ← py_format voltage ".2f";
           Some {| Rich.plain := text +:+ "V"; Rich.style := "yellow" |}
      else
        above ← py_gt voltage max_voltage;
        if above : bool
        then text ← py_format voltage ".2f";
             Some {| Rich.plain := text +:+ "V"; Rich.style := "red" |}
        else text ← py_format voltage ".2f";
             Some {| Rich.plain := text +:+ "V"; Rich.style := "green" |}
  end.
End Raw.

Definition get_colored_fan `{Builtins} (speed : json) : Rich.Text :=
  match speed with
  | JNull => {| Rich.plain := ""; Rich.style := "" |}
  | _ => {| Rich.plain := py_str speed +:+ " RPM"; Rich.style := "green" |}
  end.

Definition default_str_if_none `{Builtins} (s : json) (default_str : option string)
  : string :=
  match s with
  | JNull => match default_str with None => "" | Some d => d end
  | _ => py_str s
  end.

(** An optional string in an f-string. *)
Definition format_label (l : option string) : string :=
  match l with Some s => s | None => "None" end.

(** [f"{sensor_value.chip_label} {sensor_value.sensor_label}"] *)
Definition row_label (b : Sensoer) : string :=
  format_label (chip_label b) +:+ " " +:+ format_label (sensor_label b).

(** ** Tables *)

(** The style of the first column, the one difference between the
    editions. *)
Definition label_style (e : edition) : string :=
  match e with Package => "blue" | Script => "magenta" end.

Section Tables.
Context `{Builtins} `{Operators} (e : edition).
Local Open Scope list_scope.

Definition temp_row (sensor_value : Temp.t) : option (list Rich.renderable) :=
  colored ← Raw.get_colored_temp (Temp.value sensor_value) (Temp.high sensor_value);
  Some [Rich.Str (row_label (Temp.base sensor_value));
        Rich.Styled colored;
        Rich.Str (default_str_if_none (Temp.high sensor_value) None);
        Rich.Str (default_str_if_none (Temp.critical sensor_value) None)].

Definition hdd_temp_row (sensor_value : HddTemp.t) : option (list Rich.renderable) :=
  colored ← Raw.get_colored_temp (Temp.value (HddTemp.temp sensor_value))
               (Temp.high (HddTemp.temp sensor_value));
  Some [Rich.Str (row_label (HddTemp.base sensor_value));
        Rich.Styled colored;
        Rich.Str (default_str_if_none (Temp.high (HddTemp.temp sensor_value)) None);
        Rich.Str (default_str_if_none (Temp.critical (HddTemp.temp sensor_value)) None);
        Rich.Str (default_str_if_none (HddTemp.lowest sensor_value) None);
        Rich.Str (default_str_if_none (HddTemp.highest sensor_value) None)].

Definition voltage_row (sensor_value : Voltage.t) : option (list Rich.renderable) :=
  colored ← Raw.get_colored_voltage (Voltage.value sensor_value)
               (Voltage.min sensor_value) (Voltage.max sensor_value);
  Some [Rich.Str (row_label (Voltage.base sensor_value));
        Rich.Styled colored;
        Rich.Str (default_str_if_none (Voltage.min sensor_value) None);
        Rich.Str (default_str_if_none (Voltage.max sensor_value) None)].

Definition fan_row (sensor_value : FanSpeed.t) : option (list Rich.renderable) :=
  Some [Rich.Str (row_label (FanSpeed.base sensor_value));
        Rich.Styled (get_colored_fan (FanSpeed.value sensor_value));
        Rich.Str (default_str_if_none (FanSpeed.min sensor_value) None)].

(** The body of the [for] loop of the three tables that draw a line
    between chips; the state is the calls made so far and [last_chip_id]. *)
Definition add_sensor_row {A} (base : A -> Sensoer)
    (row : A -> option (list Rich.renderable))
    (st : list Rich.call * option string) (sensor_value : A)
  : option (list Rich.call * option string) :=
  let '(calls, last_chip_id) := st in
  let calls :=
    match last_chip_id with
    | Some last =>
        if negb (String.eqb last (chip_id (base sensor_value)))
        then calls ++ [Rich.add_section] else calls
    | None => calls
    end in
  cells ← row sensor_value;
  Some (calls ++ [Rich.add_row cells], Some (chip_id (base sensor_value))).

(** The body of the loop of the drive table, which draws no line. *)
Definition add_drive_row (calls : list Rich.call) (sensor_value : HddTemp.t)
  : option (list Rich.call) :=
  cells ← hdd_temp_row sensor_value;
  Some (calls ++ [Rich.add_row cells]).

Definition dim (header : string) : Rich.Column :=
  {| Rich.header := header; Rich.column_style := "dim"; Rich.justify := "right" |}.

Definition first_columns (header : string) : list Rich.Column :=
  [{| Rich.header := header; Rich.column_style := label_style e;
      Rich.justify := "left" |};
   {| Rich.header := "Current"; Rich.column_style := "bold";
      Rich.justify := "right" |}].

Definition build_temp_table (temps : list Temp.t) : option (option Rich.Table) :=
  match temps with
  | [] => Some None
  | _ =>
      st ← loop (add_sensor_row Temp.base temp_row) ([], None) temps;
      Some (Some {| Rich.box := "MINIMAL";
                    Rich.columns := first_columns "Chip / Sensor"
                                    ++ [dim "High"; dim "Critical"];
                    Rich.calls := st.1 |})
  end.

Definition build_hdd_temp_table (temps : list HddTemp.t)
  : option (option Rich.Table) :=
  match temps with
  | [] => Some None
  | _ =>
      calls ← loop add_drive_row [] temps;
      Some (Some {| Rich.box := "MINIMAL";
                    Rich.columns := first_columns "Drive"
                                    ++ [dim "High"; dim "Critical"; dim "Lowest";
                                        dim "Highest"];
                    Rich.calls := calls |})
  end.

Definition build_voltage_table (voltages : list Voltage.t)
  : option (option Rich.Table) :=
  match voltages with
  | [] => Some None
  | _ =>
      st ← loop (add_sensor_row Voltage.base voltage_row) ([], None) voltages;
      Some (Some {| Rich.box := "MINIMAL";
                    Rich.columns := first_columns "Chip / Sensor"
                                    ++ [dim "Min"; dim "Max"];
                    Rich.calls := st.1 |})
  end.

Definition build_fans_table (fans : list FanSpeed.t) : option (option Rich.Table) :=
  match fans with
  | [] => Some None
  | _ =>
      st ← loop (add_sensor_row FanSpeed.base fan_row) ([], None) fans;
      Some (Some {| Rich.box := "MINIMAL";
                    Rich.columns := first_columns "Fan" ++ [dim "Min"];
                    Rich.calls := st.1 |})
  end.
End Tables.

(** ** The layout *)

Section Layout.
Context `{Builtins} `{Operators} (e : edition) (config : ConfigParser).
Local Open Scope list_scope.

(** [if tables: layout[name].update(Panel(...)) else: layout[name].visible
    = False] *)
Definition place (name title : string) (tables : list Rich.Table)
    (layout : Rich.Layout) : option Rich.Layout :=
  match tables with
  | [] => Rich.on name (Rich.set_visible false) layout
  | _ => Rich.on name (Rich.update {| Rich.group := tables; Rich.title := title |})
           layout
  end.

(** [if not tables1 and not tables2: layout[name].visible = False] *)
Definition hide_if_empty (name : string) (tables1 tables2 : list Rich.Table)
    (layout : Rich.Layout) : option Rich.Layout :=
  match tables1, tables2 with
  | [], [] => Rich.on name (Rich.set_visible false) layout
  | _, _ => Some layout
  end.

(** [build_sensors_ui] from the raw tree that [get_sensors_json] has
    returned; [None] when the classifier or a cell raises, or a region is
    missing. *)
Definition build_sensors_ui (sensors_json : dict json) : option Rich.Layout :=
  match parse_sensors_json e config sensors_json with
  | Raise _ => None
  | Ok sensors_data =>
      match e with
      | Package =>
          table ← build_temp_table e (temps sensors_data);
          let left_top_tables := option_list table in
          table ← build_hdd_temp_table e (hdd_temps sensors_data);
          let left_bottom_tables := option_list table in
          table ← build_fans_table e (fans sensors_data);
          let right_top_tables := option_list table in
          table ← build_voltage_table e (volts sensors_data);
          let right_bottom_tables := option_list table in
          let layout := Rich.Layout_init None in
          let layout :=
            Rich.split_row [Rich.Layout_init (Some "lside");
                            Rich.Layout_init (Some "rside")] layout in
          layout ← Rich.on "lside"
                     (Rich.split_column [Rich.Layout_init (Some "lside_top");
                                         Rich.Layout_init (Some "lside_bottom")])
                     layout;
          layout ← Rich.on "rside"
                     (Rich.split_column [Rich.Layout_init (Some "rside_top");
                                         Rich.Layout_init (Some "rside_bottom")])
                     layout;
          layout ← place "lside_top" "[bold cyan]System Temperatures[/bold cyan]"
                     left_top_tables layout;
          layout ← place "lside_bottom" "[bold cyan]Drives Temperatures[/bold cyan]"
                     left_bottom_tables layout;
          layout ← place "rside_top" "[bold cyan]Fans[/bold cyan]"
                     right_top_tables layout;
          layout ← place "rside_bottom" "[bold cyan]Voltages[/bold cyan]"
                     right_bottom_tables layout;
          layout ← hide_if_empty "lside" left_top_tables left_bottom_tables layout;
          hide_if_empty "rside" right_top_tables right_bottom_tables layout
      | Script =>
          table ← build_temp_table e (temps sensors_data);
          let left_tables := option_list table in
          table ← build_hdd_temp_table e (hdd_temps sensors_data);
          let left_tables := left_tables ++ option_list table in
          table ← build_voltage_table e (volts sensors_data);
          let main_tables := option_list table in
          table ← build_fans_table e (fans sensors_data);
          let right_tables := option_list table in
          let layout := Rich.Layout_init None in
          let layout :=
            Rich.split_row [Rich.Layout_init (Some "lside");
                            Rich.Layout_init (Some "main");
                            Rich.Layout_init (Some "rside")] layout in
          layout ← place "lside" "[bold cyan]Temperatures[/bold cyan]"
                     left_tables layout;
          layout ← place "main" "[bold cyan]Voltages[/bold cyan]" main_tables layout;
          place "rside" "[bold cyan]Fans[/bold cyan]" right_tables layout
      end
  end.
End Layout.

(** ** Tables, described *)

(** The calls that make a table whose rows come in runs: the rows of one
    run after the other, with a line between two runs. *)
Fixpoint join_sections (runs : list (list Rich.call)) : list Rich.call :=
  match runs with
  | [] => []
  | run :: runs' =>
      match runs' with
      | [] => run
      | _ => (run ++ Rich.add_section :: join_sections runs')%list
      end
  end.

(** The rows of runs of records, a line between two runs; [None] when a
    row raises. *)
Definition sections {A} (row : A -> option (list Rich.renderable))
    (runs : list (list A)) : option (list Rich.call) :=
  rows ← mapM (mapM row) runs;
  Some (join_sections (fmap (M:=list) (fmap (M:=list) Rich.add_row) rows)).

(** The line that the loop draws before a row of chip [c], by
    [last_chip_id]. *)
Definition line_before (last_chip_id : option string) (c : string)
  : list Rich.call :=
  match last_chip_id with
  | Some last => if negb (String.eqb last c) then [Rich.add_section] else []
  | None => []
  end.

(** The records of a category chip by chip, for the chips that have
    some. *)
Definition chip_runs `{Builtins} (e : edition) (config : ConfigParser) {A}
    (record_of : group -> option A) (chips : dict json) : list (list A) :=
  List.filter (fun run => negb (bool_decide (run = [])))
    (chip_records e config record_of <$> chips).


(** The calls of a table with a line between chips, from the runs of its
    records: no table when there is no run. *)
Definition lined_calls {A} (row : A -> option (list Rich.renderable))
    (runs : list (list A)) : option (option (list Rich.call)) :=
  match runs with
  | [] => Some None
  | _ => Some <$> sections row runs
  end.

(** The calls of a table with no line: a row per record. *)
Definition plain_calls {A} (row : A -> option (list Rich.renderable))
    (records : list A) : option (option (list Rich.call)) :=
  match records with
  | [] => Some None
  | _ => rows ← mapM row records; Some (Some (Rich.add_row <$> rows))
  end.


(** ** The layout, described *)

(** A region with nothing under it, as the program leaves it: hidden when
    it has no table, and otherwise holding the panel of its tables. *)
Definition placed (name title : string) (tables : list Rich.Table) : Rich.Layout :=
  Rich.Region (Some name)
    (match tables with [] => false | _ => true end)
    (match tables with
     | [] => None
     | _ => Some {| Rich.group := tables; Rich.title := title |}
     end)
    Rich.ColumnSplitter [].

(** A side of the dashboard of pylmsensonrs/sm.py: a column of two
    regions, hidden when both are. *)
Definition side (name : string) (top bottom : Rich.Layout) : Rich.Layout :=
  Rich.Region (Some name) (Rich.is_visible top || Rich.is_visible bottom) None
    Rich.ColumnSplitter [top; bottom].

(** The dashboard of each edition for the four tables, each of which may
    be missing. *)
Definition dashboard (e : edition) (temp hdd fans volt : option Rich.Table)
  : Rich.Layout :=
  Rich.Region None true None Rich.RowSplitter
    match e with
    | Package =>
        [side "lside"
           (placed "lside_top" "[bold cyan]System Temperatures[/bold cyan]"
              (option_list temp))
           (placed "lside_bottom" "[bold cyan]Drives Temperatures[/bold cyan]"
              (option_list hdd));
         side "rside"
           (placed "rside_top" "[bold cyan]Fans[/bold cyan]" (option_list fans))
           (placed "rside_bottom" "[bold cyan]Voltages[/bold cyan]"
              (option_list volt))]
    | Script =>
        [placed "lside" "[bold cyan]Temperatures[/bold cyan]"
           (option_list temp ++ option_list hdd)%list;
         placed "main" "[bold cyan]Voltages[/bold cyan]" (option_list volt);
         placed "rside" "[bold cyan]Fans[/bold cyan]" (option_list fans)]
    end.

(** The four tables of a snapshot; [None] when a row raises. *)
Definition build_tables `{Builtins} `{Operators} (e : edition)
    (sensors_data : SensorsData)
  : option (option Rich.Table * option Rich.Table * option Rich.Table
            * option Rich.Table) :=
  temp ← build_temp_table e (temps sensors_data);
  hdd ← build_hdd_temp_table e (hdd_temps sensors_data);
  fans ← build_fans_table e (fans sensors_data);
  volt ← build_voltage_table e (volts sensors_data);
  Some (temp, hdd, fans, volt).

(** Whether the region of a name is visible, and what it holds. *)
Definition region_visible (name : string) (layout : Rich.Layout) : option bool :=
  Rich.is_visible <$> Rich.get name layout.

Definition region_title (name : string) (layout : Rich.Layout) : option string :=
  region ← Rich.get name layout;
  Rich.title <$> Rich.content_of region.

(** A layout and the regions under it, at any depth. *)
Fixpoint regions (l : Rich.Layout) : list Rich.Layout :=
  l :: match l with
       | Rich.Region _ _ _ _ cs =>
           (fix regions_of (cs : list Rich.Layout) : list Rich.Layout :=
              match cs with
              | [] => []
              | c :: cs' => (regions c ++ regions_of cs')%list
              end) cs
       end.

Definition children_of (l : Rich.Layout) : list Rich.Layout :=
  match l with Rich.Region _ _ _ _ cs => cs end.

(** A region that has something to show: a panel, or a visible region
    right under it. *)
Definition filled (l : Rich.Layout) : bool :=
  bool_decide (is_Some (Rich.content_of l))
  || existsb Rich.is_visible (children_of l).

(** Whether some scanned field group has a field that feeds a category. *)
Definition has_records (feeds : string -> string -> bool) (gs : list group) : bool :=
  existsb (contributes feeds) gs.

(** A region of a layout is visible or not as a flag says, and when
    visible shows a panel of a given title. *)
Definition shows (layout : Rich.Layout) (name title : string) (b : bool) : Prop :=
  region_visible name layout = Some b
  /\ region_title name layout = (if b then Some title else None).


(** ** Cells on float readings *)

(** A reading as a record holds it: [None], or a float. *)
Definition reading (o : option float) : json :=
  match o with None => JNull | Some f => JFloat f end.

(** What the operators do on floats, and on a float against the two
    integers that stand for a missing bound: the arithmetic and the
    comparisons of the presentation rules above.  Nothing is asked of them
    on any other integer, where a product can raise [OverflowError]. *)
Definition float_operators `{Operators} : Prop :=
  (forall (f x : float), py_mul (JFloat f) x = Some (f * x)%float)
  /\ (forall (x : float),
        py_mul (JInt sys_maxsize) x = Some (number_mul (PyInt sys_maxsize) x))
  /\ (forall (f x : float), py_ge (JFloat f) x = Some (x <=? f)%float)
  /\ (forall (f g : float), py_lt (JFloat f) (JFloat g) = Some (float_lt f (PyFloat g)))
  /\ (forall (f : float),
        py_lt (JFloat f) (JInt (- sys_maxsize - 1))
        = Some (float_lt f (PyInt (- sys_maxsize - 1))))
  /\ (forall (f g : float), py_gt (JFloat f) (JFloat g) = Some (float_gt f (PyFloat g)))
  /\ (forall (f : float),
        py_gt (JFloat f) (JInt sys_maxsize) = Some (float_gt f (PyInt sys_maxsize))).

(** Operators to run examples on: the ones above on floats, a format
    that prints nothing, and an exception on anything else. *)
Definition plain_number (v : json) : option number :=
  match v with
  | JInt z => Some (PyInt z)
  | JFloat f => Some (PyFloat f)
  | _ => None
  end.

Definition plain_operators : Operators :=
  {| py_mul v x := (fun n => number_mul n x) <$> plain_number v;
     py_ge v x := match v with JFloat f => Some (x <=? f)%float | _ => None end;
     py_lt v w := match v with JFloat f => float_lt f <$> plain_number w | _ => None end;
     py_gt v w := match v with JFloat f => float_gt f <$> plain_number w | _ => None end;
     py_format v spec := match v with JFloat _ => Some "" | _ => None end |}.


(** ** Labels, described *)

(** The custom text that the configuration gives for a key of a section:
    the stored value as the parser returns it, the key looked up in lower
    case, or a fallback when the section stores none; pylmsensonrs/sm.py
    looks nothing up under an empty section or key. *)
Definition custom `{Builtins} (e : edition) (config : ConfigParser)
    (section key fallback : string) : result string :=
  match match e with
        | Package => stored config section key
        | Script => stored_value config section key
        end with
  | Some value => value_of config section value
  | None => Ok fallback
  end.

(** The fields of the drive of the sample tree, and the dashboard that
    pylmsensonrs/sm.py makes of the sample tree. *)
Definition sample_drive_fields : dict json :=
  [("temp1_input", JFloat 38); ("temp1_max", JFloat 60); ("temp1_crit", JFloat 70);
   ("temp1_lowest", JFloat 20); ("temp1_highest", JFloat 45)].

Definition sample_drive_base : Sensoer :=
  {| chip_id := "drivetemp-scsi-0-0"; sensor_id := "temp1";
     default_chip_label := Some "SCSI adapter";
     chip_label := Some "drivetemp-scsi-0-0"; sensor_label := Some "temp1";
     chip_order := 2 |}.

Definition sample_dashboard : Rich.Layout :=
  Eval vm_compute in
    default (Rich.Layout_init None)
      (build_sensors_ui (H:=plain_builtins) (H0:=plain_operators) Package
         sample_config sample_tree).

(** * Properties *)

(** ** Loops and dicts *)

Lemma for_each_app {S X} (body : S -> X -> result S) (s : S) (xs ys : list X) :
  for_each body s (xs ++ ys) = s' ← for_each body s xs; for_each body s' ys.
Proof.
  revert s. induction xs as [|x xs IH]; intros s; simpl; [done|].
  destruct (body s x) as [s'|ex]; simpl; [apply IH | done].
Qed.

Lemma for_each_skip {S X} (body : S -> X -> result S) (s : S) (xs ys : list X)
    (x : X) :
  (forall s0, body s0 x = Ok s0) ->
  for_each body s (xs ++ x :: ys) = for_each body s (xs ++ ys).
Proof.
  intros Hskip. rewrite !for_each_app.
  destruct (for_each body s xs) as [s'|ex]; simpl; [|done].
  by rewrite Hskip.
Qed.

Lemma setdefault_set_dict_of {A} (k : string) (acc : option A) (fresh : A)
    (set : A -> A) :
  setdefault_set (dict_of k acc) k fresh set
  = dict_of k (Some (set (default fresh acc))).
Proof.
  unfold setdefault_set. destruct acc as [r|]; simpl.
  - by rewrite lookup_singleton_eq, insert_singleton_eq.
  - by rewrite lookup_empty, insert_empty.
Qed.

Lemma values_dict_of {A} (k : string) (o : option A) :
  values (dict_of k o) = option_list o.
Proof.
  unfold values. destruct o as [r|]; simpl.
  - by rewrite map_to_list_singleton.
  - by rewrite map_to_list_empty.
Qed.

(** ** Prefixes *)

Lemma startswith_head a p name :
  startswith name (String a p) = true -> exists s, name = String a s.
Proof.
  unfold startswith. destruct name as [|c name]; cbn [String.prefix]; [done|].
  destruct (ascii_dec a c) as [<-|]; [eauto | done].
Qed.

Lemma startswith_fan_not_temp name :
  startswith name "fan" = true -> startswith name "temp" = false.
Proof.
  intros [s ->]%startswith_head. unfold startswith; cbn [String.prefix].
  by destruct (ascii_dec "t" "f").
Qed.

Lemma startswith_in_not_temp name :
  startswith name "in" = true -> startswith name "temp" = false.
Proof.
  intros [s ->]%startswith_head. unfold startswith; cbn [String.prefix].
  by destruct (ascii_dec "t" "i").
Qed.

Lemma startswith_in_not_fan name :
  startswith name "in" = true -> startswith name "fan" = false.
Proof.
  intros [s ->]%startswith_head. unfold startswith; cbn [String.prefix].
  by destruct (ascii_dec "f" "i").
Qed.

Lemma startswith_fan_not_in name :
  startswith name "fan" = true -> startswith name "in" = false.
Proof.
  intros Hf. destruct (startswith name "in") eqn:Hi; [|done].
  by rewrite (startswith_in_not_fan _ Hi) in Hf.
Qed.

Lemma startswith_temp_only name :
  startswith name "temp" = true ->
  startswith name "fan" = false /\ startswith name "in" = false.
Proof.
  intros Ht. split.
  - destruct (startswith name "fan") eqn:Hf; [|done].
    by rewrite (startswith_fan_not_temp _ Hf) in Ht.
  - destruct (startswith name "in") eqn:Hi; [|done].
    by rewrite (startswith_in_not_temp _ Hi) in Ht.
Qed.

(** ** The constructor of a record *)

Section PreferenceFacts.
Context `{Builtins} (e : edition) (config : ConfigParser).

(** The constructor raises or not whatever the adapter, and builds the
    identity part of the description when it returns. *)
Lemma Sensoer_init_base chip sensor adapter :
  Sensoer_init e config chip sensor adapter
  = match init_failure e config chip sensor with
    | Some ex => Raise ex
    | None => Ok (base_of e config chip sensor adapter)
    end.
Proof.
  unfold init_failure, Sensoer_init, base_of.
  destruct (get_custom_chip_label e config chip) as [cl|ex]; [|done].
  cbn [mbind result_bind].
  by destruct (get_custom_sensor_label e config chip sensor) as [sl|ex].
Qed.
End PreferenceFacts.

(** ** The scan of one field group *)

Section ClassifierFacts.
Context `{Builtins} (e : edition) (config : ConfigParser).

(** A field that some category takes calls the constructor, and sets
    its value in the record of the category when the constructor returns. *)
Lemma classify_field_routes chip sensor adapter st name value :
  classify_field e config chip sensor adapter st (name, value)
  = match (if recognised e chip name then init_failure e config chip sensor
           else None) with
    | Some ex => Raise ex
    | None =>
        Ok (route_field e (base_of e config chip sensor adapter) chip sensor st
              name value)
    end.
Proof.
  unfold classify_field, recognised, route_field, temp_route, hdd_temp_route,
    fan_route, volt_route, temp_setter, hdd_temp_setter, fan_setter, volt_setter,
    drive_suffix, temp_suffix, fan_suffix, volt_suffix.
  rewrite Sensoer_init_base. destruct st as [t h v f]; simpl.
  destruct (startswith name "temp") eqn:Ht.
  - destruct (startswith_temp_only _ Ht) as [-> ->]. simpl.
    destruct (is_drive_chip e chip), (init_failure e config chip sensor); simpl;
      try done; repeat (case_match; simpl in *; try done).
  - simpl. destruct (startswith name "fan") eqn:Hf; simpl.
    + rewrite (startswith_fan_not_in _ Hf). simpl.
      destruct (init_failure e config chip sensor); simpl;
        try done; repeat (case_match; simpl in *; try done).
    + destruct (startswith name "in"), (init_failure e config chip sensor); simpl;
        try done; repeat (case_match; simpl in *; try done).
Qed.

Lemma route_field_locals_of b chip sensor t h v f name value :
  route_field e b chip sensor (locals_of sensor t h v f) name value
  = locals_of sensor
      (merge_step (Temp.init b) (temp_route e chip) t (name, value))
      (merge_step (HddTemp.init b) (hdd_temp_route e chip) h (name, value))
      (merge_step (Voltage.init b) volt_route v (name, value))
      (merge_step (FanSpeed.init b) fan_route f (name, value)).
Proof.
  unfold route_field, locals_of, merge_step; simpl.
  f_equal; case_match; try done; apply setdefault_set_dict_of.
Qed.

(** The scan of the fields of a group raises exactly when the group has
    a field that some category takes and the constructor raises. *)
Lemma scan_fields_locals_of chip sensor adapter fields t h v f :
  let b := base_of e config chip sensor adapter in
  for_each (classify_field e config chip sensor adapter)
    (locals_of sensor t h v f) fields
  = match (if existsb (fun field : string * json => recognised e chip field.1) fields
           then init_failure e config chip sensor else None) with
    | Some ex => Raise ex
    | None =>
        Ok (locals_of sensor
              (foldl (merge_step (Temp.init b) (temp_route e chip)) t fields)
              (foldl (merge_step (HddTemp.init b) (hdd_temp_route e chip)) h fields)
              (foldl (merge_step (Voltage.init b) volt_route) v fields)
              (foldl (merge_step (FanSpeed.init b) fan_route) f fields))
    end.
Proof.
  intros b. revert t h v f.
  induction fields as [|[name value] fields IH]; intros t h v f; [done|].
  cbn [for_each foldl existsb fst]. rewrite classify_field_routes.
  fold b. rewrite route_field_locals_of.
  destruct (recognised e chip name); cbn [orb].
  - destruct (init_failure e config chip sensor) as [ex|] eqn:Hinit; [done|].
    cbn [mbind result_bind]. rewrite IH.
    by destruct (existsb _ fields).
  - cbn [mbind result_bind]. apply IH.
Qed.

Lemma extend_groups_nil output : extend_groups e config output [] = output.
Proof. destruct output. unfold extend_groups; simpl. by rewrite !app_nil_r. Qed.

Lemma extend_groups_app output gs1 gs2 :
  extend_groups e config (extend_groups e config output gs1) gs2
  = extend_groups e config output (gs1 ++ gs2).
Proof. unfold extend_groups; simpl. by rewrite !omap_app, !app_assoc. Qed.

Lemma scan_sensor_groups chip adapter output item :
  scan_sensor e config chip adapter output item
  = match entry_failure e config chip item with
    | Some ex => Raise ex
    | None =>
        Ok (extend_groups e config output (entry_groups e config chip adapter item))
    end.
Proof.
  destruct item as [sensor v]. unfold scan_sensor, entry_failure, entry_groups.
  destruct v; simpl; try by rewrite extend_groups_nil.
  destruct (is_sensoer_visible e config chip sensor) as [[|]|ex]; simpl;
    [|by rewrite extend_groups_nil|done].
  change locals_init with (locals_of sensor None None None None).
  rewrite scan_fields_locals_of.
  destruct (if existsb _ items then _ else _) as [ex|]; [done|]. simpl.
  unfold extend, extend_groups, locals_of; simpl. rewrite !values_dict_of.
  unfold volt_of, temp_of, hdd_temp_of, fan_of, merge, g_base; simpl.
  f_equal; f_equal; by case_match.
Qed.

Lemma scan_entries_groups chip adapter output entries :
  for_each (scan_sensor e config chip adapter) output entries
  = match head (omap (entry_failure e config chip) entries) with
    | Some ex => Raise ex
    | None =>
        Ok (extend_groups e config output
              (flat_map (entry_groups e config chip adapter) entries))
    end.
Proof.
  revert output. induction entries as [|item entries IH]; intros output.
  - by rewrite extend_groups_nil.
  - cbn [for_each flat_map]. rewrite scan_sensor_groups.
    change (omap (entry_failure e config chip) (item :: entries))
      with (match entry_failure e config chip item with
            | Some ex => ex :: omap (entry_failure e config chip) entries
            | None => omap (entry_failure e config chip) entries
            end).
    destruct (entry_failure e config chip item) as [ex|]; simpl; [done|].
    rewrite IH. destruct (head _); [done|].
    by rewrite extend_groups_app.
Qed.

Lemma scan_chip_groups output item :
  scan_chip e config output item
  = match chip_failure e config item with
    | Some ex => Raise ex
    | None => Ok (extend_groups e config output (groups_of_chip e config item))
    end.
Proof.
  destruct item as [chip data].
  unfold chip_failure, scan_chip, groups_of_chip; simpl.
  destruct (is_chip_visible e config chip) as [[|]|ex]; simpl; try done.
  - destruct data; simpl; try done. apply scan_entries_groups.
  - by rewrite extend_groups_nil.
Qed.

Lemma scan_chips_groups output sensors_json :
  for_each (scan_chip e config) output sensors_json
  = match first_failure e config sensors_json with
    | Some ex => Raise ex
    | None =>
        Ok (extend_groups e config output (visible_groups e config sensors_json))
    end.
Proof.
  unfold first_failure. revert output.
  induction sensors_json as [|item tree IH]; intros output.
  - by rewrite extend_groups_nil.
  - cbn [for_each]. rewrite scan_chip_groups.
    change (omap (chip_failure e config) (item :: tree))
      with (match chip_failure e config item with
            | Some ex => ex :: omap (chip_failure e config) tree
            | None => omap (chip_failure e config) tree
            end).
    destruct (chip_failure e config item) as [ex|]; simpl; [done|].
    rewrite IH. destruct (head _); [done|].
    unfold visible_groups; simpl. by rewrite extend_groups_app.
Qed.

(** The classifier is its description, on exactly the trees on which it
  does not raise. *)
Lemma classify_discovered sensors_json :
  classify e config sensors_json
  = match first_failure e config sensors_json with
    | Some ex => Raise ex
    | None => Ok (discovered e config sensors_json)
    end.
Proof. apply scan_chips_groups. Qed.

Lemma parse_sensors_json_discovered sensors_json :
  parse_sensors_json e config sensors_json
  = match first_failure e config sensors_json with
    | Some ex => Raise ex
    | None => Ok (sort_output (discovered e config sensors_json))
    end.
Proof.
  unfold parse_sensors_json. rewrite classify_discovered.
  by destruct (first_failure e config sensors_json).
Qed.

Lemma parse_sensors_json_inv sensors_json output :
  parse_sensors_json e config sensors_json = Ok output ->
  first_failure e config sensors_json = None
  /\ output = sort_output (discovered e config sensors_json).
Proof.
  rewrite parse_sensors_json_discovered.
  destruct (first_failure e config sensors_json); [done|]. by intros [= <-].
Qed.
End ClassifierFacts.

(** ** The stable sort *)

Section Sorting.
Context {A : Type} (key : A -> Z).

Lemma insert_by_Permutation x l : insert_by key x l ≡ₚ x :: l.
Proof.
  induction l as [|y l IH]; simpl; [done|].
  destruct (key x <=? key y); [done|].
  rewrite IH. apply Permutation_swap.
Qed.

Lemma sorted_Permutation l : sorted key l ≡ₚ l.
Proof.
  induction l as [|x l IH]; simpl; [done|].
  rewrite insert_by_Permutation. by rewrite IH.
Qed.

Lemma insert_by_StronglySorted x l :
  StronglySorted (fun a b => key a <= key b) l ->
  StronglySorted (fun a b => key a <= key b) (insert_by key x l).
Proof.
  induction 1 as [|y l Hl IH Hy]; simpl.
  - repeat constructor.
  - destruct (Z.leb_spec (key x) (key y)) as [Hle|Hgt].
    + constructor; [by constructor|].
      constructor; [done|].
      eapply Forall_impl; [exact Hy|]. simpl. intros z Hz. lia.
    + constructor; [done|].
      rewrite insert_by_Permutation. constructor; [lia | done].
Qed.

Lemma sorted_StronglySorted l :
  StronglySorted (fun a b => key a <= key b) (sorted key l).
Proof.
  induction l as [|x l IH]; simpl; [constructor|].
  by apply insert_by_StronglySorted.
Qed.

(** Insertion only moves [x] past records of a strictly smaller key, so
    the records of any one key keep their order. *)
Lemma insert_by_filter r x l :
  filter (fun a => key a = r) (insert_by key x l)
  = filter (fun a => key a = r) (x :: l).
Proof.
  induction l as [|y l IH]; simpl; [done|].
  destruct (Z.leb_spec (key x) (key y)) as [Hle|Hgt]; [done|].
  rewrite (filter_cons _ y), IH, !(filter_cons _ x), !(filter_cons _ y).
  repeat case_decide; try done; lia.
Qed.

Lemma sorted_filter r l :
  filter (fun a => key a = r) (sorted key l) = filter (fun a => key a = r) l.
Proof.
  induction l as [|x l IH]; simpl; [done|].
  rewrite insert_by_filter, !filter_cons, IH. done.
Qed.
End Sorting.

Lemma filter_flat_map {A B} (P : B -> Prop) `{forall x, Decision (P x)}
    (f : A -> list B) (l : list A) :
  filter P (flat_map f l) = flat_map (fun x => filter P (f x)) l.
Proof.
  induction l as [|x l IH]; simpl; [done|]. by rewrite filter_app, IH.
Qed.

Lemma omap_flat_map {A B C} (g : B -> option C) (f : A -> list B) (l : list A) :
  omap g (flat_map f l) = flat_map (fun x => omap g (f x)) l.
Proof.
  induction l as [|x l IH]; simpl; [done|]. by rewrite omap_app, IH.
Qed.

(** ** The sequences of a snapshot *)

Section SnapshotFacts.
Context `{Builtins} (e : edition) (config : ConfigParser).

Lemma discovered_temps sensors_json :
  temps (discovered e config sensors_json)
  = flat_map (chip_records e config (temp_of e config)) sensors_json.
Proof. unfold discovered, visible_groups; simpl. apply omap_flat_map. Qed.

Lemma discovered_hdd_temps sensors_json :
  hdd_temps (discovered e config sensors_json)
  = flat_map (chip_records e config (hdd_temp_of e config)) sensors_json.
Proof. unfold discovered, visible_groups; simpl. apply omap_flat_map. Qed.

Lemma discovered_volts sensors_json :
  volts (discovered e config sensors_json)
  = flat_map (chip_records e config (volt_of e config)) sensors_json.
Proof. unfold discovered, visible_groups; simpl. apply omap_flat_map. Qed.

Lemma discovered_fans sensors_json :
  fans (discovered e config sensors_json)
  = flat_map (chip_records e config (fan_of e config)) sensors_json.
Proof. unfold discovered, visible_groups; simpl. apply omap_flat_map. Qed.

Lemma sorted_stably_ranked {A} (base : A -> Sensoer) (record_of : group -> option A)
    sensors_json :
  stably_ranked e config base record_of sensors_json
    (sorted (fun item => chip_order (base item))
       (flat_map (chip_records e config record_of) sensors_json)).
Proof.
  split.
  - apply (sorted_StronglySorted (by_rank base)).
  - intros r. unfold of_rank.
    rewrite (sorted_filter (by_rank base)). apply filter_flat_map.
Qed.
End SnapshotFacts.

(** C5: each of the four sequences of a snapshot is in ascending rank
    order, and the sort is stable: the records of any one rank are the
    records of that rank taken chip by chip in the order in which the chips
    occur in the raw tree.  The snapshot is a function of the raw tree and
    the configuration, so a second run on the same input gives the same
    sequences. *)
Theorem snapshot_stably_ranked `{Builtins} (e : edition) (config : ConfigParser)
    (sensors_json : dict json) (output : SensorsData) :
  parse_sensors_json e config sensors_json = Ok output ->
  stably_ranked e config Temp.base (temp_of e config) sensors_json (temps output)
  /\ stably_ranked e config HddTemp.base (hdd_temp_of e config) sensors_json
       (hdd_temps output)
  /\ stably_ranked e config Voltage.base (volt_of e config) sensors_json
       (volts output)
  /\ stably_ranked e config FanSpeed.base (fan_of e config) sensors_json
       (fans output).
Proof.
  intros Hp. apply parse_sensors_json_inv in Hp as [_ ->].
  unfold sort_output; cbn [temps hdd_temps volts fans].
  rewrite discovered_temps, discovered_hdd_temps, discovered_volts, discovered_fans.
  repeat split; apply sorted_stably_ranked.
Qed.

(** ** Prefixes and routes *)

Lemma temp_route_feeds e chip name value :
  is_Some (temp_route e chip name value) <-> feeds_temp e chip name = true.
Proof.
  unfold temp_route, feeds_temp, temp_setter, temp_suffix.
  repeat (case_match; simpl); split; try done; by inversion 1.
Qed.

Lemma hdd_temp_route_feeds e chip name value :
  is_Some (hdd_temp_route e chip name value) <-> feeds_hdd_temp e chip name = true.
Proof.
  unfold hdd_temp_route, feeds_hdd_temp, hdd_temp_setter, drive_suffix, temp_suffix.
  repeat (case_match; simpl); split; try done; by inversion 1.
Qed.

Lemma fan_route_feeds name value :
  is_Some (fan_route name value) <-> feeds_fan name = true.
Proof.
  unfold fan_route, feeds_fan, fan_setter, fan_suffix.
  destruct (startswith name "fan") eqn:Hfan; simpl.
  - rewrite (startswith_fan_not_temp _ Hfan); simpl.
    repeat (case_match; simpl); split; try done; by inversion 1.
  - rewrite andb_false_r. split; [by inversion 1 | done].
Qed.

Lemma volt_route_feeds name value :
  is_Some (volt_route name value) <-> feeds_volt name = true.
Proof.
  unfold volt_route, feeds_volt, volt_setter, volt_suffix.
  destruct (startswith name "in") eqn:Hin; simpl.
  - rewrite (startswith_in_not_temp _ Hin), (startswith_in_not_fan _ Hin); simpl.
    repeat (case_match; simpl); split; try done; by inversion 1.
  - rewrite andb_false_r. split; [by inversion 1 | done].
Qed.

Lemma temp_route_base e chip name value set r :
  temp_route e chip name value = Some set -> Temp.base (set r) = Temp.base r.
Proof.
  unfold temp_route, temp_setter. intros Hs.
  repeat case_match; by simplify_eq.
Qed.

Lemma hdd_temp_route_base e chip name value set r :
  hdd_temp_route e chip name value = Some set -> HddTemp.base (set r) = HddTemp.base r.
Proof.
  unfold hdd_temp_route, hdd_temp_setter. intros Hs.
  repeat case_match; by simplify_eq.
Qed.

Lemma fan_route_base name value set r :
  fan_route name value = Some set -> FanSpeed.base (set r) = FanSpeed.base r.
Proof.
  unfold fan_route, fan_setter. intros Hs.
  repeat case_match; by simplify_eq.
Qed.

Lemma volt_route_base name value set r :
  volt_route name value = Some set -> Voltage.base (set r) = Voltage.base r.
Proof.
  unfold volt_route, volt_setter. intros Hs.
  repeat case_match; by simplify_eq.
Qed.

(** ** Merging the fields of a group *)

Section Merge.
Context {A : Type} (fresh : A) (route : string -> json -> option (A -> A)).

Lemma merge_fold_is_Some (feeds : string -> bool) acc fields :
  (forall name value, is_Some (route name value) <-> feeds name = true) ->
  is_Some (foldl (merge_step fresh route) acc fields)
  <-> is_Some acc \/ existsb (fun item : string * json => feeds item.1) fields = true.
Proof.
  intros Hfeeds. revert acc.
  induction fields as [|[name value] fields IH]; intros acc; simpl.
  - split; [by left | by intros [|]].
  - rewrite IH. unfold merge_step; simpl.
    specialize (Hfeeds name value).
    destruct (route name value) as [set|]; destruct (feeds name); simpl.
    + split; intros _; [by right | by left].
    + destruct Hfeeds as [Hf _]. by specialize (Hf (mk_is_Some _ _ eq_refl)).
    + destruct Hfeeds as [_ Hf]. by destruct (Hf eq_refl).
    + done.
Qed.

Lemma merge_is_Some (feeds : string -> bool) fields :
  (forall name value, is_Some (route name value) <-> feeds name = true) ->
  is_Some (merge fresh route fields)
  <-> existsb (fun item : string * json => feeds item.1) fields = true.
Proof.
  intros Hfeeds. unfold merge. rewrite (merge_fold_is_Some feeds); [|done].
  split; [intros [[? [=]]|]; done | by right].
Qed.

Lemma merge_fold_base (base : A -> Sensoer) acc fields r :
  (forall name value set a, route name value = Some set -> base (set a) = base a) ->
  (forall a, acc = Some a -> base a = base fresh) ->
  foldl (merge_step fresh route) acc fields = Some r ->
  base r = base fresh.
Proof.
  intros Hset. revert acc.
  induction fields as [|[name value] fields IH]; intros acc Hacc; simpl.
  - by apply Hacc.
  - apply IH. unfold merge_step; simpl.
    destruct (route name value) as [set|] eqn:Hr; [|done].
    intros a [= <-]. rewrite (Hset _ _ _ _ Hr).
    destruct acc as [a0|]; simpl; [by apply Hacc | done].
Qed.

Lemma merge_base (base : A -> Sensoer) fields r :
  (forall name value set a, route name value = Some set -> base (set a) = base a) ->
  merge fresh route fields = Some r ->
  base r = base fresh.
Proof. intros Hset. by apply merge_fold_base. Qed.
End Merge.

(** ** The scanned groups and their identities *)

Lemma keys_unique_cons {A} (item : string * A) (d : dict A) :
  keys_unique (item :: d) = true ->
  (item.1 ∉ d.*1) /\ keys_unique d = true.
Proof.
  unfold keys_unique. rewrite !bool_decide_eq_true. simpl.
  by intros [? ?]%NoDup_cons.
Qed.

Lemma length_omap_filter {A B} (f : A -> option B) (p : A -> bool) (l : list A) :
  (forall x, is_Some (f x) <-> p x = true) ->
  length (omap f l) = length (List.filter p l).
Proof.
  intros Hfp. induction l as [|x l IH]; [done|].
  change (omap f (x :: l))
    with (match f x with Some y => y :: omap f l | None => omap f l end).
  cbn [List.filter].
  specialize (Hfp x). destruct (f x) as [y|]; destruct (p x); cbn [length].
  - by rewrite IH.
  - destruct Hfp as [Hf _]. by specialize (Hf (mk_is_Some _ _ eq_refl)).
  - destruct Hfp as [_ Hf]. by destruct (Hf eq_refl).
  - done.
Qed.

Lemma omap_identity_sublist {A} (base : A -> Sensoer) (record_of : group -> option A)
    (gs : list group) :
  (forall g r, record_of g = Some r -> identity (base r) = group_identity g) ->
  (fun r => identity (base r)) <$> omap record_of gs
    `sublist_of` group_identity <$> gs.
Proof.
  intros Hid. induction gs as [|g gs IH]; simpl; [done|].
  destruct (record_of g) as [r|] eqn:Hr; simpl.
  - rewrite (Hid _ _ Hr). by apply sublist_skip.
  - by apply sublist_cons.
Qed.

Section GroupFacts.
Context `{Builtins} (e : edition) (config : ConfigParser).

Lemma entries_groups_identity chip adapter entries :
  group_identity <$> flat_map (entry_groups e config chip adapter) entries
    `sublist_of` pair chip <$> entries.*1.
Proof.
  induction entries as [|[sensor v] entries IH]; simpl; [done|].
  unfold entry_groups at 1; simpl.
  destruct v; simpl; try by apply sublist_cons.
  destruct (shown (is_sensoer_visible e config chip sensor)); simpl.
  - by apply sublist_skip.
  - by apply sublist_cons.
Qed.

Lemma groups_of_chip_chip item g :
  g ∈ groups_of_chip e config item -> g_chip g = item.1.
Proof.
  destruct item as [chip data]. unfold groups_of_chip; simpl.
  destruct (shown (is_chip_visible e config chip)); [|by intros ?%elem_of_nil].
  destruct data; try by intros ?%elem_of_nil.
  unfold chip_groups. intros Hg.
  assert (group_identity g ∈ pair chip <$> items.*1) as Hin.
  { eapply elem_of_sublist; [|apply entries_groups_identity].
    by apply list_elem_of_fmap_2. }
  apply list_elem_of_fmap in Hin as (s & Hs & _).
  unfold group_identity in Hs. by simplify_eq.
Qed.

Lemma groups_of_chip_NoDup item :
  match item.2 with JObject entries => keys_unique entries = true | _ => True end ->
  NoDup (group_identity <$> groups_of_chip e config item).
Proof.
  destruct item as [chip data]. unfold groups_of_chip; simpl.
  destruct (shown (is_chip_visible e config chip)); [|intros _; constructor].
  destruct data; try (intros _; constructor).
  unfold keys_unique. rewrite bool_decide_eq_true. intros Hnd.
  eapply sublist_NoDup; [|apply entries_groups_identity].
  apply NoDup_fmap_2; [|done]. by intros s1 s2 [=].
Qed.

Lemma visible_groups_chip sensors_json g :
  g ∈ visible_groups e config sensors_json -> g_chip g ∈ sensors_json.*1.
Proof.
  unfold visible_groups. rewrite list_elem_of_In, in_flat_map.
  intros (item & Hitem & Hg).
  apply list_elem_of_In in Hitem. apply list_elem_of_In in Hg.
  rewrite (groups_of_chip_chip _ _ Hg). by apply list_elem_of_fmap_2.
Qed.

Lemma visible_groups_NoDup sensors_json :
  tree_keys_unique sensors_json = true ->
  NoDup (group_identity <$> visible_groups e config sensors_json).
Proof.
  unfold tree_keys_unique, visible_groups.
  induction sensors_json as [|item tree IH]; simpl; [constructor|].
  intros [Hkeys [Hitem Htree]%andb_prop]%andb_prop.
  apply keys_unique_cons in Hkeys as [Hfresh Hkeys].
  rewrite fmap_app. apply NoDup_app. split; [|split].
  - apply groups_of_chip_NoDup. destruct item as [chip data]; simpl in *.
    by destruct data.
  - intros id Hid1 Hid2.
    apply list_elem_of_fmap in Hid1 as (g1 & -> & Hg1).
    apply list_elem_of_fmap in Hid2 as (g2 & Heq & Hg2).
    apply groups_of_chip_chip in Hg1.
    apply (visible_groups_chip tree) in Hg2.
    unfold group_identity in Heq. simplify_eq. congruence.
  - apply IH. by rewrite Hkeys, Htree.
Qed.

Lemma temp_of_identity g r :
  temp_of e config g = Some r -> identity (Temp.base r) = group_identity g.
Proof.
  intros Hr. unfold temp_of in Hr.
  apply (merge_base _ _ Temp.base) in Hr; [by rewrite Hr|].
  intros name value set a Hs. by apply (temp_route_base _ _ _ _ _ _ Hs).
Qed.

Lemma hdd_temp_of_identity g r :
  hdd_temp_of e config g = Some r -> identity (HddTemp.base r) = group_identity g.
Proof.
  intros Hr. unfold hdd_temp_of in Hr.
  apply (merge_base _ _ HddTemp.base) in Hr; [by rewrite Hr|].
  intros name value set a Hs. by apply (hdd_temp_route_base _ _ _ _ _ _ Hs).
Qed.

Lemma volt_of_identity g r :
  volt_of e config g = Some r -> identity (Voltage.base r) = group_identity g.
Proof.
  intros Hr. unfold volt_of in Hr.
  apply (merge_base _ _ Voltage.base) in Hr; [by rewrite Hr|].
  intros name value set a Hs. by apply (volt_route_base _ _ _ _ Hs).
Qed.

Lemma fan_of_identity g r :
  fan_of e config g = Some r -> identity (FanSpeed.base r) = group_identity g.
Proof.
  intros Hr. unfold fan_of in Hr.
  apply (merge_base _ _ FanSpeed.base) in Hr; [by rewrite Hr|].
  intros name value set a Hs. by apply (fan_route_base _ _ _ _ Hs).
Qed.

Lemma temp_of_contributes g :
  is_Some (temp_of e config g) <-> contributes (feeds_temp e) g = true.
Proof. apply merge_is_Some. apply temp_route_feeds. Qed.

Lemma hdd_temp_of_contributes g :
  is_Some (hdd_temp_of e config g) <-> contributes (feeds_hdd_temp e) g = true.
Proof. apply merge_is_Some. apply hdd_temp_route_feeds. Qed.

Lemma volt_of_contributes g :
  is_Some (volt_of e config g) <-> contributes (fun _ => feeds_volt) g = true.
Proof. apply merge_is_Some. apply volt_route_feeds. Qed.

Lemma fan_of_contributes g :
  is_Some (fan_of e config g) <-> contributes (fun _ => feeds_fan) g = true.
Proof. apply merge_is_Some. apply fan_route_feeds. Qed.

Lemma sorted_one_per_pair {A} (base : A -> Sensoer) (record_of : group -> option A)
    (feeds : string -> string -> bool) (gs : list group) :
  NoDup (group_identity <$> gs) ->
  (forall g r, record_of g = Some r -> identity (base r) = group_identity g) ->
  (forall g, is_Some (record_of g) <-> contributes feeds g = true) ->
  one_per_pair base record_of feeds gs
    (sorted (fun item => chip_order (base item)) (omap record_of gs)).
Proof.
  intros Hnd Hid Hfeeds.
  pose proof (sorted_Permutation (fun item => chip_order (base item))
                (omap record_of gs)) as Hperm.
  split; [|split]; [| |done].
  - rewrite Hperm. eapply sublist_NoDup; [exact Hnd|].
    by apply omap_identity_sublist.
  - rewrite Hperm. by apply length_omap_filter.
Qed.
End GroupFacts.

(** ** Groups without a recognised field *)

Lemma feeds_temp_recognised e chip name :
  feeds_temp e chip name = true -> recognised e chip name = true.
Proof.
  unfold feeds_temp, recognised.
  intros [[-> Hd%negb_true_iff]%andb_prop ->]%andb_prop. by rewrite Hd.
Qed.

Lemma feeds_hdd_temp_recognised e chip name :
  feeds_hdd_temp e chip name = true -> recognised e chip name = true.
Proof.
  unfold feeds_hdd_temp, recognised.
  intros [[-> ->]%andb_prop ->]%andb_prop. done.
Qed.

Lemma feeds_fan_recognised e chip name :
  feeds_fan name = true -> recognised e chip name = true.
Proof.
  unfold feeds_fan, recognised. intros ->. by rewrite orb_true_r.
Qed.

Lemma feeds_volt_recognised e chip name :
  feeds_volt name = true -> recognised e chip name = true.
Proof.
  unfold feeds_volt, recognised. intros ->. by rewrite orb_true_r.
Qed.

Lemma contributes_recognised (feeds : string -> string -> bool) e g :
  (forall name, feeds (g_chip g) name = true -> recognised e (g_chip g) name = true) ->
  forallb (fun item : string * json => negb (recognised e (g_chip g) item.1))
    (g_fields g) = true ->
  contributes feeds g = false.
Proof.
  intros Hfeeds Hnone. unfold contributes.
  apply not_true_is_false. intros (item & Hin & Hf)%existsb_exists.
  rewrite forallb_forall in Hnone. specialize (Hnone _ Hin).
  apply Hfeeds in Hf. by rewrite Hf in Hnone.
Qed.

Lemma keys_unique_functional {A} (d : dict A) k (v1 v2 : A) :
  keys_unique d = true -> (k, v1) ∈ d -> (k, v2) ∈ d -> v1 = v2.
Proof.
  induction d as [|item d IH]; [by intros _ ?%elem_of_nil|].
  intros [Hfresh Hd]%keys_unique_cons [E1|H1]%elem_of_cons [E2|H2]%elem_of_cons.
  - congruence.
  - subst item. destruct Hfresh. by apply (list_elem_of_fmap_2 fst _ (k, v2)).
  - subst item. destruct Hfresh. by apply (list_elem_of_fmap_2 fst _ (k, v1)).
  - by apply IH.
Qed.

Lemma tree_keys_unique_chip sensors_json chip entries :
  tree_keys_unique sensors_json = true ->
  (chip, JObject entries) ∈ sensors_json ->
  keys_unique entries = true.
Proof.
  unfold tree_keys_unique. intros [_ Hall]%andb_prop Hin.
  rewrite forallb_forall in Hall.
  apply list_elem_of_In in Hin. by apply (Hall _ Hin).
Qed.

Section UnrecognisedFacts.
Context `{Builtins} (e : edition) (config : ConfigParser).

Lemma entries_groups_inv chip adapter entries g :
  g ∈ flat_map (entry_groups e config chip adapter) entries ->
  (g_sensor g, JObject (g_fields g)) ∈ entries.
Proof.
  rewrite list_elem_of_In, in_flat_map. intros ([sensor v] & Hitem & Hg).
  apply list_elem_of_In in Hitem. unfold entry_groups in Hg; simpl in Hg.
  destruct v; try done.
  destruct (shown (is_sensoer_visible e config chip sensor)); [|done].
  destruct Hg as [<-|[]]. done.
Qed.

Lemma visible_groups_inv sensors_json g :
  g ∈ visible_groups e config sensors_json ->
  exists entries,
    (g_chip g, JObject entries) ∈ sensors_json
    /\ (g_sensor g, JObject (g_fields g)) ∈ entries.
Proof.
  unfold visible_groups. rewrite list_elem_of_In, in_flat_map.
  intros (item & Hitem & Hg).
  apply list_elem_of_In in Hitem. apply list_elem_of_In in Hg.
  pose proof (groups_of_chip_chip e config _ _ Hg) as Hchip.
  destruct item as [chip data]. unfold groups_of_chip in Hg; simpl in *. subst chip.
  destruct (shown (is_chip_visible e config (g_chip g))); [|by apply elem_of_nil in Hg].
  destruct data; try by apply elem_of_nil in Hg.
  exists items. split; [done|]. by eapply entries_groups_inv.
Qed.

(** The fields that the classifier scans under a pair are the fields
    that the raw tree holds under it. *)
Lemma visible_groups_fields sensors_json g entries fields :
  tree_keys_unique sensors_json = true ->
  g ∈ visible_groups e config sensors_json ->
  (g_chip g, JObject entries) ∈ sensors_json ->
  (g_sensor g, JObject fields) ∈ entries ->
  g_fields g = fields.
Proof.
  intros Hkeys (entries' & Hchip & Hsensor)%visible_groups_inv Hchip' Hsensor'.
  assert (keys_unique sensors_json = true) as Htop.
  { unfold tree_keys_unique in Hkeys. by apply andb_prop in Hkeys as [? _]. }
  pose proof (keys_unique_functional _ _ _ _ Htop Hchip Hchip') as [= ->].
  pose proof (tree_keys_unique_chip _ _ _ Hkeys Hchip') as Hsub.
  by pose proof (keys_unique_functional _ _ _ _ Hsub Hsensor Hsensor') as [= ->].
Qed.

Lemma no_record_of_pair {A} (base : A -> Sensoer) (record_of : group -> option A)
    (feeds : string -> string -> bool) sensors_json chip entries sensor fields :
  (forall g r, record_of g = Some r -> identity (base r) = group_identity g) ->
  (forall g, is_Some (record_of g) <-> contributes feeds g = true) ->
  (forall name, feeds chip name = true -> recognised e chip name = true) ->
  tree_keys_unique sensors_json = true ->
  (chip, JObject entries) ∈ sensors_json ->
  (sensor, JObject fields) ∈ entries ->
  forallb (fun item : string * json => negb (recognised e chip item.1)) fields = true ->
  forall l, l ≡ₚ omap record_of (visible_groups e config sensors_json) ->
  (chip, sensor) ∉ (fun r => identity (base r)) <$> l.
Proof.
  intros Hid Hcontrib Hfeeds Hkeys Hchip Hsensor Hnone l Hl.
  rewrite Hl. intros (r & Hr & Hin)%list_elem_of_fmap.
  apply list_elem_of_omap in Hin as (g & Hg & Hrec).
  pose proof (Hid _ _ Hrec) as Hgid. rewrite <- Hr in Hgid.
  unfold group_identity in Hgid. injection Hgid as Hc Hs.
  assert (g_fields g = fields) as Hfields.
  { eapply visible_groups_fields; eauto; by rewrite <- ?Hc, <- ?Hs. }
  assert (contributes feeds g = false) as Hno.
  { apply (contributes_recognised feeds e).
    - rewrite <- Hc. apply Hfeeds.
    - by rewrite Hfields, <- Hc. }
  destruct (Hcontrib g) as [Hyes _].
  rewrite Hyes in Hno; [done|]. by rewrite Hrec.
Qed.
End UnrecognisedFacts.

(** C10: a field group none of whose raw field names both starts with
    ["temp"], ["fan"] or ["in"] and ends with a suffix known for that prefix
    leaves no record for its (chip id, sensor id) pair in any of the four
    sequences: not even an empty one. *)
Theorem unrecognised_group_leaves_no_record `{Builtins} (e : edition)
    (config : ConfigParser) (sensors_json : dict json) (output : SensorsData)
    (chip sensor : string) (entries fields : dict json) :
  tree_keys_unique sensors_json = true ->
  parse_sensors_json e config sensors_json = Ok output ->
  (chip, JObject entries) ∈ sensors_json ->
  (sensor, JObject fields) ∈ entries ->
  forallb (fun item : string * json => negb (recognised e chip item.1)) fields = true ->
  ((chip, sensor) ∉ (fun r => identity (Temp.base r)) <$> temps output)
  /\ ((chip, sensor) ∉ (fun r => identity (HddTemp.base r)) <$> hdd_temps output)
  /\ ((chip, sensor) ∉ (fun r => identity (Voltage.base r)) <$> volts output)
  /\ ((chip, sensor) ∉ (fun r => identity (FanSpeed.base r)) <$> fans output).
Proof.
  intros Hkeys Hp Hchip Hsensor Hnone.
  apply parse_sensors_json_inv in Hp as [_ ->].
  unfold sort_output, discovered; cbn [temps hdd_temps volts fans
    extend_groups SensorsData_init app].
  split; [|split; [|split]].
  - eapply (no_record_of_pair e config Temp.base (temp_of e config) (feeds_temp e));
      eauto using temp_of_identity, temp_of_contributes, feeds_temp_recognised.
    apply sorted_Permutation.
  - eapply (no_record_of_pair e config HddTemp.base (hdd_temp_of e config)
              (feeds_hdd_temp e));
      eauto using hdd_temp_of_identity, hdd_temp_of_contributes,
        feeds_hdd_temp_recognised.
    apply sorted_Permutation.
  - eapply (no_record_of_pair e config Voltage.base (volt_of e config)
              (fun _ => feeds_volt));
      eauto using volt_of_identity, volt_of_contributes, feeds_volt_recognised.
    apply sorted_Permutation.
  - eapply (no_record_of_pair e config FanSpeed.base (fan_of e config)
              (fun _ => feeds_fan));
      eauto using fan_of_identity, fan_of_contributes, feeds_fan_recognised.
    apply sorted_Permutation.
Qed.

(** ** Entries that are not dicts *)

Lemma omap_fmap_out {A B} (phi : B -> B) (f : A -> option B) (l : list A) :
  phi <$> omap f l = omap (fun x => phi <$> f x) l.
Proof.
  induction l as [|x l IH]; [done|].
  change (omap f (x :: l))
    with (match f x with Some y => y :: omap f l | None => omap f l end).
  change (omap (fun x => phi <$> f x) (x :: l))
    with (match phi <$> f x with
          | Some y => y :: omap (fun x => phi <$> f x) l
          | None => omap (fun x => phi <$> f x) l
          end).
  destruct (f x) as [y|]; cbn [fmap option_fmap option_map]; [|exact IH].
  rewrite fmap_cons. by rewrite IH.
Qed.

Lemma omap_fmap_in {A B C} (f : B -> option C) (g : A -> B) (l : list A) :
  omap f (g <$> l) = omap (fun x => f (g x)) l.
Proof.
  induction l as [|x l IH]; [done|].
  change (omap f (g <$> x :: l))
    with (match f (g x) with Some y => y :: omap f (g <$> l) | None => omap f (g <$> l) end).
  change (omap (fun x => f (g x)) (x :: l))
    with (match f (g x) with
          | Some y => y :: omap (fun x => f (g x)) l
          | None => omap (fun x => f (g x)) l
          end).
  by rewrite IH.
Qed.

Lemma omap_ext_fun {A B} (f g : A -> option B) (l : list A) :
  (forall x, f x = g x) -> omap f l = omap g l.
Proof.
  intros Hfg. induction l as [|x l IH]; [done|].
  change (omap f (x :: l))
    with (match f x with Some y => y :: omap f l | None => omap f l end).
  change (omap g (x :: l))
    with (match g x with Some y => y :: omap g l | None => omap g l end).
  by rewrite Hfg, IH.
Qed.

Lemma insert_by_fmap {A} (key : A -> Z) (phi : A -> A) x l :
  (forall a, key (phi a) = key a) ->
  insert_by key (phi x) (phi <$> l) = phi <$> insert_by key x l.
Proof.
  intros Hkey. induction l as [|y l IH]; [done|].
  rewrite fmap_cons. cbn [insert_by]. rewrite !Hkey.
  destruct (key x <=? key y); [done|]. by rewrite fmap_cons, IH.
Qed.

Lemma sorted_fmap {A} (key : A -> Z) (phi : A -> A) l :
  (forall a, key (phi a) = key a) ->
  sorted key (phi <$> l) = phi <$> sorted key l.
Proof.
  intros Hkey. induction l as [|x l IH]; [done|].
  rewrite fmap_cons. cbn [sorted foldr]. fold (sorted key (phi <$> l)).
  fold (sorted key l). rewrite IH. by apply insert_by_fmap.
Qed.

Lemma merge_fmap {A} (phi : A -> A) (fresh : A)
    (route : string -> json -> option (A -> A)) fields :
  (forall name value set a, route name value = Some set -> phi (set a) = set (phi a)) ->
  phi <$> merge fresh route fields = merge (phi fresh) route fields.
Proof.
  intros Hcomm. unfold merge.
  change (@None A) with (phi <$> @None A) at 2.
  generalize (@None A) as acc.
  induction fields as [|[name value] fields IH]; intros acc; simpl; [done|].
  rewrite IH. f_equal. unfold merge_step; simpl.
  destruct (route name value) as [set|] eqn:Hr; [|done].
  simpl. rewrite (Hcomm _ _ _ _ Hr). by destruct acc.
Qed.

Lemma dict_get_skip {A} (d1 d2 : dict A) k v key :
  k <> key ->
  dict_get (d1 ++ (k, v) :: d2)%list key = dict_get (d1 ++ d2)%list key.
Proof.
  intros Hne. induction d1 as [|[k' v'] d1 IH]; simpl.
  - destruct (String.eqb_spec key k); [congruence | done].
  - by rewrite IH.
Qed.

Section SkipFacts.
Context `{Builtins} (e : edition) (config : ConfigParser).

Lemma temp_of_without_adapter g :
  Temp.map_base without_adapter <$> temp_of e config g
  = temp_of e config (group_without_adapter g).
Proof.
  unfold temp_of. rewrite merge_fmap; [done|].
  intros name value set a. unfold temp_route, temp_setter.
  intros Hs. repeat case_match; by simplify_eq.
Qed.

Lemma hdd_temp_of_without_adapter g :
  HddTemp.map_base without_adapter <$> hdd_temp_of e config g
  = hdd_temp_of e config (group_without_adapter g).
Proof.
  unfold hdd_temp_of. rewrite merge_fmap; [done|].
  intros name value set a. unfold hdd_temp_route, hdd_temp_setter.
  intros Hs. repeat case_match; by simplify_eq.
Qed.

Lemma volt_of_without_adapter g :
  Voltage.map_base without_adapter <$> volt_of e config g
  = volt_of e config (group_without_adapter g).
Proof.
  unfold volt_of. rewrite merge_fmap; [done|].
  intros name value set a. unfold volt_route, volt_setter.
  intros Hs. repeat case_match; by simplify_eq.
Qed.

Lemma fan_of_without_adapter g :
  FanSpeed.map_base without_adapter <$> fan_of e config g
  = fan_of e config (group_without_adapter g).
Proof.
  unfold fan_of. rewrite merge_fmap; [done|].
  intros name value set a. unfold fan_route, fan_setter.
  intros Hs. repeat case_match; by simplify_eq.
Qed.

(** With the adapter left out, the sorted sequences are a function of
    the groups with the adapter left out. *)
Lemma forget_adapter_groups raw gs :
  sequences (forget_adapter (sort_output
               (extend_groups e config (SensorsData_init raw) gs)))
  = sequences (sort_output
      (extend_groups e config (SensorsData_init raw) (group_without_adapter <$> gs))).
Proof.
  unfold sequences, forget_adapter, sort_output, extend_groups; simpl.
  rewrite <- !sorted_fmap by done.
  rewrite !omap_fmap_out, !omap_fmap_in.
  rewrite (omap_ext_fun _ _ gs (volt_of_without_adapter)).
  rewrite (omap_ext_fun _ _ gs (temp_of_without_adapter)).
  rewrite (omap_ext_fun _ _ gs (hdd_temp_of_without_adapter)).
  by rewrite (omap_ext_fun _ _ gs (fan_of_without_adapter)).
Qed.
End SkipFacts.

Section SkipTheorem.
Context `{Builtins} (e : edition) (config : ConfigParser).

Lemma entries_groups_skip chip adapter (d1 d2 : dict json) k v :
  is_dict v = false ->
  flat_map (entry_groups e config chip adapter) (d1 ++ (k, v) :: d2)%list
  = flat_map (entry_groups e config chip adapter) (d1 ++ d2)%list.
Proof.
  intros Hv. rewrite !flat_map_app. simpl.
  unfold entry_groups at 2; simpl. by destruct v.
Qed.

Lemma entries_groups_without_adapter chip adapter entries :
  group_without_adapter <$> flat_map (entry_groups e config chip adapter) entries
  = flat_map (entry_groups e config chip None) entries.
Proof.
  induction entries as [|[sensor v] entries IH]; [done|].
  cbn [flat_map]. rewrite fmap_app, IH. f_equal.
  unfold entry_groups; simpl. destruct v; try done.
  by destruct (shown (is_sensoer_visible e config chip sensor)).
Qed.

Lemma groups_of_chip_skip_modulo chip (d1 d2 : dict json) k v :
  is_dict v = false ->
  group_without_adapter
    <$> groups_of_chip e config (chip, JObject (d1 ++ (k, v) :: d2)%list)
  = group_without_adapter <$> groups_of_chip e config (chip, JObject (d1 ++ d2)%list).
Proof.
  intros Hv. unfold groups_of_chip, chip_groups; simpl.
  destruct (shown (is_chip_visible e config chip)); [|done].
  rewrite !entries_groups_without_adapter. by apply entries_groups_skip.
Qed.

Lemma groups_of_chip_skip chip (d1 d2 : dict json) k v :
  is_dict v = false -> k <> ADAPTER_PROP ->
  groups_of_chip e config (chip, JObject (d1 ++ (k, v) :: d2)%list)
  = groups_of_chip e config (chip, JObject (d1 ++ d2)%list).
Proof.
  intros Hv Hk. unfold groups_of_chip, chip_groups; simpl.
  destruct (shown (is_chip_visible e config chip)); [|done].
  rewrite (dict_get_skip d1 d2 k v ADAPTER_PROP Hk).
  by apply entries_groups_skip.
Qed.

(** An entry that raises nothing can be left out of its chip: what the
    classifier raises, if anything, stays. *)
Lemma first_failure_entries (t1 t2 : dict json) chip (d1 d2 : dict json) item :
  entry_failure e config chip item = None ->
  first_failure e config (t1 ++ (chip, JObject (d1 ++ item :: d2)) :: t2)%list
  = first_failure e config (t1 ++ (chip, JObject (d1 ++ d2)) :: t2)%list.
Proof.
  intros Hnone. unfold first_failure. rewrite !omap_app. do 2 f_equal.
  change (omap (chip_failure e config) ((chip, JObject ?d) :: t2))
    with (match chip_failure e config (chip, JObject d) with
          | Some ex => ex :: omap (chip_failure e config) t2
          | None => omap (chip_failure e config) t2
          end).
  assert (chip_failure e config (chip, JObject (d1 ++ item :: d2)%list)
          = chip_failure e config (chip, JObject (d1 ++ d2)%list)) as ->; [|done].
  unfold chip_failure; simpl.
  destruct (is_chip_visible e config chip) as [[|]|ex]; try done.
  rewrite !omap_app.
  change (omap (entry_failure e config chip) (item :: d2))
    with (match entry_failure e config chip item with
          | Some ex => ex :: omap (entry_failure e config chip) d2
          | None => omap (entry_failure e config chip) d2
          end).
  by rewrite Hnone.
Qed.

Lemma visible_groups_app (t1 t2 : dict json) item :
  visible_groups e config (t1 ++ item :: t2)%list
  = (visible_groups e config t1 ++ groups_of_chip e config item
     ++ visible_groups e config t2)%list.
Proof. unfold visible_groups. by rewrite flat_map_app. Qed.
End SkipTheorem.

(** C9: an entry of a chip that is not itself a dict, such as the
    ["Adapter"] string, is skipped: the classifier raises on the tree if and
    only if it raises without the entry, with the same exception, and
    otherwise the four sequences are those of the tree without the entry,
    up to the adapter that the records carry; when the entry is not the
    ["Adapter"] one, they are the same sequences. *)
Theorem non_dict_entry_skipped `{Builtins} (e : edition) (config : ConfigParser)
    (t1 t2 : dict json) (chip : string) (d1 d2 : dict json) (k : string) (v : json) :
  is_dict v = false ->
  let with_entry := (t1 ++ (chip, JObject (d1 ++ (k, v) :: d2)) :: t2)%list in
  let without := (t1 ++ (chip, JObject (d1 ++ d2)) :: t2)%list in
  (fun output => sequences (forget_adapter output))
    <$> parse_sensors_json e config with_entry
  = (fun output => sequences (forget_adapter output))
    <$> parse_sensors_json e config without
  /\ (k <> ADAPTER_PROP ->
      sequences <$> parse_sensors_json e config with_entry
      = sequences <$> parse_sensors_json e config without).
Proof.
  intros Hv with_entry without. unfold with_entry, without.
  rewrite !parse_sensors_json_discovered.
  rewrite (first_failure_entries e config t1 t2 chip d1 d2 (k, v))
    by (unfold entry_failure; by destruct v).
  destruct (first_failure e config _) as [ex|]; [done|].
  unfold discovered. split.
  - cbn [fmap result_fmap]. f_equal. rewrite !forget_adapter_groups.
    rewrite !visible_groups_app, !fmap_app.
    by rewrite (groups_of_chip_skip_modulo e config chip d1 d2 k v Hv).
  - intros Hk. cbn [fmap result_fmap]. f_equal.
    rewrite !visible_groups_app.
    by rewrite (groups_of_chip_skip e config chip d1 d2 k v Hv Hk).
Qed.

(** ** Chip ordering policy *)







(** ** Routing of temperature fields *)

Lemma is_drive_chip_drive_like e chip : is_drive_chip e chip = drive_like e chip.
Proof. destruct e; unfold is_drive_chip, drive_like; simpl; by rewrite orb_false_r. Qed.

Lemma merge_None {A} (fresh : A) (route : string -> json -> option (A -> A)) fields :
  (forall name value, route name value = None) -> merge fresh route fields = None.
Proof.
  intros Hnone. unfold merge.
  induction fields as [|[name value] fields IH]; simpl; [done|].
  unfold merge_step at 2; simpl. by rewrite Hnone.
Qed.

Section RoutingFacts.
Context `{Builtins} (e : edition) (config : ConfigParser).

Lemma classify_temp_field chip sensor adapter st name value :
  startswith name "temp" = true ->
  classify_field e config chip sensor adapter st (name, value)
  = if drive_like e chip
    then match hdd_temp_setter name value with
         | Some set =>
             b ← Sensoer_init e config chip sensor adapter;
             Ok (put_hdd_temp st sensor b set)
         | None => Ok st
         end
    else match temp_setter name value with
         | Some set =>
             b ← Sensoer_init e config chip sensor adapter;
             Ok (put_temp st sensor b set)
         | None => Ok st
         end.
Proof.
  intros Htemp. rewrite <- is_drive_chip_drive_like.
  unfold classify_field, hdd_temp_setter, temp_setter.
  rewrite Htemp.
  destruct (is_drive_chip e chip); repeat (case_match; simpl; try done).
Qed.

Lemma temp_of_drive g r :
  temp_of e config g = Some r ->
  drive_like e (chip_id (Temp.base r)) = false.
Proof.
  intros Hr. pose proof (temp_of_identity _ _ _ _ Hr) as Hid.
  unfold identity, group_identity in Hid. injection Hid as -> _.
  rewrite <- is_drive_chip_drive_like.
  destruct (is_drive_chip e (g_chip g)) eqn:Hd; [|done].
  unfold temp_of in Hr. rewrite merge_None in Hr; [done|].
  intros name value. unfold temp_route. rewrite Hd. by rewrite andb_false_r.
Qed.

Lemma hdd_temp_of_drive g r :
  hdd_temp_of e config g = Some r ->
  drive_like e (chip_id (HddTemp.base r)) = true.
Proof.
  intros Hr. pose proof (hdd_temp_of_identity _ _ _ _ Hr) as Hid.
  unfold identity, group_identity in Hid. injection Hid as -> _.
  rewrite <- is_drive_chip_drive_like.
  destruct (is_drive_chip e (g_chip g)) eqn:Hd; [done|].
  unfold hdd_temp_of in Hr. rewrite merge_None in Hr; [done|].
  intros name value. unfold hdd_temp_route. rewrite Hd. by rewrite andb_false_r.
Qed.

Lemma snapshot_routing sensors_json output :
  parse_sensors_json e config sensors_json = Ok output ->
  Forall (fun r => drive_like e (chip_id (Temp.base r)) = false) (temps output)
  /\ Forall (fun r => drive_like e (chip_id (HddTemp.base r)) = true)
       (hdd_temps output).
Proof.
  intros [_ ->]%parse_sensors_json_inv.
  unfold sort_output, discovered; cbn [temps hdd_temps extend_groups
    SensorsData_init app].
  split; rewrite sorted_Permutation; apply Forall_forall; intros r Hr;
    apply list_elem_of_omap in Hr as (g & _ & Hg).
  - by eapply temp_of_drive.
  - by eapply hdd_temp_of_drive.
Qed.
End RoutingFacts.

(** C2, amended: a raw field whose name starts with ["temp"] goes to the
    drive temperatures when the chip id starts with ["drivetemp"], or, in
    pylmsensonrs/sm.py only, with ["nvme"]; otherwise it goes to the generic
    temperatures (src/sensors-monitor.py sends the fields of an NVMe chip
    there).  So every record of the temperature sequence belongs to a chip
    that is not drive-like and every record of the drive-temperature
    sequence to one that is; and the chip ["drivetemp-scsi-0-0"] with the
    field ["temp1_input"] yields one drive-temperature record and no
    generic one.  The record of a routed field is built by the constructor,
    which raises when the parser cannot return a label; when it returns, the
    identity part of the record is that of the chip and the sensor. *)
Theorem temp_field_routing `{Builtins} (e : edition) :
  drive_prefixes e
  = match e with Package => ["drivetemp"; "nvme"] | Script => ["drivetemp"] end
  /\ (forall config chip sensor adapter st name value,
      startswith name "temp" = true ->
      classify_field e config chip sensor adapter st (name, value)
      = if drive_like e chip
        then match hdd_temp_setter name value with
             | Some set =>
                 b ← Sensoer_init e config chip sensor adapter;
                 Ok (put_hdd_temp st sensor b set)
             | None => Ok st
             end
        else match temp_setter name value with
             | Some set =>
                 b ← Sensoer_init e config chip sensor adapter;
                 Ok (put_temp st sensor b set)
             | None => Ok st
             end)
  /\ (forall config chip sensor adapter st name value b,
      startswith name "temp" = true ->
      Sensoer_init e config chip sensor adapter = Ok b ->
      classify_field e config chip sensor adapter st (name, value)
      = Ok (let b := base_of e config chip sensor adapter in
            if drive_like e chip
            then match hdd_temp_setter name value with
                 | Some set => put_hdd_temp st sensor b set
                 | None => st
                 end
            else match temp_setter name value with
                 | Some set => put_temp st sensor b set
                 | None => st
                 end))
  /\ (forall config sensors_json output,
      parse_sensors_json e config sensors_json = Ok output ->
      Forall (fun r => drive_like e (chip_id (Temp.base r)) = false) (temps output)
      /\ Forall (fun r => drive_like e (chip_id (HddTemp.base r)) = true)
           (hdd_temps output))
  /\ sequences <$> parse_sensors_json e ∅ drivetemp_tree
     = Ok ([], [], [drivetemp_record e], []).
Proof.
  split; [by destruct e|].
  split; [intros; by apply classify_temp_field|].
  split.
  { intros config chip sensor adapter st name value b Hname Hinit.
    rewrite (classify_temp_field e config _ _ _ _ _ _ Hname).
    rewrite Sensoer_init_base in Hinit |- *.
    destruct (init_failure e config chip sensor); [done|].
    destruct (drive_like e chip);
      [by destruct (hdd_temp_setter name value)
      |by destruct (temp_setter name value)]. }
  split; [intros; by eapply snapshot_routing|].
  by destruct e.
Qed.

(** C2 as stated fails on src/sensors-monitor.py: the chip id
    ["nvme-pci-0100"] starts with ["nvme"], and its field ["temp1_input"]
    yields a generic temperature record and no drive-temperature record. *)
Lemma script_routes_nvme_to_generic :
  startswith "nvme-pci-0100" "nvme" = true
  /\ sequences <$> parse_sensors_json (H:=plain_builtins) Script ∅ nvme_tree
     = Ok ([], [Temp.set_value (JFloat 38) (Temp.init (nvme_base Script))], [], []).
Proof. by vm_compute. Qed.

(** ** Comparisons of binary64 floats *)

(** Below a positive finite float, hence not at or above it, nor at or
    above a larger one of the same exponent. *)
Lemma spec_below (x : spec_float) (m1 m2 : positive) (e0 : Z) :
  (m1 < m2)%positive ->
  SFltb x (S754_finite false m1 e0) = true ->
  SFleb (S754_finite false m1 e0) x = false
  /\ SFleb (S754_finite false m2 e0) x = false.
Proof.
  intros Hlt. unfold SFltb, SFleb, SFcompare.
  destruct x as [s|s| |s m e].
  - intros _. split; reflexivity.
  - destruct s; [intros _; split; reflexivity | discriminate].
  - discriminate.
  - destruct s; [intros _; split; reflexivity|].
    rewrite (Z.compare_antisym e e0).
    destruct (e ?= e0) eqn:He; cbn [CompOpp];
      [|intros _; split; reflexivity|discriminate].
    change (Pos.compare_cont Eq) with Pos.compare.
    rewrite (Pos.compare_antisym m m1), (Pos.compare_antisym m m2).
    destruct (Pos.compare_spec m m1) as [Hm|Hm|Hm]; cbn [CompOpp]; try discriminate.
    intros _. split; [reflexivity|].
    destruct (Pos.compare_spec m m2) as [Hm'|Hm'|Hm']; cbn [CompOpp];
      try reflexivity; exfalso; apply (Pos.lt_irrefl m2).
    + subst m. by etrans.
    + etrans; [exact Hm'|]. by etrans.
Qed.

Lemma digits2_pos_bound m : Z.pos m < 2 ^ Z.pos (digits2_pos m).
Proof.
  induction m as [m IH|m IH|]; cbn [digits2_pos].
  - rewrite Pos2Z.inj_succ, Z.pow_succ_r by lia. lia.
  - rewrite Pos2Z.inj_succ, Z.pow_succ_r by lia. lia.
  - reflexivity.
Qed.

(** The mantissa of a binary64 float has at most 53 bits. *)
Lemma valid_mantissa s m e :
  valid_binary (S754_finite s m e) = true -> Z.pos m < 2 ^ 53.
Proof.
  unfold valid_binary, SpecFloat.valid_binary, bounded, canonical_mantissa, fexp, emin.
  intros [Hc%Z.eqb_eq _]%andb_prop.
  pose proof (digits2_pos_bound m) as Hd.
  assert (Z.pos (digits2_pos m) <= 53) as Hle by (unfold prec in Hc; lia).
  eapply Z.lt_le_trans; [exact Hd|]. apply Z.pow_le_mono_r; lia.
Qed.

(** The size of a mantissa scaled by a power of two, with [a] for 2^52
    and [b] for 2^10. *)
Lemma scaled_le (m t a b : Z) :
  0 < m -> 0 < t -> 0 < a -> 0 < b ->
  (m < 2 * a /\ t <= b) \/ (m <= a /\ t = 2 * b) ->
  m * t <= 2 * a * b.
Proof.
  intros Hm Ht Ha Hb [[H1 H2]|[H1 ->]].
  - transitivity (2 * a * t); [apply Z.mul_le_mono_nonneg_r; lia|].
    apply Z.mul_le_mono_nonneg_l; lia.
  - replace (2 * a * b) with (a * (2 * b)) by ring.
    apply Z.mul_le_mono_nonneg_r; lia.
Qed.

Lemma scaled_lt (m t a b : Z) :
  0 < m -> 0 < t -> 0 < a -> 0 < b ->
  (m < 2 * a /\ t <= b) \/ (m < a /\ t = 2 * b) ->
  m * t < 2 * a * b.
Proof.
  intros Hm Ht Ha Hb [[H1 H2]|[H1 ->]].
  - apply Z.lt_le_trans with (2 * a * t); [apply Z.mul_lt_mono_pos_r; lia|].
    apply Z.mul_le_mono_nonneg_l; lia.
  - replace (2 * a * b) with (a * (2 * b)) by ring.
    apply Z.mul_lt_mono_pos_r; lia.
Qed.

Lemma pow2_cases e :
  0 <= e -> e < 11 \/ e = 11 ->
  0 < 2 ^ e /\ (e < 11 /\ 2 ^ e <= 2 ^ 10 \/ e = 11 /\ 2 ^ e = 2 * 2 ^ 10).
Proof.
  intros He Hc. split; [apply Z.pow_pos_nonneg; lia|].
  destruct Hc as [Hc| ->]; [left | right; split; [done|]].
  - split; [done|]. apply Z.pow_le_mono_r; lia.
  - by rewrite <- Z.pow_succ_r by lia.
Qed.

(** A binary64 float from [-2^63] up to, and not including, [2^63] is,
    as a number, neither below [-2^63] nor above [2^63 - 1]; [mb] is the
    mantissa of the float [2^63]. *)
Lemma within_int64 (x : spec_float) (mb : positive) :
  Z.pos mb = 2 ^ 52 ->
  valid_binary x = true ->
  SFleb (S754_finite true mb 11) x = true ->
  SFltb x (S754_finite false mb 11) = true ->
  spec_compare_int x (- 2 ^ 63) <> Some Lt
  /\ spec_compare_int x (2 ^ 63 - 1) <> Some Gt.
Proof.
  intros Hmb Hvalid Hlow Hhigh.
  assert (2 ^ 63 = 2 * 2 ^ 52 * 2 ^ 10) as E1.
  { rewrite <- Z.pow_succ_r, <- Z.pow_add_r by lia. reflexivity. }
  assert (2 ^ 53 = 2 * 2 ^ 52) as E3 by (rewrite <- Z.pow_succ_r by lia; reflexivity).
  assert (0 < 2 ^ 52) as Hp52 by (apply Z.pow_pos_nonneg; lia).
  assert (0 < 2 ^ 10) as Hp10 by (apply Z.pow_pos_nonneg; lia).
  rewrite E1. clear E1.
  destruct x as [s|s| |s m e].
  - cbn [spec_compare_int]. split;
      match goal with |- Some (?a ?= ?b) <> _ =>
        destruct (Z.compare_spec a b); try discriminate end; exfalso; nia.
  - exfalso. destruct s; [by vm_compute in Hlow | by vm_compute in Hhigh].
  - exfalso. by vm_compute in Hlow.
  - pose proof (valid_mantissa _ _ _ Hvalid) as Hm. rewrite E3 in Hm. clear E3 Hvalid.
    assert (e < 0 -> 1 <= 2 ^ (- e)) as Hneg.
    { intros He. pose proof (Z.pow_pos_nonneg 2 (- e)). lia. }
    assert (e < 11 /\ (s = true \/ s = false)
            \/ e = 11 /\ (s = true /\ Z.pos m <= 2 ^ 52 \/ s = false /\ Z.pos m < 2 ^ 52))
      as Hcase.
    { unfold SFleb, SFltb, SFcompare in Hlow, Hhigh.
      change (Pos.compare_cont Eq) with Pos.compare in Hlow, Hhigh.
      destruct s.
      - clear Hhigh. destruct (Z.compare_spec 11 e) as [He|He|He]; try discriminate.
        + right. split; [done|]. left. split; [done|].
          destruct (Pos.compare_spec mb m) as [Hc|Hc|Hc]; try discriminate; lia.
        + left. split; [lia | by left].
      - clear Hlow. destruct (Z.compare_spec e 11) as [He|He|He]; try discriminate.
        + right. split; [done|]. right. split; [done|].
          destruct (Pos.compare_spec m mb) as [Hc|Hc|Hc]; try discriminate; lia.
        + left. split; [lia | by right]. }
    clear Hlow Hhigh Hmb.
    unfold spec_compare_int.
    assert (Z.neg m = - Z.pos m) as Eneg by reflexivity.
    destruct (Z.leb_spec 0 e) as [He|He].
    + destruct (pow2_cases e He ltac:(lia)) as [Ht Hpow].
      generalize dependent (2 ^ e). intros t Ht Hpow.
      generalize dependent (2 ^ 52). intros a Ha Hm Hcase.
      generalize dependent (2 ^ 10). intros b Hb Hpow.
      assert (Z.pos m * t <= 2 * a * b) as Hle.
      { apply scaled_le; lia. }
      assert (s = false -> Z.pos m * t < 2 * a * b) as Hlt.
      { intros ->. apply scaled_lt; try lia.
        all: destruct Hpow as [[? ?]|[? ?]], Hcase as [[? ?]|[? [[? ?]|[? ?]]]];
          try discriminate; lia. }
      assert (0 < Z.pos m * t) as Hprod by (apply Z.mul_pos_pos; lia).
      destruct s; [rewrite Eneg, Z.mul_opp_l | specialize (Hlt eq_refl)];
        generalize dependent (Z.pos m * t); intros p Hle; intros;
        split;
        match goal with |- Some (?x ?= ?y) <> _ =>
          destruct (Z.compare_spec x y); try discriminate end; exfalso; lia.
    + specialize (Hneg He). generalize dependent (2 ^ (- e)). intros t Ht.
      generalize dependent (2 ^ 52). intros a Ha Hm Hcase.
      generalize dependent (2 ^ 10). intros b Hb.
      assert (1 <= b * t) as Hbt by nia.
      assert (2 * a <= 2 * a * b * t) as Hbig by nia.
      assert (2 * a <= (2 * a * b - 1) * t + 1) as Hbig' by nia.
      clear Hbt.
      rewrite Z.mul_opp_l.
      generalize dependent (2 * a * b * t). intros q Hq.
      generalize dependent ((2 * a * b - 1) * t). intros r Hr.
      destruct s; rewrite ?Eneg; split;
        match goal with |- Some (?x ?= ?y) <> _ =>
          destruct (Z.compare_spec x y); try discriminate end; exfalso; lia.
Qed.

(** ** Presentation rules *)

Lemma unbounded_temp_normal temp :
  (temp <? float_of_int sys_maxsize * 0.6)%float = true ->
  tier_of (get_colored_temp (Some temp) None) = Some normal.
Proof.
  intros Hlt. rewrite FloatAxioms.ltb_spec in Hlt.
  assert (Prim2SF (float_of_int sys_maxsize * 0.6)
          = S754_finite false 5404319552844595 10) as E6 by (vm_compute; reflexivity).
  assert (Prim2SF (float_of_int sys_maxsize * 0.8)
          = S754_finite false 7205759403792794 10) as E8 by (vm_compute; reflexivity).
  rewrite E6 in Hlt.
  destruct (spec_below _ 5404319552844595 7205759403792794 _ eq_refl Hlt) as [H6 H8].
  rewrite <- E6, <- FloatAxioms.leb_spec in H6.
  rewrite <- E8, <- FloatAxioms.leb_spec in H8.
  unfold get_colored_temp, number_mul. by rewrite H8, H6.
Qed.

Lemma unbounded_voltage_normal voltage :
  (float_of_int (- sys_maxsize - 1) <=? voltage)%float = true ->
  (voltage <? float_of_int sys_maxsize)%float = true ->
  tier_of (get_colored_voltage (Some voltage) None None) = Some normal.
Proof.
  rewrite FloatAxioms.leb_spec, FloatAxioms.ltb_spec.
  assert (Prim2SF (float_of_int (- sys_maxsize - 1))
          = S754_finite true 4503599627370496 11) as -> by (vm_compute; reflexivity).
  assert (Prim2SF (float_of_int sys_maxsize)
          = S754_finite false 4503599627370496 11) as -> by (vm_compute; reflexivity).
  intros Hlow Hhigh.
  destruct (within_int64 _ _ eq_refl (Prim2SF_valid voltage) Hlow Hhigh) as [Hlo Hhi].
  unfold get_colored_voltage, float_lt, float_gt, float_compare_int.
  replace (- sys_maxsize - 1) with (- 2 ^ 63) by (unfold sys_maxsize; ring).
  change sys_maxsize with (2 ^ 63 - 1).
  destruct (spec_compare_int (Prim2SF voltage) (- 2 ^ 63)) as [[| |]|];
    destruct (spec_compare_int (Prim2SF voltage) (2 ^ 63 - 1)) as [[| |]|];
    done.
Qed.

(** C1, amended: an absent value gives a blank cell.  With a [high]
    threshold, the tier is critical when [value >= high * 0.8], else warning
    when [value >= high * 0.6], else normal.  Without one, [sys.maxsize]
    (as a float, [2^63]) stands for it: the value is in the normal tier as
    long as it is below [sys.maxsize * 0.6], and it does reach the warning
    and critical tiers beyond. *)
Theorem temp_tiers :
  (forall high, get_colored_temp None high = {| plain := Blank; style := "" |})
  /\ (forall temp high,
      plain (get_colored_temp (Some temp) high) = Celsius temp)
  /\ (forall temp high,
      tier_of (get_colored_temp (Some temp) (Some high))
      = Some (if (high * 0.8 <=? temp)%float then critical
              else if (high * 0.6 <=? temp)%float then warning
              else normal))
  /\ (forall temp,
      get_colored_temp (Some temp) None
      = get_colored_temp (Some temp) (Some (float_of_int sys_maxsize)))
  /\ (forall temp,
      (temp <? float_of_int sys_maxsize * 0.6)%float = true ->
      tier_of (get_colored_temp (Some temp) None) = Some normal).
Proof.
  split; [done|].
  split; [intros temp high; unfold get_colored_temp; by repeat case_match|].
  split; [intros temp high; unfold get_colored_temp, number_mul;
          by repeat case_match|].
  split; [done|]. exact unbounded_temp_normal.
Qed.

(** C1 as stated fails: with no [high] threshold the readings [6e18] and
    [1e19] reach the warning and the critical tier. *)
Lemma unbounded_temp_reaches_critical :
  tier_of (get_colored_temp (Some 6e18%float) None) = Some warning
  /\ tier_of (get_colored_temp (Some 1e19%float) None) = Some critical.
Proof. by vm_compute. Qed.

(** C8, amended: an absent value gives a blank cell.  A value below
    [min] is in the warning tier, else a value above [max] is in the critical
    tier, else the value is in the normal tier.  For a missing [min] stands
    [-sys.maxsize - 1] and for a missing [max] stands [sys.maxsize], both
    compared as integers: a value with no bounds is in the normal tier when it
    lies from [-2^63] up to, and not including, [2^63], and not regardless of
    its magnitude. *)
Theorem voltage_tiers :
  (forall min_voltage max_voltage,
      get_colored_voltage None min_voltage max_voltage
      = {| plain := Blank; style := "" |})
  /\ (forall voltage min_voltage max_voltage,
      plain (get_colored_voltage (Some voltage) min_voltage max_voltage)
      = Volts voltage)
  /\ (forall voltage min_voltage max_voltage,
      tier_of (get_colored_voltage (Some voltage) min_voltage max_voltage)
      = Some (if float_lt voltage
                   (from_option PyFloat (PyInt (- sys_maxsize - 1)) min_voltage)
              then warning
              else if float_gt voltage
                        (from_option PyFloat (PyInt sys_maxsize) max_voltage)
              then critical
              else normal))
  /\ (forall voltage min_voltage max_voltage,
      tier_of (get_colored_voltage (Some voltage) (Some min_voltage)
                 (Some max_voltage))
      = Some (if (voltage <? min_voltage)%float then warning
              else if (max_voltage <? voltage)%float then critical
              else normal))
  /\ (forall voltage,
      (float_of_int (- sys_maxsize - 1) <=? voltage)%float = true ->
      (voltage <? float_of_int sys_maxsize)%float = true ->
      tier_of (get_colored_voltage (Some voltage) None None) = Some normal).
Proof.
  split; [done|].
  split; [intros voltage lo hi; unfold get_colored_voltage; by repeat case_match|].
  split; [intros voltage [lo|] [hi|]; unfold get_colored_voltage; simpl;
          by repeat case_match|].
  split; [intros voltage lo hi; unfold get_colored_voltage; simpl;
          by repeat case_match|].
  exact unbounded_voltage_normal.
Qed.

(** C8 as stated fails: with no bounds the reading [1e19] is in the
    critical tier and the reading [-1e19] in the warning tier. *)
Lemma unbounded_voltage_reaches_critical :
  tier_of (get_colored_voltage (Some 1e19%float) None None) = Some critical
  /\ tier_of (get_colored_voltage (Some (-1e19)%float) None None) = Some warning.
Proof. by vm_compute. Qed.

(** ** The configuration resolver *)

Section ResolverFacts.
Context `{Builtins}.

Lemma has_option_stored config section key :
  has_section config section && has_option config section key = true ->
  exists value, stored_value config section key = Some value.
Proof.
  unfold has_section, has_option, stored_value.
  destruct (config !! section) as [options|]; simpl; [|done].
  intros Hk%bool_decide_eq_true. destruct Hk as [v Hv]. eauto.
Qed.

Lemma no_option_stored config section key :
  has_section config section && has_option config section key = false ->
  stored_value config section key = None.
Proof.
  unfold has_section, has_option, stored_value.
  destruct (config !! section) as [options|]; simpl; [|done].
  intros Hk%bool_decide_eq_false. destruct (options !! optionxform key); [|done].
  destruct Hk. eauto.
Qed.

Lemma get_config_value_empty_store section key t
    (default_value : option (ConfigValueType t)) :
  get_config_value ∅ section key t default_value = Ok default_value.
Proof.
  unfold get_config_value, has_section.
  change ((∅ : ConfigParser) !! section) with ((∅ : gmap string (gmap string string)) !! section).
  rewrite lookup_empty.
  rewrite (bool_decide_eq_false_2 (is_Some None)) by (by intros [? ?]).
  by rewrite andb_false_r.
Qed.



End ResolverFacts.



(** ** Hidden sensors *)

Lemma is_sensoer_visible_hidden_list `{Builtins} e config chip sensor :
  nonempty chip = true ->
  is_sensoer_visible e config chip sensor
  = (fun hidden_sensoers => negb (str_in sensor hidden_sensoers))
      <$> hidden_list e config chip.
Proof.
  intros Hchip. unfold is_sensoer_visible, hidden_list, get_config_value.
  rewrite Hchip. cbn [nonempty andb].
  destruct (has_section config chip && has_option config chip "hidden_sensoers");
    destruct e; simpl; try by repeat case_match.
  all: destruct (config_get config chip "hidden_sensoers") as [value|ex]; simpl;
    try done; by destruct (str_in sensor (split "," value)).
Qed.

(** C6: the code does not do what the claim says on the empty sensor
    id.  The empty list value splits into one empty string, so a field group
    whose id is the empty string is hidden: in pylmsensonrs/sm.py even with
    no configuration at all, since the default list is the empty string, and
    in both editions when the option is stored empty.  The group is then
    missing from the snapshot. *)
Theorem empty_hidden_list_hides_empty_id `{Builtins} :
  split "," "" = [""]
  /\ (forall chip, is_sensoer_visible Package ∅ chip "" = Ok false)
  /\ (forall e, is_sensoer_visible e empty_hidden_config "nct6775-isa-0290" ""
                = Ok false)
  /\ (fans <$> parse_sensors_json Package ∅ empty_id_tree) = Ok []
  /\ (length <$> (fans <$> parse_sensors_json Script ∅ empty_id_tree)) = Ok 1%nat.
Proof.
  split; [done|].
  split.
  { intros chip. unfold is_sensoer_visible.
    by rewrite get_config_value_empty_store. }
  split; [by intros [|]|]. split; done.
Qed.

(** ** The scenarios of the specification, run *)

Example sample_snapshot_parsed :
  parse_sensors_json (H:=plain_builtins) Package sample_config sample_tree
  = Ok sample_snapshot.
Proof. by vm_compute. Qed.

(** Hiding ["fan1,fan2"] leaves ["fan3"] as the only fan of the chip. *)
Example hidden_fans :
  hidden_list (H:=plain_builtins) Package sample_config "nct6775-isa-0290"
  = Ok ["fan1"; "fan2"]
  /\ (fun r => identity (FanSpeed.base r)) <$> fans sample_snapshot
     = [("nct6775-isa-0290", "fan3")].
Proof. by vm_compute. Qed.

(** A chip marked not visible is in no sequence. *)
Example hidden_chip :
  visible_groups (H:=plain_builtins) Package sample_config
    [("acpitz-acpi-0",
      JObject [("temp1", JObject [("temp1_input", JFloat 27)])])] = [].
Proof. by vm_compute. Qed.

(** A drive with all five fields yields one record with all five set. *)
Example drive_round_trip :
  (fun r => (Temp.value (HddTemp.temp r), Temp.high (HddTemp.temp r),
             Temp.critical (HddTemp.temp r), HddTemp.lowest r, HddTemp.highest r))
    <$> List.filter
          (fun r => String.eqb (chip_id (HddTemp.base r)) "drivetemp-scsi-0-0")
          (hdd_temps sample_snapshot)
  = [(JFloat 38, JFloat 60, JFloat 70, JFloat 20, JFloat 45)].
Proof. by vm_compute. Qed.

Example temp_scenarios :
  tier_of (get_colored_temp (Some 45%float) (Some 90%float)) = Some normal
  /\ tier_of (get_colored_temp (Some 80%float) (Some 90%float)) = Some critical
  /\ tier_of (get_colored_temp (Some 60%float) (Some 90%float)) = Some warning.
Proof. by vm_compute. Qed.

Example voltage_scenario :
  tier_of (get_colored_voltage (Some 3.3%float) None None) = Some normal.
Proof. by vm_compute. Qed.

(** ** The theorems, applied *)

Lemma temp_tiers_applied :
  (45 <? float_of_int sys_maxsize * 0.6)%float = true
  /\ tier_of (get_colored_temp (Some 45%float) None) = Some normal.
Proof.
  split; [by vm_compute|].
  apply (proj2 (proj2 (proj2 (proj2 temp_tiers)))). by vm_compute.
Defined.

Lemma voltage_tiers_applied :
  ((float_of_int (- sys_maxsize - 1) <=? 3.3)%float = true
   /\ (3.3 <? float_of_int sys_maxsize)%float = true)
  /\ tier_of (get_colored_voltage (Some 3.3%float) None None) = Some normal.
Proof.
  split; [by vm_compute|].
  apply (proj2 (proj2 (proj2 (proj2 voltage_tiers)))); by vm_compute.
Defined.


Lemma temp_field_routing_applied :
  startswith "temp1_input" "temp" = true
  /\ classify_field (H:=plain_builtins) Package ∅ "nvme-pci-0100" "Composite" None
       locals_init ("temp1_input", JFloat 38)
     = Ok (put_hdd_temp locals_init "Composite" (nvme_base Package)
             (HddTemp.set_value (JFloat 38))).
Proof.
  split; [by vm_compute|].
  rewrite (proj1 (proj2 (proj2 (temp_field_routing (H:=plain_builtins) Package)))
             ∅ "nvme-pci-0100" "Composite" None locals_init "temp1_input"
             (JFloat 38) (nvme_base Package));
    by vm_compute.
Defined.

Lemma snapshot_stably_ranked_applied :
  parse_sensors_json (H:=plain_builtins) Package sample_config sample_tree
  = Ok sample_snapshot
  /\ sorted_by_rank HddTemp.base (hdd_temps sample_snapshot).
Proof.
  split; [by vm_compute|].
  destruct (snapshot_stably_ranked (H:=plain_builtins) Package sample_config
              sample_tree sample_snapshot) as (_ & [Hsorted _] & _);
    [by vm_compute | exact Hsorted].
Defined.

Lemma non_dict_entry_skipped_applied :
  is_dict (JString "ISA adapter") = false
  /\ (fun output => sequences (forget_adapter output))
       <$> parse_sensors_json (H:=plain_builtins) Package sample_config sample_tree
     = (fun output => sequences (forget_adapter output))
       <$> parse_sensors_json (H:=plain_builtins) Package sample_config
             (("nct6775-isa-0290", JObject sample_board_entries) :: sample_other_chips).
Proof.
  split; [done|].
  apply (proj1 (non_dict_entry_skipped (H:=plain_builtins) Package sample_config
                  [] sample_other_chips "nct6775-isa-0290" [] sample_board_entries
                  "Adapter" (JString "ISA adapter") eq_refl)).
Defined.

Lemma unrecognised_group_leaves_no_record_applied :
  (tree_keys_unique sample_tree = true
   /\ parse_sensors_json (H:=plain_builtins) Package sample_config sample_tree
      = Ok sample_snapshot
   /\ forallb (fun item : string * json =>
                 negb (recognised Package "nct6775-isa-0290" item.1))
        [("intrusion0_alarm", JFloat 1)] = true)
  /\ (("nct6775-isa-0290", "intrusion0")
      ∉ (fun r => identity (Voltage.base r)) <$> volts sample_snapshot).
Proof.
  split; [by vm_compute|].
  apply (unrecognised_group_leaves_no_record (H:=plain_builtins) Package sample_config
           sample_tree sample_snapshot "nct6775-isa-0290" "intrusion0"
           (("Adapter", JString "ISA adapter") :: sample_board_entries)
           [("intrusion0_alarm", JFloat 1)]).
  - by vm_compute.
  - by vm_compute.
  - apply list_elem_of_here.
  - unfold sample_board_entries.
    repeat first [apply list_elem_of_here | apply list_elem_of_further].
  - by vm_compute.
Defined.

(** * Further properties *)

(** ** What a snapshot holds *)

Lemma shown_true (r : result bool) : shown r = true -> r = Ok true.
Proof. destruct r as [[|]|]; by simpl. Qed.

Section SnapshotRecords.
Context `{Builtins} (e : edition) (config : ConfigParser).

Lemma entries_groups_shown chip adapter entries g :
  g ∈ flat_map (entry_groups e config chip adapter) entries ->
  g_chip g = chip /\ g_adapter g = adapter
  /\ shown (is_sensoer_visible e config chip (g_sensor g)) = true.
Proof.
  rewrite list_elem_of_In, in_flat_map. intros ([sensor v] & _ & Hg).
  unfold entry_groups in Hg; simpl in Hg. destruct v; try done.
  destruct (shown (is_sensoer_visible e config chip sensor)) eqn:Hs; [|done].
  by destruct Hg as [<-|[]].
Qed.

Lemma groups_of_chip_shown item g :
  g ∈ groups_of_chip e config item ->
  g_chip g = item.1
  /\ shown (is_chip_visible e config item.1) = true
  /\ shown (is_sensoer_visible e config item.1 (g_sensor g)) = true
  /\ exists entries,
       item.2 = JObject entries
       /\ g_adapter g = py_str <$> dict_get entries ADAPTER_PROP
       /\ (g_sensor g, JObject (g_fields g)) ∈ entries.
Proof.
  destruct item as [chip data]. unfold groups_of_chip; simpl.
  destruct (shown (is_chip_visible e config chip)); [|by intros ?%elem_of_nil].
  destruct data; try by intros ?%elem_of_nil.
  unfold chip_groups. intros Hg.
  destruct (entries_groups_shown _ _ _ _ Hg) as (Hc & Ha & Hs).
  subst chip. repeat split; try done.
  exists items. repeat split; try done. by eapply entries_groups_inv.
Qed.

Lemma visible_groups_item sensors_json g :
  g ∈ visible_groups e config sensors_json ->
  exists item, item ∈ sensors_json /\ g ∈ groups_of_chip e config item.
Proof.
  unfold visible_groups. rewrite list_elem_of_In, in_flat_map.
  intros (item & Hitem & Hg). exists item.
  by rewrite !list_elem_of_In.
Qed.

Lemma bases_sort_output output : bases (sort_output output) ≡ₚ bases output.
Proof.
  unfold bases, sort_output; simpl. by rewrite !sorted_Permutation.
Qed.

Lemma bases_discovered sensors_json b :
  b ∈ bases (discovered e config sensors_json) ->
  exists g, g ∈ visible_groups e config sensors_json /\ b = g_base e config g.
Proof.
  unfold bases, discovered, extend_groups; simpl.
  rewrite !elem_of_app.
  intros [Hb|[Hb|[Hb|Hb]]];
    apply list_elem_of_fmap in Hb as (r & -> & Hr);
    apply list_elem_of_omap in Hr as (g & Hg & Hr); exists g; (split; [done|]).
  - unfold volt_of in Hr. apply (merge_base _ _ Voltage.base) in Hr; [done|].
    intros name value set a Hs. by apply (volt_route_base _ _ _ _ Hs).
  - unfold temp_of in Hr. apply (merge_base _ _ Temp.base) in Hr; [done|].
    intros name value set a Hs. by apply (temp_route_base _ _ _ _ _ _ Hs).
  - unfold hdd_temp_of in Hr. apply (merge_base _ _ HddTemp.base) in Hr; [done|].
    intros name value set a Hs. by apply (hdd_temp_route_base _ _ _ _ _ _ Hs).
  - unfold fan_of in Hr. apply (merge_base _ _ FanSpeed.base) in Hr; [done|].
    intros name value set a Hs. by apply (fan_route_base _ _ _ _ Hs).
Qed.

Lemma bases_of_groups sensors_json output b :
  parse_sensors_json e config sensors_json = Ok output ->
  b ∈ bases output ->
  exists g, g ∈ visible_groups e config sensors_json /\ b = g_base e config g.
Proof.
  intros [_ ->]%parse_sensors_json_inv Hb.
  rewrite bases_sort_output in Hb. by apply bases_discovered.
Qed.
End SnapshotRecords.

(** X1: every record of a snapshot belongs to a chip and to a sensor that
    the configuration shows, and its labels and its rank are those of its
    chip id and sensor id; on a raw tree with distinct keys its adapter is
    the ["Adapter"] entry of its chip, as a string, or [None] when the chip
    has none. *)
Theorem snapshot_records_shown `{Builtins} (e : edition) (config : ConfigParser)
    (sensors_json : dict json) (output : SensorsData) (b : Sensoer) :
  parse_sensors_json e config sensors_json = Ok output ->
  b ∈ bases output ->
  is_chip_visible e config (chip_id b) = Ok true
  /\ is_sensoer_visible e config (chip_id b) (sensor_id b) = Ok true
  /\ b = base_of e config (chip_id b) (sensor_id b) (default_chip_label b)
  /\ chip_order b = get_chip_order e (chip_id b)
  /\ (tree_keys_unique sensors_json = true ->
      forall entries,
        (chip_id b, JObject entries) ∈ sensors_json ->
        default_chip_label b = py_str <$> dict_get entries ADAPTER_PROP).
Proof.
  intros Hp Hb.
  destruct (bases_of_groups e config _ _ _ Hp Hb) as (g & Hg & ->).
  destruct (visible_groups_item e config _ _ Hg) as (item & Hitem & Hgi).
  destruct (groups_of_chip_shown e config _ _ Hgi)
    as (Hc & Hcv & Hsv & entries & Hdata & Ha & _).
  unfold g_base; simpl. rewrite Hc.
  split; [by apply shown_true|]. split; [by apply shown_true|].
  split; [done|]. split; [done|].
  intros Hkeys entries' Hin. rewrite Ha.
  destruct item as [chip data]; simpl in *. subst data.
  assert (keys_unique sensors_json = true) as Htop.
  { unfold tree_keys_unique in Hkeys. by apply andb_prop in Hkeys as [? _]. }
  by pose proof (keys_unique_functional _ _ _ _ Htop Hitem Hin) as [= ->].
Qed.

(** ** Hidden chips and hidden sensors *)

Lemma sequences_raw_data `{Builtins} e config raw raw' gs :
  sequences (sort_output (extend_groups e config (SensorsData_init raw) gs))
  = sequences (sort_output (extend_groups e config (SensorsData_init raw') gs)).
Proof. reflexivity. Qed.

Lemma entries_groups_drop `{Builtins} e config chip adapter
    (d1 d2 : dict json) (item : string * json) :
  entry_groups e config chip adapter item = [] ->
  flat_map (entry_groups e config chip adapter) (d1 ++ item :: d2)
  = flat_map (entry_groups e config chip adapter) (d1 ++ d2).
Proof. intros Hnil. rewrite !flat_map_app. simpl. by rewrite Hnil. Qed.

(** X2: a chip that the configuration hides counts for nothing: the
    classifier returns or raises on the tree as it does on the tree without
    the chip, with the same four sequences, whatever the chip holds, be it
    not even a dict. *)
Theorem hidden_chip_dropped `{Builtins} (e : edition) (config : ConfigParser)
    (t1 t2 : dict json) (chip : string) (data : json) :
  is_chip_visible e config chip = Ok false ->
  sequences <$> parse_sensors_json e config (t1 ++ (chip, data) :: t2)
  = sequences <$> parse_sensors_json e config (t1 ++ t2).
Proof.
  intros Hhidden. rewrite !parse_sensors_json_discovered.
  assert (chip_failure e config (chip, data) = None) as Hfail.
  { unfold chip_failure; simpl. by rewrite Hhidden. }
  assert (first_failure e config (t1 ++ (chip, data) :: t2)
          = first_failure e config (t1 ++ t2)) as ->.
  { unfold first_failure. rewrite !omap_app.
    change (omap (chip_failure e config) ((chip, data) :: t2))
      with (match chip_failure e config (chip, data) with
            | Some ex => ex :: omap (chip_failure e config) t2
            | None => omap (chip_failure e config) t2
            end).
    by rewrite Hfail. }
  destruct (first_failure e config (t1 ++ t2)); [done|].
  cbn [fmap result_fmap]. f_equal. unfold discovered.
  rewrite visible_groups_app.
  assert (groups_of_chip e config (chip, data) = []) as ->.
  { unfold groups_of_chip; simpl. by rewrite Hhidden. }
  simpl. unfold visible_groups at 3. rewrite flat_map_app.
  apply sequences_raw_data.
Qed.

Lemma groups_of_chip_drop_modulo `{Builtins} e config chip (d1 d2 : dict json)
    (item : string * json) :
  (forall adapter, entry_groups e config chip adapter item = []) ->
  group_without_adapter <$> groups_of_chip e config (chip, JObject (d1 ++ item :: d2))
  = group_without_adapter <$> groups_of_chip e config (chip, JObject (d1 ++ d2)).
Proof.
  intros Hnil. unfold groups_of_chip, chip_groups; simpl.
  destruct (shown (is_chip_visible e config chip)); [|done].
  rewrite !entries_groups_without_adapter. by apply entries_groups_drop.
Qed.

Lemma groups_of_chip_drop `{Builtins} e config chip (d1 d2 : dict json) k v :
  (forall adapter, entry_groups e config chip adapter (k, v) = []) ->
  k <> ADAPTER_PROP ->
  groups_of_chip e config (chip, JObject (d1 ++ (k, v) :: d2))
  = groups_of_chip e config (chip, JObject (d1 ++ d2)).
Proof.
  intros Hnil Hk. unfold groups_of_chip, chip_groups; simpl.
  destruct (shown (is_chip_visible e config chip)); [|done].
  rewrite (dict_get_skip d1 d2 k v ADAPTER_PROP Hk).
  by apply entries_groups_drop.
Qed.

(** X3: a field group that the configuration hides counts for nothing
    and leaves its siblings as they are: the classifier returns or raises on
    the tree as it does on the tree without the group, with the same four
    sequences up to the adapter of the records, and with the same sequences
    outright when the group is not the ["Adapter"] entry. *)
Theorem hidden_sensor_dropped `{Builtins} (e : edition) (config : ConfigParser)
    (t1 t2 : dict json) (chip : string) (d1 d2 : dict json) (sensor : string)
    (v : json) :
  is_sensoer_visible e config chip sensor = Ok false ->
  let with_entry := (t1 ++ (chip, JObject (d1 ++ (sensor, v) :: d2)) :: t2)%list in
  let without := (t1 ++ (chip, JObject (d1 ++ d2)) :: t2)%list in
  (fun output => sequences (forget_adapter output))
    <$> parse_sensors_json e config with_entry
  = (fun output => sequences (forget_adapter output))
    <$> parse_sensors_json e config without
  /\ (sensor <> ADAPTER_PROP ->
      sequences <$> parse_sensors_json e config with_entry
      = sequences <$> parse_sensors_json e config without).
Proof.
  intros Hhidden with_entry without. unfold with_entry, without.
  assert (forall adapter, entry_groups e config chip adapter (sensor, v) = [])
    as Hnil.
  { intros adapter. unfold entry_groups; simpl. rewrite Hhidden. by destruct v. }
  rewrite !parse_sensors_json_discovered.
  rewrite (first_failure_entries e config t1 t2 chip d1 d2 (sensor, v))
    by (unfold entry_failure; simpl; rewrite Hhidden; by destruct v).
  destruct (first_failure e config _) as [ex|]; [done|].
  unfold discovered. split.
  - cbn [fmap result_fmap]. f_equal. rewrite !forget_adapter_groups.
    rewrite !visible_groups_app, !fmap_app.
    by rewrite (groups_of_chip_drop_modulo e config chip d1 d2 _ Hnil).
  - intros Hk. cbn [fmap result_fmap]. f_equal.
    rewrite !visible_groups_app.
    by rewrite (groups_of_chip_drop e config chip d1 d2 _ _ Hnil Hk).
Qed.

(** ** When the classifier returns *)

Lemma head_omap_None {A B} (f : A -> option B) (l : list A) :
  head (omap f l) = None <-> Forall (fun x => f x = None) l.
Proof.
  induction l as [|x l IH].
  - split; [constructor|done].
  - change (omap f (x :: l))
      with (match f x with Some y => y :: omap f l | None => omap f l end).
    destruct (f x) as [y|] eqn:Hx; simpl.
    + split; [done|]. intros Hall. apply Forall_cons_1 in Hall as [Hy _].
      by rewrite Hx in Hy.
    + rewrite IH. split.
      * by constructor.
      * by intros [_ ?]%Forall_cons_1.
Qed.

Lemma head_omap_Some {A B} (f : A -> option B) (l : list A) (y : B) :
  head (omap f l) = Some y
  <-> exists (l1 : list A) x l2,
        l = (l1 ++ x :: l2)%list /\ Forall (fun x => f x = None) l1 /\ f x = Some y.
Proof.
  induction l as [|x l IH].
  - split; [done|]. intros (l1 & x & l2 & Hl & _). by destruct l1.
  - change (omap f (x :: l))
      with (match f x with Some y => y :: omap f l | None => omap f l end).
    destruct (f x) as [y'|] eqn:Hx; simpl.
    + split.
      * intros [= ->]. exists [], x, l. split; [done|]. by split; [constructor|].
      * intros (l1 & x' & l2 & Hl & Hnone & Hy). destruct l1 as [|x1 l1].
        -- injection Hl as <- _. congruence.
        -- injection Hl as <- _. apply Forall_cons_1 in Hnone as [Hx1 _]. congruence.
    + rewrite IH. split.
      * intros (l1 & x' & l2 & -> & Hnone & Hy).
        exists (x :: l1), x', l2. split; [done|]. split; [by constructor|done].
      * intros (l1 & x' & l2 & Hl & Hnone & Hy). destruct l1 as [|x1 l1].
        -- injection Hl as <- _. congruence.
        -- injection Hl as <- ->. apply Forall_cons_1 in Hnone as [_ Hnone].
           by exists l1, x', l2.
Qed.

Lemma existsb_Exists {A} (f : A -> bool) (l : list A) :
  existsb f l = true <-> Exists (fun x => f x = true) l.
Proof.
  rewrite existsb_exists, Exists_exists.
  split; intros (x & Hx & Hf); exists x; (split; [|done]); by apply list_elem_of_In.
Qed.

Section Failures.
Context `{Builtins} (e : edition) (config : ConfigParser).

Lemma scan_raises expand state (rest : string) ex :
  (forall name ex', expand name = Raise ex' -> raised_by_parser ex' = true) ->
  scan expand state rest = Raise ex -> raised_by_parser ex = true.
Proof.
  intros Hexpand. revert state.
  induction rest as [|c rest IH]; intros state; [by destruct state; intros [= <-]|].
  destruct state as [| |name|name]; cbn [scan].
  - destruct (Ascii.eqb c "%"); [apply IH|].
    destruct (scan expand Plain rest) eqn:Hs; [done|].
    intros [= <-]. by apply (IH Plain).
  - destruct (Ascii.eqb c "%").
    + destruct (scan expand Plain rest) eqn:Hs; [done|].
      intros [= <-]. by apply (IH Plain).
    + destruct (Ascii.eqb c "("); [apply IH|by intros [= <-]].
  - destruct (Ascii.eqb c ")"); [|apply IH].
    destruct (nonempty name); [apply IH|by intros [= <-]].
  - destruct (Ascii.eqb c "s"); [|by intros [= <-]].
    destruct (expand name) as [v|ex'] eqn:Hv; simpl.
    + destruct (scan expand Plain rest) eqn:Hs; [done|].
      intros [= <-]. by apply (IH Plain).
    + intros [= <-]. by apply (Hexpand name).
Qed.

Lemma interpolate_some_raises depth_left map (rest : string) ex :
  interpolate_some depth_left map rest = Raise ex -> raised_by_parser ex = true.
Proof.
  revert rest ex. induction depth_left as [|d IH]; intros rest ex; simpl.
  - by intros [= <-].
  - apply scan_raises. intros name ex'.
    destruct (map !! optionxform name) as [v|]; [|by intros [= <-]].
    destruct (contains "%" v); [apply IH|done].
Qed.

Lemma value_of_raises section (value : string) ex :
  value_of config section value = Raise ex -> raised_by_parser ex = true.
Proof.
  unfold value_of, before_get.
  destruct (joined config); [apply interpolate_some_raises|by intros [= <-]].
Qed.

Lemma config_get_raises section key ex :
  config_get config section key = Raise ex -> raised_by_parser ex = true.
Proof. apply value_of_raises. Qed.

Lemma get_str_raises section key (d : option string) ex :
  get_config_value config section key t_str d = Raise ex ->
  raised_by_parser ex = true.
Proof.
  unfold get_config_value. case_match; [|done].
  destruct (config_get config section key) eqn:Hget; [done|].
  intros [= <-]. by eapply config_get_raises.
Qed.

Lemma getboolean_raises section key ex :
  getboolean config section key = Raise ex ->
  ex = ValueError \/ raised_by_parser ex = true.
Proof.
  unfold getboolean.
  destruct (config_get config section key) as [value|ex'] eqn:Hget;
    cbn [mbind result_bind].
  - unfold convert_to_boolean.
    destruct (dict_get BOOLEAN_STATES (lower value)); [done|].
    intros [= <-]. by left.
  - intros [= <-]. right. by eapply config_get_raises.
Qed.

Lemma is_chip_visible_raises chip ex :
  is_chip_visible e config chip = Raise ex ->
  ex = ValueError \/ raised_by_parser ex = true.
Proof.
  unfold is_chip_visible, get_config_value. destruct e.
  - case_match; [|done].
    destruct (getboolean config chip "visible") eqn:Hget; [done|].
    intros [= <-]. by eapply getboolean_raises.
  - case_match; [|done]. apply getboolean_raises.
Qed.

Lemma is_sensoer_visible_raises chip sensor ex :
  is_sensoer_visible e config chip sensor = Raise ex ->
  raised_by_parser ex = true.
Proof.
  unfold is_sensoer_visible. destruct e.
  - destruct (get_config_value config chip "hidden_sensoers" t_str (Some ""))
      as [[value|]|ex'] eqn:Hget; simpl.
    + by case_match.
    + by intros [= <-].
    + intros [= <-]. by eapply get_str_raises.
  - case_match; [|done].
    destruct (config_get config chip "hidden_sensoers") eqn:Hget; simpl.
    + by case_match.
    + intros [= <-]. by eapply config_get_raises.
Qed.

Lemma get_custom_chip_label_raises chip ex :
  get_custom_chip_label e config chip = Raise ex -> raised_by_parser ex = true.
Proof.
  unfold get_custom_chip_label. destruct e; [apply get_str_raises|].
  case_match; [|done].
  destruct (config_get config chip "label") eqn:Hget; [done|].
  intros [= <-]. by eapply config_get_raises.
Qed.

Lemma get_custom_sensor_label_raises chip sensor ex :
  get_custom_sensor_label e config chip sensor = Raise ex ->
  raised_by_parser ex = true.
Proof.
  unfold get_custom_sensor_label. destruct e; [apply get_str_raises|].
  case_match; [|done].
  destruct (config_get config chip sensor) eqn:Hget; [done|].
  intros [= <-]. by eapply config_get_raises.
Qed.

Lemma Sensoer_init_raises chip sensor adapter ex :
  Sensoer_init e config chip sensor adapter = Raise ex ->
  raised_by_parser ex = true
  /\ forall adapter', Sensoer_init e config chip sensor adapter' = Raise ex.
Proof.
  unfold Sensoer_init.
  destruct (get_custom_chip_label e config chip) as [cl|ex1] eqn:Hc; simpl.
  - destruct (get_custom_sensor_label e config chip sensor) as [sl|ex2] eqn:Hs;
      simpl; [done|].
    intros [= <-]. split; [by eapply get_custom_sensor_label_raises|done].
  - intros [= <-]. split; [by eapply get_custom_chip_label_raises|done].
Qed.

Lemma init_failure_labels chip sensor :
  init_failure e config chip sensor = None
  <-> is_ok (get_custom_chip_label e config chip) = true
      /\ is_ok (get_custom_sensor_label e config chip sensor) = true.
Proof.
  unfold init_failure, Sensoer_init.
  destruct (get_custom_chip_label e config chip); simpl; [|by split; [|intros []]].
  destruct (get_custom_sensor_label e config chip sensor); simpl;
    by split; [|intros []].
Qed.

Lemma entry_passes_failure chip item :
  entry_passes e config chip item <-> entry_failure e config chip item = None.
Proof.
  unfold entry_passes, entry_failure.
  destruct item.2 as [| | | | | |fields]; try done.
  destruct (is_sensoer_visible e config chip item.1) as [[|]|ex]; [|done|done].
  rewrite <- init_failure_labels, <- existsb_Exists.
  destruct (existsb _ fields); [|done].
  split; [by intros Hp; apply Hp|done].
Qed.

Lemma chip_passes_failure item :
  chip_passes e config item <-> chip_failure e config item = None.
Proof.
  unfold chip_passes, chip_failure.
  destruct (is_chip_visible e config item.1) as [[|]|ex]; [|done|done].
  destruct item.2 as [| | | | | |entries]; try done.
  rewrite head_omap_None. apply Forall_iff. intros entry.
  apply entry_passes_failure.
Qed.

Lemma entry_failure_stops chip item ex :
  entry_failure e config chip item = Some ex ->
  raised_by_parser ex = true /\ entry_stops e config chip item ex.
Proof.
  unfold entry_failure, entry_stops.
  destruct item.2 as [| | | | | |fields]; try done.
  destruct (is_sensoer_visible e config chip item.1) as [[|]|ex'] eqn:Hv; [|done|].
  - destruct (existsb _ fields) eqn:Hex; [|done].
    unfold init_failure.
    destruct (Sensoer_init e config chip item.1 None) eqn:Hinit; [done|].
    intros [= <-]. apply Sensoer_init_raises in Hinit as [Hkind Hall].
    split; [done|]. exists fields. split; [done|]. right.
    split; [done|]. split; [by apply existsb_Exists|done].
  - intros [= <-]. split; [by eapply is_sensoer_visible_raises|].
    exists fields. split; [done|]. by left.
Qed.

Lemma chip_failure_stops item ex :
  chip_failure e config item = Some ex -> chip_stops e config item ex.
Proof.
  unfold chip_failure, chip_stops.
  destruct (is_chip_visible e config item.1) as [[|]|ex'] eqn:Hv; [|done|].
  - destruct item.2 as [| | | | | |entries] eqn:Hd;
      try (intros [= <-]; right; left; by repeat split).
    + intros [= <-]. right; left. repeat split; try done.
      unfold not_a_dict. by case_match.
    + intros [= <-]. right; left. repeat split; try done.
      unfold not_a_dict. by case_match.
    + intros (d1 & entry & d2 & -> & Hnone & Hex)%head_omap_Some.
      apply entry_failure_stops in Hex as [Hkind Hstops].
      right; right. split; [done|]. split; [done|].
      exists d1, entry, d2. split; [done|]. split; [|done].
      by apply (Forall_iff _ _ _ (entry_passes_failure item.1)).
  - intros [= <-]. left. split; [done|]. by eapply is_chip_visible_raises.
Qed.
End Failures.

(** X4: the classifier returns exactly when every chip of the raw tree
    lets it go on: the [visible] option of the chip reads as a boolean, and
    the chip is hidden, or holds a dict in which every entry that is a dict
    has a readable [hidden_sensoers] list and, when it is visible and has a
    recognised field, two readable labels.  A value of the raw tree never
    makes the classifier raise; a stored value that the parser cannot
    interpolate, or cannot join, does. *)
Theorem classifier_returns_iff `{Builtins} (e : edition) (config : ConfigParser)
    (sensors_json : dict json) :
  is_ok (parse_sensors_json e config sensors_json) = true
  <-> Forall (chip_passes e config) sensors_json.
Proof.
  rewrite parse_sensors_json_discovered.
  rewrite (Forall_iff _ _ _ (chip_passes_failure e config)).
  rewrite <- head_omap_None. fold (first_failure e config sensors_json).
  by destruct (first_failure e config sensors_json).
Qed.

(** X5: when the classifier raises, it is on the first chip of the raw
    tree, in tree order, that does not let it go on, and every chip after
    that one is left unread.  Either the look-up of the [visible] option of
    that chip raises, or the option does not read as a boolean, and the
    exception is [ValueError]; or the chip is visible and holds no dict, and
    the exception is [TypeError] or [AttributeError] as the value decides;
    or the chip is visible and the classifier raises on the first entry of
    it that does not let it go on, with the exception of the look-up of
    [hidden_sensoers] or of a label. *)
Theorem classifier_raises_on_first_failing_chip `{Builtins} (e : edition)
    (config : ConfigParser) (sensors_json : dict json) (ex : exn) :
  parse_sensors_json e config sensors_json = Raise ex ->
  exists (t1 : dict json) chip data (t2 : dict json),
    sensors_json = (t1 ++ (chip, data) :: t2)%list
    /\ Forall (chip_passes e config) t1
    /\ (forall t2' : dict json,
          parse_sensors_json e config (t1 ++ (chip, data) :: t2') = Raise ex)
    /\ chip_stops e config (chip, data) ex.
Proof.
  rewrite parse_sensors_json_discovered.
  destruct (first_failure e config sensors_json) as [ex'|] eqn:Hf; [|done].
  intros [= ->]. apply head_omap_Some in Hf as (t1 & [chip data] & t2 & -> & Hnone & Hex).
  exists t1, chip, data, t2. split; [done|].
  split; [by apply (Forall_iff _ _ _ (chip_passes_failure e config))|].
  split; [|by apply (chip_failure_stops e config (chip, data))].
  intros t2'. rewrite parse_sensors_json_discovered.
  assert (first_failure e config (t1 ++ (chip, data) :: t2') = Some ex) as ->; [|done].
  apply head_omap_Some. by exists t1, (chip, data), t2'.
Qed.

(** ** Sensor ids that cannot be hidden *)

Lemma split_no_sep (sep : ascii) (s x : string) :
  x ∈ split sep s -> contains (String sep "") x = false.
Proof.
  revert x. induction s as [|c s IH]; intros x; simpl.
  - by intros ->%list_elem_of_singleton.
  - destruct (Ascii.eqb c sep) eqn:Hc.
    + intros [->|Hx]%elem_of_cons; [done|by apply IH].
    + destruct (split sep s) as [|h t] eqn:Hs.
      * intros ->%list_elem_of_singleton. simpl.
        destruct (ascii_dec sep c) as [->|_]; [|done].
        by rewrite Ascii.eqb_refl in Hc.
      * intros [->|Hx]%elem_of_cons.
        -- simpl. destruct (ascii_dec sep c) as [->|_].
           ++ by rewrite Ascii.eqb_refl in Hc.
           ++ simpl. apply IH, list_elem_of_here.
        -- apply IH. by apply list_elem_of_further.
Qed.

Lemma str_in_elem_of (x : string) (xs : list string) :
  str_in x xs = true -> x ∈ xs.
Proof.
  unfold str_in. intros (y & Hy & ->%String.eqb_eq)%existsb_exists.
  by apply list_elem_of_In.
Qed.

(** X6: a field group whose id holds a comma cannot be hidden: whatever
    the configuration lists under [hidden_sensoers], the list is cut at
    every comma, so no item of it holds one, and the answer is never that
    the group is hidden.  The answer is that it is visible, unless the
    look-up of [hidden_sensoers] raises, and then the same exception is
    raised. *)
Theorem comma_in_id_never_hidden `{Builtins} (e : edition) (config : ConfigParser)
    (chip sensor : string) :
  contains "," sensor = true ->
  match is_sensoer_visible e config chip sensor with
  | Ok visible => visible = true
  | Raise ex => config_get config chip "hidden_sensoers" = Raise ex
  end.
Proof.
  intros Hcomma.
  assert (forall s, str_in sensor (split "," s) = false) as Hout.
  { intros s. destruct (str_in sensor (split "," s)) eqn:Hin; [|done].
    apply str_in_elem_of, split_no_sep in Hin. congruence. }
  unfold is_sensoer_visible, get_config_value.
  destruct e.
  - destruct (nonempty chip && nonempty "hidden_sensoers"
              && has_section config chip
              && has_option config chip "hidden_sensoers");
      cbn [mbind result_bind fmap result_fmap]; [|by rewrite Hout].
    destruct (config_get config chip "hidden_sensoers"); simpl; [|done].
    by rewrite Hout.
  - destruct (has_section config chip && has_option config chip "hidden_sensoers");
      [|done].
    destruct (config_get config chip "hidden_sensoers"); simpl; [|done].
    by rewrite Hout.
Qed.

(** ** Suffixes *)

Lemma append_nil (s : string) : ("" +:+ s) = s.
Proof. reflexivity. Qed.

Lemma append_cons (c : ascii) (s1 s2 : string) :
  (String c s1 +:+ s2) = String c (s1 +:+ s2).
Proof. reflexivity. Qed.

Lemma substring_whole (s : string) : substring 0 (String.length s) s = s.
Proof. induction s as [|c s IH]; simpl; [done|by f_equal]. Qed.

Lemma substring_none (s : string) : substring 0 0 s = "".
Proof. by destruct s. Qed.

Lemma substring_split (s : string) (k : nat) :
  (k <= String.length s)%nat ->
  s = substring 0 k s +:+ substring k (String.length s - k) s.
Proof.
  revert k. induction s as [|c s IH]; intros k Hk.
  - by destruct k.
  - destruct k as [|k].
    + by rewrite substring_none, Nat.sub_0_r, substring_whole.
    + simpl in *. rewrite append_cons. f_equal. apply IH. lia.
Qed.

Lemma substring_app_r (pre s : string) :
  substring (String.length pre) (String.length s) (pre +:+ s) = s.
Proof.
  induction pre as [|c pre IH]; [apply substring_whole|].
  by rewrite append_cons.
Qed.

Lemma length_string_app (s1 s2 : string) :
  String.length (s1 +:+ s2) = (String.length s1 + String.length s2)%nat.
Proof.
  induction s1 as [|c s1 IH]; [done|].
  rewrite append_cons. simpl. by f_equal.
Qed.

Lemma endswith_app (s suffix : string) :
  endswith s suffix = true <-> exists pre, s = pre +:+ suffix.
Proof.
  unfold endswith. split.
  - intros [Hle%Nat.leb_le Heq%String.eqb_eq]%andb_prop.
    exists (substring 0 (String.length s - String.length suffix) s).
    rewrite <- Heq at 2.
    rewrite (substring_split s (String.length s - String.length suffix)) at 1
      by lia.
    do 2 f_equal. lia.
  - intros [pre ->]. rewrite length_string_app. apply andb_true_intro. split.
    + apply Nat.leb_le. lia.
    + apply String.eqb_eq.
      replace (String.length pre + String.length suffix - String.length suffix)%nat
        with (String.length pre) by lia.
      apply substring_app_r.
Qed.

Lemma string_app_inv (p1 p2 s1 s2 : string) :
  p1 +:+ s1 = p2 +:+ s2 ->
  (String.length s1 <= String.length s2)%nat ->
  exists q, s2 = q +:+ s1.
Proof.
  revert p2. induction p1 as [|c p1 IH]; intros p2 Heq Hle.
  - rewrite append_nil in Heq. destruct p2 as [|c2 p2].
    + exists "". by subst.
    + subst s1. rewrite length_string_app in Hle. simpl in Hle. lia.
  - destruct p2 as [|c2 p2].
    + rewrite append_nil in Heq. subst s2. by exists (String c p1).
    + rewrite !append_cons in Heq. injection Heq as _ Heq. by eapply IH.
Qed.

(** Two suffixes of one string: the shorter is a suffix of the longer. *)
Lemma endswith_both (s a b : string) :
  endswith s a = true -> endswith s b = true ->
  endswith a b = true \/ endswith b a = true.
Proof.
  intros [pa Ha]%endswith_app [pb Hb]%endswith_app. subst s.
  destruct (Nat.le_ge_cases (String.length a) (String.length b)) as [Hle|Hle].
  - right. apply endswith_app. by eapply string_app_inv.
  - left. apply endswith_app. symmetry in Hb. by eapply string_app_inv.
Qed.

Lemma endswith_apart (s a b : string) :
  endswith a b || endswith b a = false ->
  endswith s a = true -> endswith s b = false.
Proof.
  intros Hab Ha. destruct (endswith s b) eqn:Hb; [|done].
  destruct (endswith_both s a b Ha Hb) as [H|H]; rewrite H in Hab;
    [done|by rewrite orb_true_r in Hab].
Qed.

(** The six suffixes that the classifier tests end no common name. *)
Lemma suffixes_apart (name a b : string) :
  a ∈ ["_input"; "_max"; "_crit"; "_lowest"; "_highest"; "_min"] ->
  b ∈ ["_input"; "_max"; "_crit"; "_lowest"; "_highest"; "_min"] ->
  a <> b ->
  endswith name a = true -> endswith name b = false.
Proof.
  intros Ha Hb Hab. apply endswith_apart.
  repeat (apply elem_of_cons in Ha as [->|Ha]; [|try by apply elem_of_nil in Ha]);
  repeat (apply elem_of_cons in Hb as [->|Hb]; [|try by apply elem_of_nil in Hb]);
  done.
Qed.

Ltac suffix_known :=
  repeat first [apply list_elem_of_here | apply list_elem_of_further].

Ltac suffix_off name a Hyes :=
  repeat match goal with
  | |- context [endswith name ?b] =>
      rewrite (suffixes_apart name a b ltac:(suffix_known) ltac:(suffix_known)
                 ltac:(done) Hyes)
  end.

(** ** What a record holds *)

Section ReadBack.
Context {A : Type} (fresh : A) (route : string -> json -> option (A -> A)).
Context (get : A -> json) (prefix suffix : string).

Lemma merge_fold_reads_back acc fields :
  reads_back route get prefix suffix ->
  get (default fresh (foldl (merge_step fresh route) acc fields))
  = default (get (default fresh acc))
      (snd <$> last (List.filter (named prefix suffix) fields)).
Proof.
  intros Hroute. revert acc.
  induction fields as [|[name value] fields IH]; intros acc; [done|].
  cbn [foldl List.filter]. rewrite IH. unfold merge_step. cbn [fst snd].
  specialize (Hroute name value).
  destruct (named prefix suffix (name, value)) eqn:Hp.
  - rewrite last_cons.
    destruct (route name value) as [set|]; [|done].
    destruct (last (List.filter (named prefix suffix) fields)); [done|].
    simpl. by rewrite Hroute.
  - destruct (route name value) as [set|]; [|done].
    simpl. by rewrite Hroute.
Qed.

Lemma merge_reads_back fields r :
  reads_back route get prefix suffix -> get fresh = JNull ->
  merge fresh route fields = Some r ->
  get r = last_value prefix suffix fields.
Proof.
  intros Hroute Hfresh Hr. unfold last_value.
  pose proof (merge_fold_reads_back None fields Hroute) as Hm.
  unfold merge in Hr. rewrite Hr in Hm. simpl in Hm.
  by rewrite Hm, Hfresh.
Qed.
End ReadBack.

Ltac suffix_cases name :=
  repeat match goal with
  | |- context [if endswith name ?a then _ else _] =>
      let Hs := fresh "Hs" in
      destruct (endswith name a) eqn:Hs; [suffix_off name a Hs|]
  end.

Lemma temp_reads_back e chip :
  is_drive_chip e chip = false ->
  reads_back (temp_route e chip) Temp.value "temp" "_input"
  /\ reads_back (temp_route e chip) Temp.high "temp" "_max"
  /\ reads_back (temp_route e chip) Temp.critical "temp" "_crit".
Proof.
  intros Hd.
  split; [|split]; intros name value;
    unfold temp_route, temp_setter, named; cbn [fst]; rewrite Hd;
    (destruct (startswith name "temp"); [|done]); cbn [negb andb];
    suffix_cases name; done.
Qed.

Lemma hdd_temp_reads_back e chip :
  is_drive_chip e chip = true ->
  reads_back (hdd_temp_route e chip) (fun r => Temp.value (HddTemp.temp r))
    "temp" "_input"
  /\ reads_back (hdd_temp_route e chip) (fun r => Temp.high (HddTemp.temp r))
       "temp" "_max"
  /\ reads_back (hdd_temp_route e chip) (fun r => Temp.critical (HddTemp.temp r))
       "temp" "_crit"
  /\ reads_back (hdd_temp_route e chip) HddTemp.lowest "temp" "_lowest"
  /\ reads_back (hdd_temp_route e chip) HddTemp.highest "temp" "_highest".
Proof.
  intros Hd.
  split; [|split; [|split; [|split]]]; intros name value;
    unfold hdd_temp_route, hdd_temp_setter, named; cbn [fst]; rewrite Hd;
    (destruct (startswith name "temp"); [|done]); cbn [negb andb];
    suffix_cases name; done.
Qed.

Lemma fan_reads_back :
  reads_back fan_route FanSpeed.value "fan" "_input"
  /\ reads_back fan_route FanSpeed.min "fan" "_min".
Proof.
  split; intros name value; unfold fan_route, fan_setter, named; cbn [fst];
    (destruct (startswith name "fan") eqn:Hfan;
       [rewrite (startswith_fan_not_temp _ Hfan) | by rewrite andb_false_r]);
    cbn [negb andb]; suffix_cases name; done.
Qed.

Lemma volt_reads_back :
  reads_back volt_route Voltage.value "in" "_input"
  /\ reads_back volt_route Voltage.min "in" "_min"
  /\ reads_back volt_route Voltage.max "in" "_max".
Proof.
  split; [|split]; intros name value; unfold volt_route, volt_setter, named;
    cbn [fst];
    (destruct (startswith name "in") eqn:Hin;
       [rewrite (startswith_in_not_temp _ Hin), (startswith_in_not_fan _ Hin)
       | by rewrite andb_false_r]);
    cbn [negb andb]; suffix_cases name; done.
Qed.

Ltac read_back Hroute Hr :=
  eapply (merge_reads_back _ _ _ _ _ _ _ Hroute); [|exact Hr]; reflexivity.

Section GroupReadBack.
Context `{Builtins} (e : edition) (config : ConfigParser).

Lemma temp_of_holds g r :
  temp_of e config g = Some r -> temp_holds (g_fields g) r.
Proof.
  intros Hr.
  assert (is_drive_chip e (g_chip g) = false) as Hd.
  { pose proof (temp_of_drive _ _ _ _ Hr) as Hd.
    pose proof (temp_of_identity _ _ _ _ Hr) as [= Hc _].
    by rewrite is_drive_chip_drive_like, <- Hc. }
  destruct (temp_reads_back e _ Hd) as (Hv & Hh & Hc).
  unfold temp_of in Hr.
  split; [|split].
  - read_back Hv Hr.
  - read_back Hh Hr.
  - read_back Hc Hr.
Qed.

Lemma hdd_temp_of_holds g r :
  hdd_temp_of e config g = Some r -> hdd_temp_holds (g_fields g) r.
Proof.
  intros Hr.
  assert (is_drive_chip e (g_chip g) = true) as Hd.
  { pose proof (hdd_temp_of_drive _ _ _ _ Hr) as Hd.
    pose proof (hdd_temp_of_identity _ _ _ _ Hr) as [= Hc _].
    by rewrite is_drive_chip_drive_like, <- Hc. }
  destruct (hdd_temp_reads_back e _ Hd) as (Hv & Hh & Hc & Hlo & Hhi).
  unfold hdd_temp_of in Hr.
  split; [split; [|split]|split].
  - read_back Hv Hr.
  - read_back Hh Hr.
  - read_back Hc Hr.
  - read_back Hlo Hr.
  - read_back Hhi Hr.
Qed.

Lemma fan_of_holds g r :
  fan_of e config g = Some r -> fan_holds (g_fields g) r.
Proof.
  intros Hr. destruct fan_reads_back as (Hv & Hm). unfold fan_of in Hr.
  split.
  - read_back Hv Hr.
  - read_back Hm Hr.
Qed.

Lemma volt_of_holds g r :
  volt_of e config g = Some r -> volt_holds (g_fields g) r.
Proof.
  intros Hr. destruct volt_reads_back as (Hv & Hmin & Hmax). unfold volt_of in Hr.
  split; [|split].
  - read_back Hv Hr.
  - read_back Hmin Hr.
  - read_back Hmax Hr.
Qed.

Lemma record_holds {A} (base : A -> Sensoer) (record_of : group -> option A)
    (holds : dict json -> A -> Prop) sensors_json r entries fields :
  (forall g r, record_of g = Some r -> identity (base r) = group_identity g) ->
  (forall g r, record_of g = Some r -> holds (g_fields g) r) ->
  tree_keys_unique sensors_json = true ->
  r ∈ omap record_of (visible_groups e config sensors_json) ->
  (chip_id (base r), JObject entries) ∈ sensors_json ->
  (sensor_id (base r), JObject fields) ∈ entries ->
  holds fields r.
Proof.
  intros Hid Hholds Hkeys Hr Hchip Hsensor.
  apply list_elem_of_omap in Hr as (g & Hg & Hrec).
  pose proof (Hid _ _ Hrec) as [= Hc Hs].
  rewrite Hc in Hchip. rewrite Hs in Hsensor.
  rewrite <- (visible_groups_fields e config _ _ _ _ Hkeys Hg Hchip Hsensor).
  by apply Hholds.
Qed.
End GroupReadBack.

(** ** One record per sensor *)

Lemma flat_map_ext_Forall {A B} (f g : A -> list B) (l : list A) :
  Forall (fun x => f x = g x) l -> flat_map f l = flat_map g l.
Proof. induction 1 as [|x l Hx _ IH]; simpl; [done|]. by rewrite Hx, IH. Qed.

Lemma str_in_one (x y : string) : str_in x [y] = String.eqb x y.
Proof. unfold str_in; simpl. apply orb_false_r. Qed.

Section SpecifiedFacts.
Context `{Builtins} (e : edition) (config : ConfigParser).

(** The two notions of a visible sensor part on the empty sensor id
    alone. *)
Lemma is_sensoer_visible_specified chip sensor :
  nonempty chip = true -> nonempty sensor = true ->
  is_sensoer_visible e config chip sensor = sensor_visible config chip sensor.
Proof.
  intros Hchip Hsensor.
  assert (forall value,
            (if str_in sensor (split "," value) then Ok false else Ok true)
            = (Ok (negb (listed value sensor)) : result bool)) as Hlist.
  { intros value. unfold listed. destruct value as [|c value]; cbn [nonempty andb].
    - change (split "," "") with [""]. rewrite str_in_one. by destruct sensor.
    - by destruct (str_in sensor _). }
  unfold is_sensoer_visible, sensor_visible, get_config_value.
  rewrite Hchip. cbn [nonempty andb].
  destruct (has_section config chip && has_option config chip "hidden_sensoers");
    destruct e.
  - destruct (config_get config chip "hidden_sensoers");
      cbn [fmap result_fmap mbind result_bind]; [apply Hlist|done].
  - destruct (config_get config chip "hidden_sensoers");
      cbn [fmap result_fmap mbind result_bind]; [apply Hlist|done].
  - cbn [mbind result_bind]. by rewrite Hlist.
  - done.
Qed.

Lemma visible_groups_specified sensors_json :
  no_empty_id sensors_json = true ->
  visible_groups e config sensors_json = visible_pairs e config sensors_json.
Proof.
  unfold no_empty_id, visible_groups, visible_pairs. rewrite forallb_forall.
  intros Hids. apply flat_map_ext_Forall, Forall_forall.
  intros [chip data] Hin. specialize (Hids _ (proj1 (list_elem_of_In _ _) Hin)).
  apply andb_prop in Hids as [Hchip Hentries]. simpl in *.
  unfold groups_of_chip, pairs_of_chip; simpl.
  destruct (shown (is_chip_visible e config chip)); [|done].
  destruct data as [| | | | | |entries]; try done.
  unfold chip_groups. apply flat_map_ext_Forall, Forall_forall.
  intros [sensor v] Hentry. rewrite forallb_forall in Hentries.
  specialize (Hentries _ (proj1 (list_elem_of_In _ _) Hentry)). simpl in Hentries.
  unfold entry_groups, entry_pairs; simpl.
  by rewrite is_sensoer_visible_specified.
Qed.

Lemma sorted_records_hold {A} (base : A -> Sensoer) (record_of : group -> option A)
    (holds : dict json -> A -> Prop) (gs : list group) :
  (forall g r, record_of g = Some r -> identity (base r) = group_identity g) ->
  (forall g r, record_of g = Some r -> holds (g_fields g) r) ->
  records_hold base holds gs
    (sorted (fun item => chip_order (base item)) (omap record_of gs)).
Proof.
  intros Hid Hholds. unfold records_hold. rewrite sorted_Permutation.
  apply Forall_forall. intros r (g & Hg & Hr)%list_elem_of_omap.
  exists g. split; [done|]. split; [by apply Hid | by apply Hholds].
Qed.
End SpecifiedFacts.

(** C4: the code does not do what the claim says on the empty sensor
    id.  What it does on every raw tree with distinct keys at both levels
    (a dict of dicts) is this.  Each sequence of the snapshot holds at most
    one record per (chip id, sensor id) pair; a record holds the fields of
    the one field group of its pair, the last field of a name winning; and a
    sequence has exactly as many records as there are field groups that the
    code takes for visible, themselves pairwise distinct, with a field that
    feeds its category.  These are the visible pairs of the specification
    when no id of the tree is the empty string.  A field group whose id is
    the empty string is visible for the specification under an empty list
    of hidden sensors, and the code drops it: in pylmsensonrs/sm.py with no
    configuration at all, and in both editions when the list is stored
    empty, the tree with one such group of one fan has one visible pair that
    contributes to the fans and a snapshot with no fan. *)
Theorem snapshot_one_record_per_sensor `{Builtins} :
  (forall (e : edition) (config : ConfigParser) (sensors_json : dict json)
          (output : SensorsData),
     tree_keys_unique sensors_json = true ->
     parse_sensors_json e config sensors_json = Ok output ->
     let gs := visible_groups e config sensors_json in
     NoDup (group_identity <$> gs)
     /\ (one_per_pair Temp.base (temp_of e config) (feeds_temp e) gs (temps output)
         /\ records_hold Temp.base temp_holds gs (temps output))
     /\ (one_per_pair HddTemp.base (hdd_temp_of e config) (feeds_hdd_temp e) gs
           (hdd_temps output)
         /\ records_hold HddTemp.base hdd_temp_holds gs (hdd_temps output))
     /\ (one_per_pair Voltage.base (volt_of e config) (fun _ => feeds_volt) gs
           (volts output)
         /\ records_hold Voltage.base volt_holds gs (volts output))
     /\ (one_per_pair FanSpeed.base (fan_of e config) (fun _ => feeds_fan) gs
           (fans output)
         /\ records_hold FanSpeed.base fan_holds gs (fans output))
     /\ (no_empty_id sensors_json = true ->
         gs = visible_pairs e config sensors_json))
  /\ (group_identity
        <$> List.filter (contributes (fun _ => feeds_fan))
              (visible_pairs Package ∅ empty_id_tree)
      = [("nct6775-isa-0290", "")]
      /\ (fans <$> parse_sensors_json Package ∅ empty_id_tree) = Ok [])
  /\ (forall e,
        group_identity
          <$> List.filter (contributes (fun _ => feeds_fan))
                (visible_pairs e empty_hidden_config empty_id_tree)
        = [("nct6775-isa-0290", "")]
        /\ (fans <$> parse_sensors_json e empty_hidden_config empty_id_tree) = Ok []).
Proof.
  split; [|split; [by split|by intros [|]]].
  intros e config sensors_json output Hkeys Hp gs.
  apply parse_sensors_json_inv in Hp as [_ ->].
  pose proof (visible_groups_NoDup e config _ Hkeys) as Hnd. fold gs in Hnd.
  split; [done|]. unfold sort_output, discovered; cbn [temps hdd_temps volts fans
    extend_groups SensorsData_init app]. fold gs.
  split; [|split; [|split; [|split]]].
  - split.
    + apply sorted_one_per_pair;
        [done | apply temp_of_identity | apply temp_of_contributes].
    + apply sorted_records_hold; [apply temp_of_identity | apply temp_of_holds].
  - split.
    + apply sorted_one_per_pair;
        [done | apply hdd_temp_of_identity | apply hdd_temp_of_contributes].
    + apply sorted_records_hold;
        [apply hdd_temp_of_identity | apply hdd_temp_of_holds].
  - split.
    + apply sorted_one_per_pair;
        [done | apply volt_of_identity | apply volt_of_contributes].
    + apply sorted_records_hold; [apply volt_of_identity | apply volt_of_holds].
  - split.
    + apply sorted_one_per_pair;
        [done | apply fan_of_identity | apply fan_of_contributes].
    + apply sorted_records_hold; [apply fan_of_identity | apply fan_of_holds].
  - apply visible_groups_specified.
Qed.

(** X7: every record of a snapshot holds the raw fields of its own field
    group, the last one winning: on a raw tree with distinct keys, each
    value of a record is the value of the last field of the group of its
    chip id and sensor id whose name has the prefix of the category and the
    suffix of that value, and is [None] when the group has no such field.
    No field of another group, and no field of another name, is read into
    it. *)
Theorem snapshot_reads_back `{Builtins} (e : edition) (config : ConfigParser)
    (sensors_json : dict json) (output : SensorsData) :
  tree_keys_unique sensors_json = true ->
  parse_sensors_json e config sensors_json = Ok output ->
  forall (base : Sensoer) (entries fields : dict json),
    (chip_id base, JObject entries) ∈ sensors_json ->
    (sensor_id base, JObject fields) ∈ entries ->
    (forall r, r ∈ temps output -> Temp.base r = base -> temp_holds fields r)
    /\ (forall r, r ∈ hdd_temps output -> HddTemp.base r = base ->
        hdd_temp_holds fields r)
    /\ (forall r, r ∈ fans output -> FanSpeed.base r = base -> fan_holds fields r)
    /\ (forall r, r ∈ volts output -> Voltage.base r = base -> volt_holds fields r).
Proof.
  intros Hkeys [_ ->]%parse_sensors_json_inv base entries fields Hchip Hsensor.
  unfold sort_output, discovered;
    cbn [temps hdd_temps volts fans extend_groups SensorsData_init app].
  split; [|split; [|split]]; intros r Hr <-; rewrite sorted_Permutation in Hr.
  - eapply (record_holds e config Temp.base (temp_of e config)); eauto.
    + apply temp_of_identity.
    + apply temp_of_holds.
  - eapply (record_holds e config HddTemp.base (hdd_temp_of e config)); eauto.
    + apply hdd_temp_of_identity.
    + apply hdd_temp_of_holds.
  - eapply (record_holds e config FanSpeed.base (fan_of e config)); eauto.
    + apply fan_of_identity.
    + apply fan_of_holds.
  - eapply (record_holds e config Voltage.base (volt_of e config)); eauto.
    + apply volt_of_identity.
    + apply volt_of_holds.
Qed.

(** ** Chips in rank order *)

Section Blocks.
Context {A B : Type} (key : B -> Z) (k : A -> Z) (f : A -> list B).
Local Open Scope list_scope.

Lemma insert_by_front x l :
  match l with [] => True | y :: _ => key x <= key y end ->
  insert_by key x l = x :: l.
Proof.
  destruct l as [|y l]; simpl; [done|].
  intros Hle. by destruct (Z.leb_spec (key x) (key y)); [|lia].
Qed.

Lemma insert_by_past x (p l : list B) :
  Forall (fun y => key y < key x) p ->
  insert_by key x (p ++ l) = p ++ insert_by key x l.
Proof.
  induction 1 as [|y p Hy _ IH]; simpl; [done|].
  destruct (Z.leb_spec (key x) (key y)); [lia|]. by rewrite IH.
Qed.

(** A run of records of one key, inserted one by one from the last to
    the first, lands as it is in front of the records that do not come
    before it. *)
Lemma insert_block_front r (b l : list B) :
  Forall (fun x => key x = r) b ->
  Forall (fun y => r <= key y) l ->
  foldr (insert_by key) l b = b ++ l.
Proof.
  intros Hb Hl. induction Hb as [|x b Hx Hb IH]; simpl; [done|].
  rewrite IH. apply insert_by_front.
  destruct Hb as [|x' b Hx' Hb]; simpl.
  - destruct Hl as [|y l Hy Hl]; [done|lia].
  - lia.
Qed.

Lemma insert_block_past r (b p l : list B) :
  Forall (fun x => key x = r) b ->
  Forall (fun y => key y < r) p ->
  foldr (insert_by key) (p ++ l) b = p ++ foldr (insert_by key) l b.
Proof.
  intros Hb Hp. induction Hb as [|x b Hx Hb IH]; simpl; [done|].
  rewrite IH. apply insert_by_past.
  eapply Forall_impl; [exact Hp|]. simpl. intros y Hy. lia.
Qed.

Hypothesis key_of_block : forall a b, b ∈ f a -> key b = k a.

Lemma block_keys a : Forall (fun x => key x = k a) (f a).
Proof using Type*. apply Forall_forall. intros x Hx. by apply key_of_block. Qed.

Lemma insert_block a (l : list A) :
  StronglySorted (fun x y => k x <= k y) l ->
  foldr (insert_by key) (flat_map f l) (f a) = flat_map f (insert_by k a l).
Proof using Type*.
  induction 1 as [|y l Hl IH Hy]; simpl.
  - apply (insert_block_front (k a)); [apply block_keys|done].
  - destruct (Z.leb_spec (k a) (k y)) as [Hle|Hgt]; simpl.
    + apply (insert_block_front (k a)); [apply block_keys|].
      apply Forall_app. split.
      * eapply Forall_impl; [apply block_keys|]. simpl. intros x ->. lia.
      * apply Forall_forall. intros x Hx.
        apply list_elem_of_In, in_flat_map in Hx as (z & Hz & Hx).
        rewrite (key_of_block z x) by by apply list_elem_of_In.
        rewrite Forall_forall in Hy.
        specialize (Hy z (proj2 (list_elem_of_In _ _) Hz)). simpl in Hy. lia.
    + rewrite (insert_block_past (k a)); [by rewrite IH|apply block_keys|].
      eapply Forall_impl; [apply block_keys|]. simpl. intros x ->. lia.
Qed.

Lemma sorted_flat_map (l : list A) :
  sorted key (flat_map f l) = flat_map f (sorted k l).
Proof using Type*.
  induction l as [|a l IH]; [done|].
  unfold sorted in *. cbn [flat_map foldr]. rewrite foldr_app, IH.
  apply insert_block. apply (sorted_StronglySorted k).
Qed.
End Blocks.

Section ChipsInRankOrder.
Context `{Builtins} (e : edition) (config : ConfigParser).

Lemma temp_of_base g r : temp_of e config g = Some r -> Temp.base r = g_base e config g.
Proof.
  unfold temp_of. intros Hr. apply (merge_base _ _ Temp.base) in Hr; [done|].
  intros name value set a Hs. by apply (temp_route_base _ _ _ _ _ _ Hs).
Qed.

Lemma hdd_temp_of_base g r :
  hdd_temp_of e config g = Some r -> HddTemp.base r = g_base e config g.
Proof.
  unfold hdd_temp_of. intros Hr. apply (merge_base _ _ HddTemp.base) in Hr; [done|].
  intros name value set a Hs. by apply (hdd_temp_route_base _ _ _ _ _ _ Hs).
Qed.

Lemma volt_of_base g r : volt_of e config g = Some r -> Voltage.base r = g_base e config g.
Proof.
  unfold volt_of. intros Hr. apply (merge_base _ _ Voltage.base) in Hr; [done|].
  intros name value set a Hs. by apply (volt_route_base _ _ _ _ Hs).
Qed.

Lemma fan_of_base g r : fan_of e config g = Some r -> FanSpeed.base r = g_base e config g.
Proof.
  unfold fan_of. intros Hr. apply (merge_base _ _ FanSpeed.base) in Hr; [done|].
  intros name value set a Hs. by apply (fan_route_base _ _ _ _ Hs).
Qed.

Lemma chip_records_inv {A} (base : A -> Sensoer) (record_of : group -> option A)
    item r :
  (forall g r, record_of g = Some r -> base r = g_base e config g) ->
  r ∈ chip_records e config record_of item ->
  chip_id (base r) = item.1 /\ chip_order (base r) = get_chip_order e item.1.
Proof.
  intros Hbase (g & Hg & Hr)%list_elem_of_omap.
  rewrite (Hbase _ _ Hr). simpl.
  by rewrite (groups_of_chip_chip e config _ _ Hg).
Qed.

Lemma sorted_chip_records {A} (base : A -> Sensoer) (record_of : group -> option A)
    (sensors_json : dict json) :
  (forall g r, record_of g = Some r -> base r = g_base e config g) ->
  sorted (fun item => chip_order (base item))
    (flat_map (chip_records e config record_of) sensors_json)
  = flat_map (chip_records e config record_of)
      (sorted (fun item : string * json => get_chip_order e item.1) sensors_json).
Proof.
  intros Hbase. apply sorted_flat_map.
  intros item r Hr. by apply (chip_records_inv base record_of).
Qed.
End ChipsInRankOrder.

(** X8: a snapshot lists the chips of the raw tree by rank, the chips of
    one rank in the order of the tree, and under each chip its field groups
    in the order of the chip: each of the four sequences is the records of
    the chips taken one chip after the other from the raw tree sorted by
    rank. *)
Theorem snapshot_lists_chips_by_rank `{Builtins} (e : edition) (config : ConfigParser)
    (sensors_json : dict json) (output : SensorsData) :
  parse_sensors_json e config sensors_json = Ok output ->
  let chips := sorted (fun item : string * json => get_chip_order e item.1)
                 sensors_json in
  temps output = flat_map (chip_records e config (temp_of e config)) chips
  /\ hdd_temps output = flat_map (chip_records e config (hdd_temp_of e config)) chips
  /\ fans output = flat_map (chip_records e config (fan_of e config)) chips
  /\ volts output = flat_map (chip_records e config (volt_of e config)) chips.
Proof.
  intros [_ ->]%parse_sensors_json_inv chips. unfold chips, sort_output.
  cbn [temps hdd_temps fans volts].
  rewrite discovered_temps, discovered_hdd_temps, discovered_fans, discovered_volts.
  split; [|split; [|split]].
  - apply (sorted_chip_records e config Temp.base), temp_of_base.
  - apply (sorted_chip_records e config HddTemp.base), hdd_temp_of_base.
  - apply (sorted_chip_records e config FanSpeed.base), fan_of_base.
  - apply (sorted_chip_records e config Voltage.base), volt_of_base.
Qed.

(** ** Tables *)

Lemma loop_app {S X} (body : S -> X -> option S) (s : S) (xs ys : list X) :
  loop body s (xs ++ ys) = s' ← loop body s xs; loop body s' ys.
Proof.
  revert s. induction xs as [|x xs IH]; intros s; simpl; [done|].
  destruct (body s x) as [s'|]; simpl; [apply IH | done].
Qed.

Section Runs.
Context {A : Type} (base : A -> Sensoer) (row : A -> option (list Rich.renderable)).
Local Open Scope list_scope.

Lemma line_before_same c : line_before (Some c) c = [].
Proof. unfold line_before. by rewrite String.eqb_refl. Qed.

Lemma line_before_other c' c : c' <> c -> line_before (Some c') c = [Rich.add_section].
Proof.
  intros Hne. unfold line_before.
  by destruct (String.eqb_spec c' c).
Qed.

Lemma add_sensor_row_step calls last x :
  add_sensor_row base row (calls, last) x
  = cells ← row x;
    Some (calls ++ line_before last (chip_id (base x)) ++ [Rich.add_row cells],
          Some (chip_id (base x))).
Proof.
  unfold add_sensor_row, line_before.
  destruct (row x) as [cells|]; [|done]. cbn [mbind option_bind].
  destruct last as [last0|]; [|done].
  destruct (negb (String.eqb last0 (chip_id (base x)))); [|done].
  by rewrite <- app_assoc.
Qed.

(** The loop over the records of one chip: at most one line, before the
    first row. *)
Lemma loop_run c (run : list A) calls last :
  Forall (fun x => chip_id (base x) = c) run ->
  run <> [] ->
  loop (add_sensor_row base row) (calls, last) run
  = rows ← mapM row run;
    Some (calls ++ line_before last c ++ (Rich.add_row <$> rows), Some c).
Proof.
  intros Hc. revert calls last.
  induction Hc as [|x run Hx Hc IH]; intros calls last Hne; [done|].
  cbn [loop mapM]. rewrite add_sensor_row_step, Hx.
  destruct (row x) as [cells|]; [|done]. cbn [mbind option_bind].
  destruct run as [|x' run'].
  - done.
  - rewrite IH by done. rewrite line_before_same.
    destruct (mapM row (x' :: run')) as [rows|]; [|done].
    cbn [mbind option_bind mret option_ret fmap list_fmap app].
    by rewrite <- !app_assoc.
Qed.
Lemma join_sections_cons (run : list Rich.call) runs :
  join_sections (run :: runs)
  = run ++ match runs with [] => [] | _ => Rich.add_section :: join_sections runs end.
Proof. destruct runs; simpl; [by rewrite app_nil_r|done]. Qed.

(** The loop over the records of several chips, chip by chip: a line
    before the rows of every chip but the first. *)
Lemma loop_runs (bs : list (string * list A)) calls last :
  NoDup bs.*1 ->
  Forall (fun cb : string * list A =>
            cb.2 <> [] /\ Forall (fun x => chip_id (base x) = cb.1) cb.2) bs ->
  match last with Some c => c ∉ bs.*1 | None => True end ->
  fst <$> loop (add_sensor_row base row) (calls, last) (concat bs.*2)
  = rows ← mapM (mapM row) bs.*2;
    Some (calls
          ++ match last, bs with Some _, _ :: _ => [Rich.add_section] | _, _ => [] end
          ++ join_sections (fmap (M:=list) (fmap (M:=list) Rich.add_row) rows)).
Proof.
  revert calls last. induction bs as [|[c b] bs IH]; intros calls last Hnd Hall Hlast.
  - simpl. destruct last; by rewrite app_nil_r.
  - apply NoDup_cons in Hnd as [Hc Hnd].
    apply Forall_cons_1 in Hall as [[Hne Hb] Hall]. cbn [fst snd] in Hne, Hb.
    rewrite !fmap_cons. cbn [fst snd concat mapM].
    rewrite loop_app, (loop_run c b calls last Hb Hne).
    destruct (mapM row b) as [rows_b|]; [|done]. cbn [mbind option_bind].
    rewrite (IH _ (Some c) Hnd Hall Hc).
    pose proof (length_mapM (mapM row) bs.*2) as Hlen.
    destruct (mapM (mapM row) bs.*2) as [rows|]; [|done].
    specialize (Hlen rows eq_refl). rewrite length_fmap in Hlen.
    cbn [mbind option_bind mret option_ret fmap list_fmap].
    rewrite join_sections_cons. f_equal.
    assert (line_before last c
            = match last with Some _ => [Rich.add_section] | None => [] end) as ->.
    { destruct last as [c'|]; [|done]. apply line_before_other.
      intros ->. apply Hlast. apply list_elem_of_here. }
    rewrite <- !app_assoc. do 2 f_equal.
    destruct bs as [|cb bs]; destruct rows as [|r rows]; by rewrite ?app_nil_r.
Qed.
End Runs.

Section ChipRuns.
Context `{Builtins} (e : edition) (config : ConfigParser).
Context {A : Type} (base : A -> Sensoer) (record_of : group -> option A).
Local Open Scope list_scope.

(** The chips that have records of the category, each with its records. *)
Lemma chip_runs_paired (chips : dict json) :
  (forall g r, record_of g = Some r -> base r = g_base e config g) ->
  NoDup chips.*1 ->
  exists bs : list (string * list A),
    bs.*2 = chip_runs e config record_of chips
    /\ concat bs.*2 = flat_map (chip_records e config record_of) chips
    /\ bs.*1 ⊆ chips.*1
    /\ NoDup bs.*1
    /\ Forall (fun cb : string * list A =>
                 cb.2 <> [] /\ Forall (fun x => chip_id (base x) = cb.1) cb.2) bs.
Proof.
  intros Hbase. induction chips as [|item chips IH]; intros Hnd.
  - exists []. repeat split; try done; constructor.
  - apply NoDup_cons in Hnd as [Hitem Hnd].
    destruct (IH Hnd) as (bs & Hruns & Hcat & Hsub & Hbs & Hall).
    unfold chip_runs in *. rewrite fmap_cons. cbn [List.filter flat_map].
    destruct (chip_records e config record_of item) as [|r run] eqn:Hrun.
    + exists bs. rewrite bool_decide_eq_true_2 by done. cbn [negb].
      repeat split; try done. by apply list_subseteq_cons.
    + exists ((item.1, r :: run) :: bs).
      rewrite bool_decide_eq_false_2 by done. cbn [negb].
      rewrite !fmap_cons. cbn [fst snd concat].
      split; [by rewrite Hruns|]. split; [by rewrite Hcat|].
      split; [by apply list_subseteq_skip|]. split.
      * apply NoDup_cons. split; [|done]. intros Hin. by apply Hitem, Hsub.
      * constructor; [|done]. split; [done|]. cbn [fst snd].
        apply Forall_forall. intros x Hx. rewrite <- Hrun in Hx.
        by apply (chip_records_inv e config base record_of).
Qed.

Lemma table_of_chips (row : A -> option (list Rich.renderable)) (chips : dict json) :
  (forall g r, record_of g = Some r -> base r = g_base e config g) ->
  NoDup chips.*1 ->
  fst <$> loop (add_sensor_row base row) ([], None)
            (flat_map (chip_records e config record_of) chips)
  = sections row (chip_runs e config record_of chips).
Proof.
  intros Hbase Hnd.
  destruct (chip_runs_paired chips Hbase Hnd) as (bs & <- & <- & _ & Hbs & Hall).
  rewrite (loop_runs base row bs [] None Hbs Hall I).
  unfold sections. by destruct (mapM (mapM row) bs.*2).
Qed.

Lemma chip_runs_nil (chips : dict json) :
  chip_runs e config record_of chips = []
  <-> flat_map (chip_records e config record_of) chips = [].
Proof.
  unfold chip_runs. induction chips as [|item chips IH]; [done|].
  rewrite fmap_cons. cbn [List.filter flat_map].
  destruct (chip_records e config record_of item) as [|r run].
  - by rewrite bool_decide_eq_true_2.
  - rewrite bool_decide_eq_false_2 by done. split; done.
Qed.
End ChipRuns.

Lemma sorted_keys_unique {A} (key : string * A -> Z) (d : dict A) :
  keys_unique d = true -> NoDup (sorted key d).*1.
Proof.
  unfold keys_unique. intros Hd%bool_decide_eq_true.
  by rewrite sorted_Permutation.
Qed.

Lemma loop_drive_rows `{Builtins} `{Operators} calls (l : list HddTemp.t) :
  loop add_drive_row calls l
  = rows ← mapM hdd_temp_row l; Some (calls ++ (Rich.add_row <$> rows))%list.
Proof.
  revert calls. induction l as [|x l IH]; intros calls.
  - simpl. by rewrite app_nil_r.
  - cbn [loop mapM].
    change (add_drive_row calls x)
      with (cells ← hdd_temp_row x; Some (calls ++ [Rich.add_row cells])%list).
    destruct (hdd_temp_row x) as [cells|]; [|done]. cbn [mbind option_bind].
    rewrite IH. destruct (mapM hdd_temp_row l) as [rows|]; [|done].
    simpl. by rewrite <- app_assoc.
Qed.

Lemma drive_table_calls `{Builtins} `{Operators} (e : edition) (l : list HddTemp.t) :
  fmap (M:=option) Rich.calls <$> build_hdd_temp_table e l
  = plain_calls hdd_temp_row l.
Proof.
  unfold build_hdd_temp_table, plain_calls.
  destruct l as [|r l]; [done|].
  rewrite loop_drive_rows.
  by destruct (mapM hdd_temp_row (r :: l)).
Qed.

Section SnapshotTables.
Context `{Builtins} `{Operators} (e : edition) (config : ConfigParser).

Lemma lined_table_calls {A} (base : A -> Sensoer) (record_of : group -> option A)
    (row : A -> option (list Rich.renderable)) (chips : dict json)
    (build : list A -> option (option Rich.Table)) (columns : list Rich.Column) :
  (forall l,
     build l = match l return option (option Rich.Table) with
               | [] => Some None
               | _ => st ← loop (add_sensor_row base row) ([], None) l;
                      Some (Some {| Rich.box := "MINIMAL"; Rich.columns := columns;
                                    Rich.calls := st.1 |})
               end) ->
  (forall g r, record_of g = Some r -> base r = g_base e config g) ->
  NoDup chips.*1 ->
  fmap (M:=option) Rich.calls <$> build (flat_map (chip_records e config record_of) chips)
  = lined_calls row (chip_runs e config record_of chips).
Proof.
  intros Hbuild Hbase Hnd. rewrite Hbuild. unfold lined_calls.
  pose proof (chip_runs_nil e config record_of chips) as Hnil.
  rewrite <- (table_of_chips e config base record_of row chips Hbase Hnd).
  destruct (flat_map (chip_records e config record_of) chips) as [|r l] eqn:Hl.
  - by rewrite (proj2 Hnil eq_refl).
  - destruct (chip_runs e config record_of chips) as [|run runs];
      [by pose proof (proj1 Hnil eq_refl)|].
    by destruct (loop _ _ _) as [[calls last]|].
Qed.
End SnapshotTables.

(** X9: in the tables of temperatures, voltages and fans of a snapshot,
    the rows of one chip make one section: on a raw tree whose chip ids are
    distinct, the builder makes the rows chip by chip, the chips by rank and
    under each chip its records in the order of the snapshot, with one line
    between two chips and none elsewhere; the table of the drives has one row
    per record and no line.  A builder gives no table when the snapshot has
    no record for it, and raises exactly when a row does. *)
Theorem tables_one_section_per_chip `{Builtins} `{Operators} (e : edition)
    (config : ConfigParser) (sensors_json : dict json) (output : SensorsData) :
  keys_unique sensors_json = true ->
  parse_sensors_json e config sensors_json = Ok output ->
  let chips := sorted (fun item : string * json => get_chip_order e item.1)
                 sensors_json in
  fmap (M:=option) Rich.calls <$> build_temp_table e (temps output)
  = lined_calls temp_row (chip_runs e config (temp_of e config) chips)
  /\ fmap (M:=option) Rich.calls <$> build_voltage_table e (volts output)
     = lined_calls voltage_row (chip_runs e config (volt_of e config) chips)
  /\ fmap (M:=option) Rich.calls <$> build_fans_table e (fans output)
     = lined_calls fan_row (chip_runs e config (fan_of e config) chips)
  /\ fmap (M:=option) Rich.calls <$> build_hdd_temp_table e (hdd_temps output)
     = plain_calls hdd_temp_row (hdd_temps output).
Proof.
  intros Hkeys [_ ->]%parse_sensors_json_inv chips. unfold chips. clear chips.
  pose proof (sorted_keys_unique
                (fun item : string * json => get_chip_order e item.1) _ Hkeys) as Hnd.
  unfold sort_output. cbn [temps hdd_temps fans volts].
  rewrite discovered_temps, discovered_fans, discovered_volts.
  rewrite (sorted_chip_records e config Temp.base) by apply temp_of_base.
  rewrite (sorted_chip_records e config Voltage.base) by apply volt_of_base.
  rewrite (sorted_chip_records e config FanSpeed.base) by apply fan_of_base.
  split; [|split; [|split]].
  - eapply (lined_table_calls e config Temp.base); [|apply temp_of_base|exact Hnd].
    by intros [|r l].
  - eapply (lined_table_calls e config Voltage.base); [|apply volt_of_base|exact Hnd].
    by intros [|r l].
  - eapply (lined_table_calls e config FanSpeed.base); [|apply fan_of_base|exact Hnd].
    by intros [|r l].
  - apply drive_table_calls.
Qed.

(** ** The layout *)

Section LayoutFacts.
Context `{Builtins} `{Operators} (e : edition) (config : ConfigParser).

Lemma build_sensors_ui_dashboard (sensors_json : dict json) :
  build_sensors_ui e config sensors_json
  = match parse_sensors_json e config sensors_json with
    | Raise _ => None
    | Ok sensors_data =>
        tables ← build_tables e sensors_data;
        let '(temp, hdd, fans, volt) := tables in
        Some (dashboard e temp hdd fans volt)
    end.
Proof.
  unfold build_sensors_ui, build_tables.
  destruct (parse_sensors_json e config sensors_json) as [sensors_data|]; [|done].
  destruct e;
    destruct (build_temp_table _ _) as [[temp|]|];
    destruct (build_hdd_temp_table _ _) as [[hdd|]|];
    destruct (build_fans_table _ _) as [[fans|]|];
    destruct (build_voltage_table _ _) as [[volt|]|]; reflexivity.
Qed.

Lemma build_temp_table_is_Some l table :
  build_temp_table e l = Some table -> is_Some table <-> l <> [].
Proof.
  unfold build_temp_table. destruct l as [|r l].
  - intros [= <-]. split; [by intros [? ?]|done].
  - destruct (loop _ _ _); [|done]. intros [= <-]. split; [done|eauto].
Qed.

Lemma build_hdd_temp_table_is_Some l table :
  build_hdd_temp_table e l = Some table -> is_Some table <-> l <> [].
Proof.
  unfold build_hdd_temp_table. destruct l as [|r l].
  - intros [= <-]. split; [by intros [? ?]|done].
  - destruct (loop _ _ _); [|done]. intros [= <-]. split; [done|eauto].
Qed.

Lemma build_fans_table_is_Some l table :
  build_fans_table e l = Some table -> is_Some table <-> l <> [].
Proof.
  unfold build_fans_table. destruct l as [|r l].
  - intros [= <-]. split; [by intros [? ?]|done].
  - destruct (loop _ _ _); [|done]. intros [= <-]. split; [done|eauto].
Qed.

Lemma build_voltage_table_is_Some l table :
  build_voltage_table e l = Some table -> is_Some table <-> l <> [].
Proof.
  unfold build_voltage_table. destruct l as [|r l].
  - intros [= <-]. split; [by intros [? ?]|done].
  - destruct (loop _ _ _); [|done]. intros [= <-]. split; [done|eauto].
Qed.

Lemma sorted_nil {A} (key : A -> Z) (l : list A) : sorted key l = [] <-> l = [].
Proof.
  split; [|by intros ->].
  intros Hs. apply Permutation_nil_r. rewrite <- Hs. by rewrite sorted_Permutation.
Qed.

Lemma no_records_iff {A} (record_of : group -> option A)
    (feeds : string -> string -> bool) (gs : list group) :
  (forall g, is_Some (record_of g) <-> contributes feeds g = true) ->
  omap record_of gs = [] <-> has_records feeds gs = false.
Proof.
  intros Hfeeds. unfold has_records.
  induction gs as [|g gs IH]; [done|].
  change (omap record_of (g :: gs))
    with (match record_of g with
          | Some r => r :: omap record_of gs
          | None => omap record_of gs
          end).
  cbn [existsb]. destruct (record_of g) as [r|] eqn:Hr.
  - rewrite (proj1 (Hfeeds g)) by (rewrite Hr; eauto). split; done.
  - destruct (contributes feeds g) eqn:Hc; [|done].
    apply Hfeeds in Hc as [r Hr']. congruence.
Qed.

Lemma records_iff_has_records {A} (base : A -> Sensoer)
    (record_of : group -> option A) (feeds : string -> string -> bool)
    (gs : list group) :
  (forall g, is_Some (record_of g) <-> contributes feeds g = true) ->
  sorted (fun item => chip_order (base item)) (omap record_of gs) <> []
  <-> has_records feeds gs = true.
Proof.
  intros Hfeeds. rewrite sorted_nil, (no_records_iff record_of feeds gs Hfeeds).
  by destruct (has_records feeds gs).
Qed.
End LayoutFacts.

(** X10: [build_sensors_ui] gives a layout exactly when the classifier
    returns and no row of the four tables raises, and the layout is then the
    dashboard of the edition for the four tables: every region that the
    program names is found, one region per category in pylmsensonrs/sm.py
    under two sides, and in src/sensors-monitor.py three regions side by
    side, the left one for both temperature tables, the generic one
    first. *)
Theorem ui_is_dashboard `{Builtins} `{Operators} (e : edition) (config : ConfigParser)
    (sensors_json : dict json) (layout : Rich.Layout) :
  build_sensors_ui e config sensors_json = Some layout
  <-> exists sensors_data temp hdd fans volt,
        parse_sensors_json e config sensors_json = Ok sensors_data
        /\ build_tables e sensors_data = Some (temp, hdd, fans, volt)
        /\ layout = dashboard e temp hdd fans volt.
Proof.
  rewrite build_sensors_ui_dashboard.
  destruct (parse_sensors_json e config sensors_json) as [sensors_data|ex].
  - destruct (build_tables e sensors_data) as [[[[temp hdd] fans] volt]|] eqn:Ht;
      cbn [mbind option_bind]; split.
    + intros [= <-]. by exists sensors_data, temp, hdd, fans, volt.
    + intros (? & ? & ? & ? & ? & [= <-] & Ht' & ->).
      rewrite Ht in Ht'. by injection Ht' as <- <- <- <-.
    + done.
    + intros (? & ? & ? & ? & ? & [= <-] & Ht' & _). by rewrite Ht in Ht'.
  - split; [done|]. by intros (? & ? & ? & ? & ? & [=] & _).
Qed.

Lemma bool_decide_reflects (P : Prop) `{Decision P} (b : bool) :
  (P <-> b = true) -> bool_decide P = b.
Proof.
  intros HP. destruct b.
  - apply bool_decide_eq_true_2. by apply HP.
  - apply bool_decide_eq_false_2. intros HP'. by apply HP in HP'.
Qed.

Section Regions.
Context `{Builtins} `{Operators} (e : edition) (config : ConfigParser).

Lemma build_tables_has_records sensors_json sensors_data t1 t2 t3 t4 :
  parse_sensors_json e config sensors_json = Ok sensors_data ->
  build_tables e sensors_data = Some (t1, t2, t3, t4) ->
  let gs := visible_groups e config sensors_json in
  bool_decide (is_Some t1) = has_records (feeds_temp e) gs
  /\ bool_decide (is_Some t2) = has_records (feeds_hdd_temp e) gs
  /\ bool_decide (is_Some t3) = has_records (fun _ => feeds_fan) gs
  /\ bool_decide (is_Some t4) = has_records (fun _ => feeds_volt) gs.
Proof.
  intros [_ ->]%parse_sensors_json_inv Htables gs. unfold build_tables in Htables.
  destruct (build_temp_table _ _) as [temp'|] eqn:Htemp; [|done].
  destruct (build_hdd_temp_table _ _) as [hdd'|] eqn:Hhdd; [|done].
  destruct (build_fans_table _ _) as [fans'|] eqn:Hfans; [|done].
  destruct (build_voltage_table _ _) as [volt'|] eqn:Hvolt; [|done].
  injection Htables as -> -> -> ->.
  apply build_temp_table_is_Some in Htemp.
  apply build_hdd_temp_table_is_Some in Hhdd.
  apply build_fans_table_is_Some in Hfans.
  apply build_voltage_table_is_Some in Hvolt.
  unfold sort_output, discovered in *.
  cbn [temps hdd_temps fans volts extend_groups SensorsData_init app] in *.
  rewrite (records_iff_has_records Temp.base _ (feeds_temp e)) in Htemp
    by apply temp_of_contributes.
  rewrite (records_iff_has_records HddTemp.base _ (feeds_hdd_temp e)) in Hhdd
    by apply hdd_temp_of_contributes.
  rewrite (records_iff_has_records FanSpeed.base _ (fun _ => feeds_fan)) in Hfans
    by apply fan_of_contributes.
  rewrite (records_iff_has_records Voltage.base _ (fun _ => feeds_volt)) in Hvolt
    by apply volt_of_contributes.
  fold gs in Htemp, Hhdd, Hfans, Hvolt.
  repeat split; by apply bool_decide_reflects.
Qed.
End Regions.

(** X11: the dashboard shows a region exactly when the raw tree holds
    something for it.  A region for a category is visible when some field
    group that the classifier scans has a field feeding the category, shows
    then the panel of that category, and is hidden otherwise; a side of
    pylmsensonrs/sm.py is visible when one of its two regions is.  So no
    region under the root is visible with nothing to show. *)
Theorem dashboard_shows_what_the_tree_holds `{Builtins} `{Operators} (e : edition)
    (config : ConfigParser) (sensors_json : dict json) (layout : Rich.Layout) :
  build_sensors_ui e config sensors_json = Some layout ->
  let gs := visible_groups e config sensors_json in
  let temp := has_records (feeds_temp e) gs in
  let hdd := has_records (feeds_hdd_temp e) gs in
  let fan := has_records (fun _ => feeds_fan) gs in
  let volt := has_records (fun _ => feeds_volt) gs in
  match e with
  | Package =>
      shows layout "lside_top" "[bold cyan]System Temperatures[/bold cyan]" temp
      /\ shows layout "lside_bottom" "[bold cyan]Drives Temperatures[/bold cyan]" hdd
      /\ shows layout "rside_top" "[bold cyan]Fans[/bold cyan]" fan
      /\ shows layout "rside_bottom" "[bold cyan]Voltages[/bold cyan]" volt
      /\ region_visible "lside" layout = Some (temp || hdd)
      /\ region_visible "rside" layout = Some (fan || volt)
  | Script =>
      shows layout "lside" "[bold cyan]Temperatures[/bold cyan]" (temp || hdd)
      /\ shows layout "main" "[bold cyan]Voltages[/bold cyan]" volt
      /\ shows layout "rside" "[bold cyan]Fans[/bold cyan]" fan
  end
  /\ forallb (fun region => implb (Rich.is_visible region) (filled region))
       (tail (regions layout)) = true.
Proof.
  rewrite build_sensors_ui_dashboard.
  destruct (parse_sensors_json e config sensors_json) as [sensors_data|ex] eqn:Hp;
    [|done].
  destruct (build_tables e sensors_data) as [[[[t1 t2] t3] t4]|] eqn:Ht; [|done].
  cbn [mbind option_bind]. intros [= <-]. cbv zeta.
  destruct (build_tables_has_records e config _ _ _ _ _ _ Hp Ht)
    as (Htemp & Hhdd & Hfan & Hvolt).
  cbv zeta in Htemp, Hhdd, Hfan, Hvolt.
  rewrite <- Htemp, <- Hhdd, <- Hfan, <- Hvolt.
  destruct e, t1, t2, t3, t4; vm_compute; repeat split; reflexivity.
Qed.

(** ** Cells and tiers *)

Lemma plain_operators_float : float_operators (H:=plain_operators).
Proof. repeat split. Qed.

Lemma style_of_normal (t : Text) : tier_of t = Some normal -> style t = "green".
Proof.
  unfold tier_of. destruct (plain t); [done| |];
    (destruct (String.eqb_spec (style t) "green"); [done|]);
    by repeat case_match.
Qed.

(** X12: on float readings the cells of the tables follow the tier
    rules: when the operators of the interpreter are the arithmetic and the
    comparisons of floats, the temperature cell of a row carries the style
    that [get_colored_temp] gives to the reading and its high threshold, and
    the voltage cell the style that [get_colored_voltage] gives to the
    reading and its bounds; neither raises but for the format of the
    voltage, and a missing reading gives an empty cell with no style.  With
    no threshold a temperature below [sys.maxsize * 0.6] is shown in green,
    and with no bounds so is a voltage from [-2^63] up to, and not
    including, [2^63]. *)
Theorem cells_follow_tiers `{Builtins} `{Operators} :
  float_operators ->
  (forall temp high : option float,
     Raw.get_colored_temp (reading temp) (reading high)
     = Some {| Rich.plain := match temp with
                             | None => ""
                             | Some t => py_str (JFloat t) +:+ "°C"
                             end;
               Rich.style := style (get_colored_temp temp high) |})
  /\ (forall voltage min_voltage max_voltage : option float,
        Raw.get_colored_voltage (reading voltage) (reading min_voltage)
          (reading max_voltage)
        = match voltage with
          | None => Some {| Rich.plain := ""; Rich.style := "" |}
          | Some v =>
              text ← py_format (JFloat v) ".2f";
              Some {| Rich.plain := text +:+ "V";
                      Rich.style := style (get_colored_voltage voltage min_voltage
                                             max_voltage) |}
          end)
  /\ (forall temp : float,
        (temp <? float_of_int sys_maxsize * 0.6)%float = true ->
        Raw.get_colored_temp (JFloat temp) JNull
        = Some {| Rich.plain := py_str (JFloat temp) +:+ "°C";
                  Rich.style := "green" |})
  /\ (forall voltage : float,
        (float_of_int (- sys_maxsize - 1) <=? voltage)%float = true ->
        (voltage <? float_of_int sys_maxsize)%float = true ->
        Raw.get_colored_voltage (JFloat voltage) JNull JNull
        = (text ← py_format (JFloat voltage) ".2f";
           Some {| Rich.plain := text +:+ "V"; Rich.style := "green" |})).
Proof.
  intros (Hmul & Hmuli & Hge & Hlt & Hlti & Hgt & Hgti).
  assert (forall temp high : option float,
     Raw.get_colored_temp (reading temp) (reading high)
     = Some {| Rich.plain := match temp with
                             | None => ""
                             | Some t => py_str (JFloat t) +:+ "°C"
                             end;
               Rich.style := style (get_colored_temp temp high) |}) as Htemp.
  { intros [t|] high; [|done].
    unfold Raw.get_colored_temp, get_colored_temp. cbn [reading].
    destruct high as [h|]; cbn [reading].
    + rewrite !Hmul. cbn [mbind option_bind]. rewrite !Hge. cbn [mbind option_bind].
      cbn [number_mul].
      destruct (h * 0.8 <=? t)%float; [done|]. by destruct (h * 0.6 <=? t)%float.
    + rewrite !Hmuli. cbn [mbind option_bind]. rewrite !Hge. cbn [mbind option_bind].
      destruct (number_mul (PyInt sys_maxsize) 0.8 <=? t)%float; [done|].
      by destruct (number_mul (PyInt sys_maxsize) 0.6 <=? t)%float. }
  assert (forall voltage min_voltage max_voltage : option float,
        Raw.get_colored_voltage (reading voltage) (reading min_voltage)
          (reading max_voltage)
        = match voltage with
          | None => Some {| Rich.plain := ""; Rich.style := "" |}
          | Some v =>
              text ← py_format (JFloat v) ".2f";
              Some {| Rich.plain := text +:+ "V";
                      Rich.style := style (get_colored_voltage voltage min_voltage
                                             max_voltage) |}
          end) as Hvolt.
  { intros [v|] lo hi; [|done].
    unfold Raw.get_colored_voltage, get_colored_voltage. cbn [reading].
    destruct lo as [lo|], hi as [hi|]; cbn [reading from_option];
      rewrite ?Hlt, ?Hlti; cbn [mbind option_bind];
      (match goal with |- context [float_lt v ?n] => destruct (float_lt v n) end;
       [by destruct (py_format _ _)|]);
      rewrite ?Hgt, ?Hgti; cbn [mbind option_bind];
      (match goal with |- context [float_gt v ?n] => destruct (float_gt v n) end;
       by destruct (py_format _ _)). }
  split; [exact Htemp|]. split; [exact Hvolt|]. split.
  - intros temp Hbelow.
    change (Raw.get_colored_temp (JFloat temp) JNull)
      with (Raw.get_colored_temp (reading (Some temp)) (reading None)).
    rewrite Htemp.
    by rewrite (style_of_normal _ (unbounded_temp_normal temp Hbelow)).
  - intros voltage Hlow Hhigh.
    change (Raw.get_colored_voltage (JFloat voltage) JNull JNull)
      with (Raw.get_colored_voltage (reading (Some voltage)) (reading None)
              (reading None)).
    rewrite Hvolt.
    by rewrite (style_of_normal _ (unbounded_voltage_normal voltage Hlow Hhigh)).
Qed.

(** ** Labels *)

Lemma existsb_impl {A} (f g : A -> bool) (l : list A) :
  (forall x, f x = true -> g x = true) -> existsb f l = true -> existsb g l = true.
Proof.
  intros Hfg. rewrite !existsb_exists. intros (x & Hx & Hf). exists x. auto.
Qed.

Section Labels.
Context `{Builtins} (e : edition) (config : ConfigParser).

Lemma custom_label_resolves section key fallback :
  match e with
  | Package => get_config_value config section key t_str (Some fallback)
  | Script =>
      if has_section config section && has_option config section key
      then Some <$> config_get config section key
      else Ok (Some fallback)
  end
  = Some <$> custom e config section key fallback.
Proof.
  unfold custom, get_config_value, stored, config_get. destruct e.
  - destruct (nonempty section && nonempty key); cbn [andb]; [|done].
    destruct (has_section config section && has_option config section key) eqn:Hk.
    + destruct (has_option_stored _ _ _ Hk) as [value ->]. done.
    + by rewrite (no_option_stored _ _ _ Hk).
  - destruct (has_section config section && has_option config section key) eqn:Hk.
    + destruct (has_option_stored _ _ _ Hk) as [value ->]. done.
    + by rewrite (no_option_stored _ _ _ Hk).
Qed.

(** A group some record of the snapshot comes from has a field that a
    category takes. *)
Lemma bases_discovered_recognised sensors_json b :
  b ∈ bases (discovered e config sensors_json) ->
  exists g, g ∈ visible_groups e config sensors_json /\ b = g_base e config g
    /\ existsb (fun field : string * json => recognised e (g_chip g) field.1)
         (g_fields g) = true.
Proof.
  unfold bases, discovered, extend_groups; simpl.
  rewrite !elem_of_app.
  intros [Hb|[Hb|[Hb|Hb]]];
    apply list_elem_of_fmap in Hb as (r & -> & Hr);
    apply list_elem_of_omap in Hr as (g & Hg & Hr); exists g; (split; [done|]).
  - split.
    + unfold volt_of in Hr. apply (merge_base _ _ Voltage.base) in Hr; [done|].
      intros name value set a Hs. by apply (volt_route_base _ _ _ _ Hs).
    + assert (contributes (fun _ => feeds_volt) g = true) as Hc
        by (by apply (volt_of_contributes e config); rewrite Hr).
      revert Hc. apply existsb_impl. intros field. apply feeds_volt_recognised.
  - split.
    + unfold temp_of in Hr. apply (merge_base _ _ Temp.base) in Hr; [done|].
      intros name value set a Hs. by apply (temp_route_base _ _ _ _ _ _ Hs).
    + assert (contributes (feeds_temp e) g = true) as Hc
        by (by apply (temp_of_contributes e config); rewrite Hr).
      revert Hc. apply existsb_impl. intros field. apply feeds_temp_recognised.
  - split.
    + unfold hdd_temp_of in Hr. apply (merge_base _ _ HddTemp.base) in Hr; [done|].
      intros name value set a Hs. by apply (hdd_temp_route_base _ _ _ _ _ _ Hs).
    + assert (contributes (feeds_hdd_temp e) g = true) as Hc
        by (by apply (hdd_temp_of_contributes e config); rewrite Hr).
      revert Hc. apply existsb_impl. intros field. apply feeds_hdd_temp_recognised.
  - split.
    + unfold fan_of in Hr. apply (merge_base _ _ FanSpeed.base) in Hr; [done|].
      intros name value set a Hs. by apply (fan_route_base _ _ _ _ Hs).
    + assert (contributes (fun _ => feeds_fan) g = true) as Hc
        by (by apply (fan_of_contributes e config); rewrite Hr).
      revert Hc. apply existsb_impl. intros field. apply feeds_fan_recognised.
Qed.

(** The constructor returned for every record of a snapshot. *)
Lemma record_labels_ok sensors_json output b :
  parse_sensors_json e config sensors_json = Ok output ->
  b ∈ bases output ->
  exists g, b = g_base e config g
    /\ is_ok (get_custom_chip_label e config (g_chip g)) = true
    /\ is_ok (get_custom_sensor_label e config (g_chip g) (g_sensor g)) = true.
Proof.
  intros [Hnone ->]%parse_sensors_json_inv Hb.
  rewrite bases_sort_output in Hb.
  apply bases_discovered_recognised in Hb as (g & Hg & -> & Hrec).
  exists g. split; [done|].
  destruct (visible_groups_item e config _ _ Hg) as (item & Hitem & Hgi).
  destruct (groups_of_chip_shown e config _ _ Hgi)
    as (Hc & Hcv%shown_true & Hsv%shown_true & entries & Hdata & _ & Hentry).
  unfold first_failure in Hnone. rewrite head_omap_None, Forall_forall in Hnone.
  specialize (Hnone item Hitem). unfold chip_failure in Hnone.
  rewrite Hcv, Hdata in Hnone.
  rewrite head_omap_None, Forall_forall in Hnone.
  specialize (Hnone _ Hentry). unfold entry_failure in Hnone. cbn [fst snd] in Hnone.
  rewrite Hsv in Hnone. rewrite <- Hc in Hnone. rewrite Hrec in Hnone.
  by apply init_failure_labels.
Qed.

Lemma row_label_resolves sensors_json output b :
  parse_sensors_json e config sensors_json = Ok output ->
  b ∈ bases output ->
  exists chip_text sensor_text,
    custom e config (chip_id b) "label" (chip_id b) = Ok chip_text
    /\ custom e config (chip_id b) (sensor_id b) (sensor_id b) = Ok sensor_text
    /\ row_label b = chip_text +:+ " " +:+ sensor_text.
Proof.
  intros Hp Hb.
  destruct (record_labels_ok _ _ _ Hp Hb) as (g & -> & Hcl & Hsl).
  unfold row_label, g_base, base_of; cbn [chip_id sensor_id chip_label sensor_label].
  unfold get_custom_chip_label, get_custom_sensor_label in *.
  rewrite !custom_label_resolves in *.
  destruct (custom e config (g_chip g) "label" (g_chip g)) as [chip_text|]; [|done].
  destruct (custom e config (g_chip g) (g_sensor g) (g_sensor g)) as [sensor_text|];
    [|done].
  by exists chip_text, sensor_text.
Qed.
End Labels.

(** X13: the first cell of a row names the chip and the sensor as the
    configuration labels them: for every record of a snapshot it is the
    [label] option of the section of the chip as the parser returns it, so
    interpolated, or the chip id when the section has none, then a space,
    then the option of that section named as the sensor id, or the sensor id
    when there is none.  Neither look-up raises, and the text ["None"] never
    stands for a label.  Options are found whatever the case of the letters
    of the sensor id, as [str.lower] has it: two ids with one lower-case
    form, both empty or neither, have one label. *)
Theorem row_labels_resolve `{Builtins} (e : edition) (config : ConfigParser)
    (sensors_json : dict json) (output : SensorsData) (b : Sensoer) :
  parse_sensors_json e config sensors_json = Ok output ->
  b ∈ bases output ->
  (exists chip_text sensor_text,
     custom e config (chip_id b) "label" (chip_id b) = Ok chip_text
     /\ custom e config (chip_id b) (sensor_id b) (sensor_id b) = Ok sensor_text
     /\ row_label b = chip_text +:+ " " +:+ sensor_text)
  /\ forall sensor,
       lower sensor = lower (sensor_id b) ->
       nonempty sensor = nonempty (sensor_id b) ->
       custom e config (chip_id b) sensor (sensor_id b)
       = custom e config (chip_id b) (sensor_id b) (sensor_id b).
Proof.
  intros Hp Hb.
  split; [by eapply row_label_resolves|].
  intros sensor Hlower Hempty.
  unfold custom, stored, stored_value, optionxform. by rewrite Hlower, Hempty.
Qed.

(** ** The further properties, applied *)

Lemma snapshot_one_record_per_sensor_applied :
  (tree_keys_unique sample_tree = true
   /\ parse_sensors_json (H:=plain_builtins) Package sample_config sample_tree
      = Ok sample_snapshot)
  /\ (length (temps sample_snapshot) = 3%nat
      /\ NoDup ((fun r => identity (Temp.base r)) <$> temps sample_snapshot))
  /\ records_hold FanSpeed.base fan_holds
       (visible_groups (H:=plain_builtins) Package sample_config sample_tree)
       (fans sample_snapshot).
Proof.
  split; [by vm_compute|].
  destruct (proj1 (snapshot_one_record_per_sensor (H:=plain_builtins))
              Package sample_config sample_tree sample_snapshot)
    as (_ & ((Hnd & Hlen & _) & _) & _ & _ & (_ & Hfans) & _);
    [by vm_compute | by vm_compute |].
  split; [|exact Hfans].
  split; [|exact Hnd]. rewrite Hlen. by vm_compute.
Defined.

Lemma snapshot_records_shown_applied :
  (parse_sensors_json (H:=plain_builtins) Package sample_config sample_tree
   = Ok sample_snapshot
   /\ sample_board_base "fan3" ∈ bases sample_snapshot)
  /\ is_sensoer_visible (H:=plain_builtins) Package sample_config
       "nct6775-isa-0290" "fan3" = Ok true.
Proof.
  split.
  - split; [by vm_compute|].
    unfold bases. rewrite !elem_of_app. do 3 right.
    vm_compute. apply list_elem_of_here.
  - apply (snapshot_records_shown (H:=plain_builtins) Package sample_config
             sample_tree sample_snapshot (sample_board_base "fan3")).
    + by vm_compute.
    + unfold bases. rewrite !elem_of_app. do 3 right.
      vm_compute. apply list_elem_of_here.
Defined.

Lemma hidden_chip_dropped_applied :
  is_chip_visible (H:=plain_builtins) Package sample_config "acpitz-acpi-0" = Ok false
  /\ sequences
       <$> parse_sensors_json (H:=plain_builtins) Package sample_config
             (("acpitz-acpi-0", JString "thermal zone") :: sample_tree)
     = sequences
       <$> parse_sensors_json (H:=plain_builtins) Package sample_config sample_tree.
Proof.
  split; [by vm_compute|].
  apply (hidden_chip_dropped (H:=plain_builtins) Package sample_config
           [] sample_tree "acpitz-acpi-0" (JString "thermal zone")).
  by vm_compute.
Defined.

Lemma hidden_sensor_dropped_applied :
  is_sensoer_visible (H:=plain_builtins) Package sample_config
    "nct6775-isa-0290" "fan1" = Ok false
  /\ sequences
       <$> parse_sensors_json (H:=plain_builtins) Package sample_config sample_tree
     = sequences
       <$> parse_sensors_json (H:=plain_builtins) Package sample_config
             (("nct6775-isa-0290",
               JObject (("Adapter", JString "ISA adapter") :: tail sample_board_entries))
              :: sample_other_chips).
Proof.
  split; [by vm_compute|].
  apply (proj2 (hidden_sensor_dropped (H:=plain_builtins) Package sample_config
                  [] sample_other_chips "nct6775-isa-0290"
                  [("Adapter", JString "ISA adapter")] (tail sample_board_entries)
                  "fan1" (JObject [("fan1_input", JFloat 900); ("fan1_min", JFloat 0)])
                  ltac:(by vm_compute))).
  done.
Defined.

Lemma comma_in_id_never_hidden_applied :
  contains "," "fan1,fan2" = true
  /\ hidden_list (H:=plain_builtins) Package sample_config "nct6775-isa-0290"
     = Ok ["fan1"; "fan2"]
  /\ is_sensoer_visible (H:=plain_builtins) Package sample_config
       "nct6775-isa-0290" "fan1,fan2" = Ok true
  /\ match is_sensoer_visible (H:=plain_builtins) Package sample_config
             "nct6775-isa-0290" "fan1,fan2" with
     | Ok visible => visible = true
     | Raise ex =>
         config_get (H:=plain_builtins) sample_config "nct6775-isa-0290"
           "hidden_sensoers" = Raise ex
     end.
Proof.
  split; [by vm_compute|]. split; [by vm_compute|]. split; [by vm_compute|].
  apply (comma_in_id_never_hidden (H:=plain_builtins)). by vm_compute.
Defined.

Lemma classifier_raises_on_first_failing_chip_applied :
  parse_sensors_json (H:=plain_builtins) Package percent_config sample_tree
  = Raise InterpolationSyntaxError
  /\ exists (t1 : dict json) chip data (t2 : dict json),
       sample_tree = (t1 ++ (chip, data) :: t2)%list
       /\ Forall (chip_passes (H:=plain_builtins) Package percent_config) t1
       /\ (forall t2' : dict json,
             parse_sensors_json (H:=plain_builtins) Package percent_config
               (t1 ++ (chip, data) :: t2') = Raise InterpolationSyntaxError)
       /\ chip_stops (H:=plain_builtins) Package percent_config (chip, data)
            InterpolationSyntaxError.
Proof.
  split; [by vm_compute|].
  apply (classifier_raises_on_first_failing_chip (H:=plain_builtins) Package
           percent_config sample_tree InterpolationSyntaxError).
  by vm_compute.
Defined.

Lemma snapshot_reads_back_applied :
  (tree_keys_unique sample_tree = true
   /\ parse_sensors_json (H:=plain_builtins) Package sample_config sample_tree
      = Ok sample_snapshot)
  /\ forall r, r ∈ hdd_temps sample_snapshot ->
       HddTemp.base r = sample_drive_base ->
       hdd_temp_holds sample_drive_fields r.
Proof.
  split; [by vm_compute|].
  apply (snapshot_reads_back (H:=plain_builtins) Package sample_config sample_tree
           sample_snapshot ltac:(by vm_compute) ltac:(by vm_compute)
           sample_drive_base
           [("Adapter", JString "SCSI adapter");
            ("temp1", JObject sample_drive_fields)]).
  - unfold sample_tree, sample_other_chips.
    repeat first [apply list_elem_of_here | apply list_elem_of_further].
  - repeat first [apply list_elem_of_here | apply list_elem_of_further].
Defined.

Lemma snapshot_lists_chips_by_rank_applied :
  parse_sensors_json (H:=plain_builtins) Package sample_config sample_tree
  = Ok sample_snapshot
  /\ temps sample_snapshot
     = flat_map (chip_records (H:=plain_builtins) Package sample_config
                   (temp_of (H:=plain_builtins) Package sample_config))
         (sorted (fun item : string * json => get_chip_order Package item.1)
            sample_tree).
Proof.
  split; [by vm_compute|].
  apply (snapshot_lists_chips_by_rank (H:=plain_builtins) Package sample_config
           sample_tree sample_snapshot).
  by vm_compute.
Defined.

Lemma tables_one_section_per_chip_applied :
  (keys_unique sample_tree = true
   /\ parse_sensors_json (H:=plain_builtins) Package sample_config sample_tree
      = Ok sample_snapshot)
  /\ fmap (M:=option) Rich.calls
       <$> build_temp_table (H:=plain_builtins) (H0:=plain_operators) Package
             (temps sample_snapshot)
     = lined_calls (temp_row (H:=plain_builtins) (H0:=plain_operators))
         (chip_runs (H:=plain_builtins) Package sample_config
            (temp_of (H:=plain_builtins) Package sample_config)
            (sorted (fun item : string * json => get_chip_order Package item.1)
               sample_tree)).
Proof.
  split; [by vm_compute|].
  apply (tables_one_section_per_chip (H:=plain_builtins) (H0:=plain_operators)
           Package sample_config sample_tree sample_snapshot);
    by vm_compute.
Defined.

Lemma dashboard_shows_what_the_tree_holds_applied :
  build_sensors_ui (H:=plain_builtins) (H0:=plain_operators) Package sample_config
    sample_tree = Some sample_dashboard
  /\ shows sample_dashboard "rside_bottom" "[bold cyan]Voltages[/bold cyan]"
       (has_records (fun _ => feeds_volt)
          (visible_groups (H:=plain_builtins) Package sample_config sample_tree)).
Proof.
  split; [by vm_compute|].
  apply (dashboard_shows_what_the_tree_holds (H:=plain_builtins)
           (H0:=plain_operators) Package sample_config sample_tree sample_dashboard).
  by vm_compute.
Defined.

Lemma cells_follow_tiers_applied :
  float_operators (H:=plain_operators)
  /\ Raw.get_colored_temp (H:=plain_builtins) (H0:=plain_operators)
       (JFloat 80) (JFloat 90)
     = Some {| Rich.plain := "°C"; Rich.style := "bold red" |}.
Proof.
  split; [apply plain_operators_float|].
  apply (proj1 (cells_follow_tiers (H:=plain_builtins) (H0:=plain_operators)
                  plain_operators_float) (Some 80%float) (Some 90%float)).
Defined.

Lemma row_labels_resolve_applied :
  (parse_sensors_json (H:=plain_builtins) Package sample_config sample_tree
   = Ok sample_snapshot
   /\ sample_board_base "fan3" ∈ bases sample_snapshot)
  /\ row_label (sample_board_base "fan3") = "Board fan3"
  /\ exists chip_text sensor_text,
       custom (H:=plain_builtins) Package sample_config "nct6775-isa-0290" "label"
         "nct6775-isa-0290" = Ok chip_text
       /\ custom (H:=plain_builtins) Package sample_config "nct6775-isa-0290"
            "fan3" "fan3" = Ok sensor_text
       /\ row_label (sample_board_base "fan3") = chip_text +:+ " " +:+ sensor_text.
Proof.
  assert (sample_board_base "fan3" ∈ bases sample_snapshot) as Hin.
  { unfold bases. rewrite !elem_of_app. do 3 right.
    vm_compute. apply list_elem_of_here. }
  split; [split; [by vm_compute|exact Hin]|]. split; [by vm_compute|].
  apply (proj1 (row_labels_resolve (H:=plain_builtins) Package sample_config
                  sample_tree sample_snapshot (sample_board_base "fan3")
                  ltac:(by vm_compute) Hin)).
Defined.
